(** * CommandLine: serial command-line interpreter (Arduino library)

    A shallow embedding of [CommandLine.cpp] / [CommandLine.h]:
    - [ParseParam]     : classification of one parameter token;
    - [CmdLineProcess] : in-place tokenizer and command-table dispatch;
    - [DoCmdLine]      : the non-blocking line assembler.

    Characters are integers ([Z]); the command buffer and the [argv] array are
    lists updated in place by index; fixed-width counters have their
    wrap-around written out. *)

From Stdlib Require Import ZArith Lia String Ascii.
From stdpp Require Import base list.

Local Open Scope Z_scope.

(** ** Constants of CommandLine.h *)

Definition CHAR_BS : Z := 8.
Definition CMDLINE_MAX_ARGS : Z := 10.
Definition CMDLINE_MAX_TERMINATORS : nat := 2.
Definition CMD_BUF_SIZE : Z := 80.

Definition BADPARAM : Z := -1.
Definition DECVAL : Z := 1.
Definition HEXVAL : Z := 2.
Definition STRVAL : Z := 3.

Definition CMDLINE_BAD_CMD : Z := -1.
Definition CMDLINE_TOO_MANY_ARGS : Z := -2.
Definition CMDLINE_TOO_FEW_ARGS : Z := -3.
Definition CMDLINE_INVALID_ARG : Z := -4.

(** Character codes used by the source as literals. *)
Definition CR : Z := 13.       (* '\r' *)
Definition LF : Z := 10.       (* '\n' *)
Definition NUL : Z := 0.       (* '\0' *)
Definition QUOTE : Z := 34.    (* the double-quote character *)
Definition MINUS : Z := 45.    (* '-'  *)

(** ** C strings and the <ctype.h> / <string.h> functions the code calls *)

(** The characters of a Rocq string literal, as character codes. *)
Definition cstr (s : string) : list Z :=
  map (fun a => Z.of_N (N_of_ascii a)) (list_ascii_of_string s).

(** The C string that starts at the beginning of a memory region: the
    characters in front of the first NUL. *)
Fixpoint cstring (mem : list Z) : list Z :=
  match mem with
  | [] => []
  | c :: mem' => if c =? NUL then [] else c :: cstring mem'
  end.

(** The C string a [char *] at offset [p] of [mem] points to. *)
Definition cstring_at (mem : list Z) (p : nat) : list Z := cstring (drop p mem).

(** [strlen] of a region. *)
Definition strlen (mem : list Z) : Z := Z.of_nat (length (cstring mem)).

(** [s[i]] for a C string given by its characters: the terminating NUL is read
    at [i = strlen s]. *)
Definition char_at (s : list Z) (i : Z) : Z := nth (Z.to_nat i) s NUL.

Definition isspace (c : Z) : bool := (c =? 32) || ((9 <=? c) && (c <=? 13)).
Definition isdigit (c : Z) : bool := (48 <=? c) && (c <=? 57).
Definition isxdigit (c : Z) : bool :=
  isdigit c || ((65 <=? c) && (c <=? 70)) || ((97 <=? c) && (c <=? 102)).
Definition tolower (c : Z) : Z := if (65 <=? c) && (c <=? 90) then c + 32 else c.
Definition toupper (c : Z) : Z := if (97 <=? c) && (c <=? 122) then c - 32 else c.

(** [strcasecmp]: difference of the first pair of characters that differ after
    ASCII case folding, 0 when there is none. *)
Fixpoint strcasecmp (s1 s2 : list Z) : Z :=
  match s1, s2 with
  | [], [] => 0
  | [], c2 :: _ => 0 - tolower c2
  | c1 :: _, [] => tolower c1
  | c1 :: s1', c2 :: s2' =>
      if tolower c1 =? tolower c2 then strcasecmp s1' s2'
      else tolower c1 - tolower c2
  end.

(** [strncpy dst src n]: the first [n] bytes of [dst] receive the characters of
    the C string [src], padded with NUL when [src] is shorter; the other bytes
    of [dst] are kept. *)
Fixpoint strncpy (dst src : list Z) (n : nat) : list Z :=
  match n, dst with
  | O, _ => dst
  | _, [] => []
  | S n', _ :: dst' =>
      match src with
      | [] => NUL :: strncpy dst' [] n'
      | c :: src' => c :: strncpy dst' src' n'
      end
  end.

(** Two's complement wrap-around of [int32_t]. *)
Definition wrap32 (z : Z) : Z := (z + 2 ^ 31) mod 2 ^ 32 - 2 ^ 31.
(** Wrap-around of [uint8_t]. *)
Definition wrap8 (z : Z) : Z := z mod 256.

(** ** ParseParam *)

(** What one of the two conversion loops of [ParseParam] ends with. *)
Inductive loop_exit : Type :=
| Rejected                 (* return BADPARAM from inside the loop *)
| Finished (val : Z).      (* the loop condition failed; [val] accumulated *)

(** Skip leading whitespace: the [while (ch != '\0')] loop. *)
Fixpoint skip_space (param : list Z) : list Z :=
  match param with
  | [] => []
  | ch :: param' => if isspace ch then skip_space param' else param
  end.

(** [for (uint8_t i = 0; i < strlen(param); ++i)] of the hex branch.  The
    counter is 8 bits wide, the loop need not terminate: [fuel] bounds the
    number of times the condition is tested, [None] is fuel exhausted. *)
Fixpoint hex_loop (fuel : nat) (param : list Z) (i val : Z) : option loop_exit :=
  match fuel with
  | O => None
  | S fuel' =>
      if i <? Z.of_nat (length param) then
        let ch := toupper (char_at param i) in
        if isxdigit ch then
          let val := wrap32 (val * 16) in
          let val := if isdigit ch then wrap32 (val + (ch - 48))
                     else wrap32 (val + ((ch - 65) + 10)) in
          hex_loop fuel' param (wrap8 (i + 1)) val
        else Some Rejected
      else Some (Finished val)
  end.

(** [for (uint8_t i = 0; i < strlen(param); ++i)] of the decimal branch. *)
Fixpoint dec_loop (fuel : nat) (param : list Z) (i val : Z) : option loop_exit :=
  match fuel with
  | O => None
  | S fuel' =>
      if i <? Z.of_nat (length param) then
        let ch := char_at param i in
        if isdigit ch then
          let val := wrap32 (val * 10) in
          let val := wrap32 (val + (ch - 48)) in
          dec_loop fuel' param (wrap8 (i + 1)) val
        else Some Rejected
      else Some (Finished val)
  end.

(** Result of [ParseParam]: the returned code and, when the function stores
    through [retval], the value stored. *)
Definition parse_result : Type := Z * option Z.

(** The decimal conversion loop and what follows it. *)
Definition dec_convert (fuel : nat) (param : list Z) (neg_val : bool)
  : option parse_result :=
  match dec_loop fuel param 0 0 with
  | None => None
  | Some Rejected => Some (BADPARAM, None)
  | Some (Finished val) =>
      let val := if neg_val then wrap32 (0 - val) else val in
      Some (DECVAL, Some val)
  end.

(** [ParseParam_fuel fuel mem]: [mem] is the memory [param] points to. *)
Definition ParseParam_fuel (fuel : nat) (mem : list Z) : option parse_result :=
  let param := skip_space (cstring mem) in
  if char_at param 0 =? QUOTE then
    if char_at param (Z.of_nat (length param) - 1) =? QUOTE
    then Some (STRVAL, None)
    else Some (BADPARAM, None)
  else if (char_at param 0 =? 48) && (tolower (char_at param 1) =? 120) then
    let param := drop 2 param in
    match hex_loop fuel param 0 0 with
    | None => None
    | Some Rejected => Some (BADPARAM, None)
    | Some (Finished val) => Some (HEXVAL, Some val)
    end
  else if char_at param 0 =? MINUS then
    dec_convert fuel (drop 1 param) true
  else if negb (isdigit (char_at param 0)) then Some (BADPARAM, None)
  else dec_convert fuel param false.

(** A loop that ends does so within [strlen + 1] tests of its condition (see
    [hex_loop_fuel], [dec_loop_fuel] and [dec_loop_wraps] below), so this fuel
    loses nothing: [None] is the call that never returns. *)
Definition ParseParam (mem : list Z) : option parse_result :=
  ParseParam_fuel (S (length (cstring mem))) mem.


(** ** The command table, the interpreter object and what a call can be seen to do *)

(** [pfnCmdLine]: a command handler, from [(argc, argv)] to a status.  [argv]
    is given as the strings its first [argc] pointers address. *)
Definition pfnCmdLine : Type := Z -> list (list Z) -> Z.

(** [tCmdLineEntry].  [pcCmd = None] is the null pointer that ends the table,
    [Some name] points to memory that holds the command name as a C string. *)
Record tCmdLineEntry : Type := {
  pcCmd : option (list Z);
  pfnCmd : pfnCmdLine;
  pcHelp : list Z
}.

(** Calls made on the stream, reads of the command table and calls through the
    handler pointers, in the order the code makes them. *)
Inductive event : Type :=
| Write (ch : Z)                                   (* serial.write(ch) *)
| Println                                          (* serial.println() *)
| PrintText (msg : string)                         (* serial.println(F(msg)) *)
| PrintErrorCode (nStatus : Z)                     (* "Command returned error code: " nStatus *)
| TableRead (i : nat)                              (* pcCmd of g_sCmdTable[i] is read *)
| Invoke (i : nat) (argc : Z) (args : list (list Z))   (* menuFunc(argc, argv) of entry i *)
| InvokeDefault (argc : Z) (args : list (list Z))      (* defaultFunc(argc, argv) *)
| InvokeError (nStatus : Z).                       (* errorFunc(nStatus) *)

(** The private members of [class CommandLine] ([input] is flattened).
    [argv] holds offsets into [g_cCmdBuf]; [errorFunc] only records whether a
    custom error handler is installed, its calls are [InvokeError] events. *)
Record CommandLine : Type := {
  echoEnable : bool;
  crLfechoEnable : bool;
  crLfcmdEnable : bool;
  index : Z;
  g_cCmdBuf : list Z;
  argv : list nat;
  delimiter : Z;
  terminators : list Z;
  defaultFunc : option pfnCmdLine;
  errorFunc : bool
}.

Definition with_index (st : CommandLine) (i : Z) : CommandLine :=
  {| echoEnable := echoEnable st; crLfechoEnable := crLfechoEnable st;
     crLfcmdEnable := crLfcmdEnable st; index := i; g_cCmdBuf := g_cCmdBuf st;
     argv := argv st; delimiter := delimiter st; terminators := terminators st;
     defaultFunc := defaultFunc st; errorFunc := errorFunc st |}.

Definition with_buf (st : CommandLine) (buf : list Z) : CommandLine :=
  {| echoEnable := echoEnable st; crLfechoEnable := crLfechoEnable st;
     crLfcmdEnable := crLfcmdEnable st; index := index st; g_cCmdBuf := buf;
     argv := argv st; delimiter := delimiter st; terminators := terminators st;
     defaultFunc := defaultFunc st; errorFunc := errorFunc st |}.

Definition with_argv (st : CommandLine) (av : list nat) : CommandLine :=
  {| echoEnable := echoEnable st; crLfechoEnable := crLfechoEnable st;
     crLfcmdEnable := crLfcmdEnable st; index := index st; g_cCmdBuf := g_cCmdBuf st;
     argv := av; delimiter := delimiter st; terminators := terminators st;
     defaultFunc := defaultFunc st; errorFunc := errorFunc st |}.

(** [SetDefaults], on an object whose other members hold [st]. *)
Definition SetDefaults (_echoEnable : bool) (st : CommandLine) : CommandLine :=
  {| echoEnable := _echoEnable; crLfechoEnable := false; crLfcmdEnable := true;
     index := 0; g_cCmdBuf := g_cCmdBuf st; argv := argv st; delimiter := 32;
     terminators := <[1%nat := NUL]> (<[0%nat := CR]> (terminators st));
     defaultFunc := None; errorFunc := false |}.

(** Storage before the constructor runs, all bytes zero. *)
Definition blank : CommandLine :=
  {| echoEnable := false; crLfechoEnable := false; crLfcmdEnable := false;
     index := 0; g_cCmdBuf := replicate (Z.to_nat CMD_BUF_SIZE) NUL;
     argv := replicate (Z.to_nat CMDLINE_MAX_ARGS) 0%nat; delimiter := 0;
     terminators := replicate (S CMDLINE_MAX_TERMINATORS) NUL;
     defaultFunc := None; errorFunc := false |}.

(** The constructors [CommandLine(serial, echoEnable)] and [CommandLine(serial)]. *)
Definition new_CommandLine (_echoEnable : bool) : CommandLine :=
  SetDefaults _echoEnable blank.
Definition default_CommandLine : CommandLine := new_CommandLine true.

(** The setters. *)
Definition Echo (_echoEnable : bool) (st : CommandLine) : CommandLine :=
  {| echoEnable := _echoEnable; crLfechoEnable := crLfechoEnable st;
     crLfcmdEnable := crLfcmdEnable st; index := index st; g_cCmdBuf := g_cCmdBuf st;
     argv := argv st; delimiter := delimiter st; terminators := terminators st;
     defaultFunc := defaultFunc st; errorFunc := errorFunc st |}.

Definition CrLfEcho (_echoEnable : bool) (st : CommandLine) : CommandLine :=
  {| echoEnable := echoEnable st; crLfechoEnable := _echoEnable;
     crLfcmdEnable := crLfcmdEnable st; index := index st; g_cCmdBuf := g_cCmdBuf st;
     argv := argv st; delimiter := delimiter st; terminators := terminators st;
     defaultFunc := defaultFunc st; errorFunc := errorFunc st |}.

Definition CrLfCommand (_crLfcmdEnable : bool) (st : CommandLine) : CommandLine :=
  {| echoEnable := echoEnable st; crLfechoEnable := crLfechoEnable st;
     crLfcmdEnable := _crLfcmdEnable; index := index st; g_cCmdBuf := g_cCmdBuf st;
     argv := argv st; delimiter := delimiter st; terminators := terminators st;
     defaultFunc := defaultFunc st; errorFunc := errorFunc st |}.

Definition Delimiter (_delimiter : Z) (st : CommandLine) : CommandLine :=
  {| echoEnable := echoEnable st; crLfechoEnable := crLfechoEnable st;
     crLfcmdEnable := crLfcmdEnable st; index := index st; g_cCmdBuf := g_cCmdBuf st;
     argv := argv st; delimiter := _delimiter; terminators := terminators st;
     defaultFunc := defaultFunc st; errorFunc := errorFunc st |}.

Definition Terminators (_terminators : list Z) (st : CommandLine) : CommandLine :=
  {| echoEnable := echoEnable st; crLfechoEnable := crLfechoEnable st;
     crLfcmdEnable := crLfcmdEnable st; index := index st; g_cCmdBuf := g_cCmdBuf st;
     argv := argv st; delimiter := delimiter st;
     terminators := strncpy (terminators st) (cstring _terminators) CMDLINE_MAX_TERMINATORS;
     defaultFunc := defaultFunc st; errorFunc := errorFunc st |}.

Definition SetDefaultHandler (function : option pfnCmdLine) (st : CommandLine)
  : CommandLine :=
  {| echoEnable := echoEnable st; crLfechoEnable := crLfechoEnable st;
     crLfcmdEnable := crLfcmdEnable st; index := index st; g_cCmdBuf := g_cCmdBuf st;
     argv := argv st; delimiter := delimiter st; terminators := terminators st;
     defaultFunc := function; errorFunc := errorFunc st |}.

Definition SetCustomErrorHandler (installed : bool) (st : CommandLine) : CommandLine :=
  {| echoEnable := echoEnable st; crLfechoEnable := crLfechoEnable st;
     crLfcmdEnable := crLfcmdEnable st; index := index st; g_cCmdBuf := g_cCmdBuf st;
     argv := argv st; delimiter := delimiter st; terminators := terminators st;
     defaultFunc := defaultFunc st; errorFunc := installed |}.

(** [FlushReceive]. *)
Definition FlushReceive (st : CommandLine) : CommandLine :=
  with_buf (with_index st 0) (<[0%nat := NUL]> (g_cCmdBuf st)).

(** ** CmdLineProcess *)

(** How the [while] loop over the command line is left. *)
Inductive tok_exit : Type :=
| TooManyArgs (pcCmdLine : list Z) (argv : list nat)    (* return CMDLINE_TOO_MANY_ARGS *)
| EndOfLine (pcCmdLine : list Z) (argc : Z) (argv : list nat).

(** The tokenizing loop.  [pcCmdLine] is the memory the pointer of that name
    addresses and [pcChar] the offset of the moving pointer in it; [n] is the
    number of bytes from [pcChar] to the end of that memory, past which a NUL
    is read. *)
Fixpoint tok_loop (delim : Z) (n : nat) (pcCmdLine : list Z) (pcChar : nat)
    (argc : Z) (bFindArg : bool) (argv : list nat) : tok_exit :=
  match n with
  | O => EndOfLine pcCmdLine argc argv
  | S n' =>
      let c := default NUL (pcCmdLine !! pcChar) in
      if c =? NUL then EndOfLine pcCmdLine argc argv
      else if c =? delim then
        tok_loop delim n' (<[pcChar := NUL]> pcCmdLine) (S pcChar) argc true argv
      else if bFindArg then
        if argc <? CMDLINE_MAX_ARGS then
          tok_loop delim n' pcCmdLine (S pcChar) (argc + 1) false
                   (<[Z.to_nat argc := pcChar]> argv)
        else TooManyArgs pcCmdLine argv
      else tok_loop delim n' pcCmdLine (S pcChar) argc bFindArg argv
  end.

(** The strings the handler finds behind [argv[0]] .. [argv[argc-1]]. *)
Definition arg_strings (buf : list Z) (argc : Z) (argv : list nat) : list (list Z) :=
  map (cstring_at buf) (take (Z.to_nat argc) argv).

(** The [while (1)] search of the command table from entry [i] on.  The
    search ends at the null entry, as it does at the end of the list.  [None]
    is the search that ends without a match, otherwise the status of the
    handler called. *)
Fixpoint table_search (tbl : list tCmdLineEntry) (i : nat) (argc : Z)
    (args : list (list Z)) : option Z * list event :=
  match tbl with
  | [] => (None, [])
  | pCmdEntry :: tbl' =>
      match pcCmd pCmdEntry with
      | None => (None, [TableRead i])
      | Some name =>
          if strcasecmp (default [] (args !! 0%nat)) (cstring name) =? 0
          then (Some (pfnCmd pCmdEntry argc args), [TableRead i; Invoke i argc args])
          else let '(r, tr) := table_search tbl' (S i) argc args in
               (r, TableRead i :: tr)
      end
  end.

Section Interpreter.

(** [g_sCmdTable], the table the application provides. *)
Variable g_sCmdTable : list tCmdLineEntry.

(** The part of [CmdLineProcess] that follows the tokenizing loop: the table
    search when [argc] is not zero, then the default handler or
    [CMDLINE_BAD_CMD]. *)
Definition dispatch (defaultFunc : option pfnCmdLine) (argc : Z)
    (args : list (list Z)) : Z * list event :=
  let '(found, tr) :=
    if argc =? 0 then (None, []) else table_search g_sCmdTable 0 argc args in
  match found with
  | Some status => (status, tr)
  | None =>
      match defaultFunc with
      | None => (CMDLINE_BAD_CMD, tr)
      | Some f => (f argc args, tr ++ [InvokeDefault argc args])
      end
  end.

(** [CmdLineProcess(input.g_cCmdBuf)]: status, the object afterwards (buffer
    cut into tokens, [argv] filled) and the events. *)
Definition CmdLineProcess (st : CommandLine) : Z * CommandLine * list event :=
  let pcCmdLine := g_cCmdBuf st in
  match tok_loop (delimiter st) (length pcCmdLine) pcCmdLine 0 0 true (argv st) with
  | TooManyArgs buf av =>
      (CMDLINE_TOO_MANY_ARGS, with_argv (with_buf st buf) av, [])
  | EndOfLine buf argc av =>
      let '(status, tr) := dispatch (defaultFunc st) argc (arg_strings buf argc av) in
      (status, with_argv (with_buf st buf) av, tr)
  end.

(** ** DoCmdLine *)

(** [input.g_cCmdBuf[input.index++] = ch]. *)
Definition store_char (st : CommandLine) (ch : Z) : CommandLine :=
  with_index (with_buf st (<[Z.to_nat (index st) := ch]> (g_cCmdBuf st)))
             (wrap8 (index st + 1)).

(** [terminators[k]]. *)
Definition terminator (st : CommandLine) (k : nat) : Z :=
  default NUL (terminators st !! k).

Definition is_crlf (ch : Z) : bool := (ch =? CR) || (ch =? LF).

(** The echo of one received character. *)
Definition echo (st : CommandLine) (ch : Z) : list event :=
  if echoEnable st then
    if negb (is_crlf ch) || crLfechoEnable st then [Write ch] else []
  else [].

(** [--input.index] when the cursor is not zero. *)
Definition backspace (st : CommandLine) : CommandLine :=
  if index st =? 0 then st else with_index st (wrap8 (index st - 1)).

(** How the [for] loop of [DoCmdLine] is left. *)
Inductive scan_exit : Type :=
| NoData (st : CommandLine) (tr : list event)
    (* return 0: the stream ran dry *)
| LoopEnd (st : CommandLine) (ch : Z) (rx : list Z) (tr : list event).
    (* [break], or the loop condition failed *)

(** [for (uint8_t i = input.index; i < sizeof(input.g_cCmdBuf) - 1; ++i)]:
    [n] is the number of values of [i] still to come, [ch] the last character
    read, [rx] the bytes the stream will deliver, [tr] the events so far. *)
Fixpoint scan (n : nat) (st : CommandLine) (ch : Z) (rx : list Z) (tr : list event)
  : scan_exit :=
  match n with
  | O => LoopEnd st ch rx tr
  | S n' =>
      match rx with
      | [] => NoData st tr
      | b :: rx' =>
          let ch := Z.land b 127 in
          let tr := tr ++ echo st ch in
          if (ch =? terminator st 0) || (ch =? terminator st 1) then
            LoopEnd (if negb (is_crlf ch) then store_char st ch else st) ch rx' tr
          else if ch =? CHAR_BS then
            scan n' (backspace st) ch rx' tr
          else if ch =? LF then scan n' st ch rx' tr
          else scan n' (store_char st ch) ch rx' tr
      end
  end.

(** The [switch (nStatus)] that reports an error on the stream. *)
Definition report (nStatus : Z) : list event :=
  if nStatus =? CMDLINE_BAD_CMD then [PrintText "Bad command!"]
  else if nStatus =? CMDLINE_TOO_MANY_ARGS
  then [PrintText "Too many arguments for command processor!"]
  else if nStatus =? CMDLINE_TOO_FEW_ARGS
  then [PrintText "Not enough arguments for command processor!"]
  else if nStatus =? CMDLINE_INVALID_ARG
  then [PrintText "Invalid argument for command processor!"]
  else if nStatus =? 0 then [] else [PrintErrorCode nStatus].

(** What a call of [DoCmdLine] leaves behind. *)
Record poll_result : Type := {
  ret : Z;                     (* the value returned *)
  obj : CommandLine;           (* the object afterwards *)
  unread : list Z;             (* bytes still in the stream *)
  trace : list event           (* what the call did *)
}.

(** [input.g_cCmdBuf[input.index] = 0]. *)
Definition terminate_line (st : CommandLine) : CommandLine :=
  with_buf st (<[Z.to_nat (index st) := NUL]> (g_cCmdBuf st)).

(** The code after the [for] loop: terminate the buffer, process the line when
    it is not empty, report, reset the cursor. *)
Definition finish_line (st : CommandLine) (ch : Z) (rx : list Z) (tr : list event)
  : poll_result :=
  let st := terminate_line st in
  if strlen (g_cCmdBuf st) >? 0 then
    let tr := tr ++ (if is_crlf ch && crLfcmdEnable st then [Println] else []) in
    let '(nStatus, st, tr') := CmdLineProcess st in
    let tr := tr ++ tr' ++ (if errorFunc st then [InvokeError nStatus] else report nStatus) in
    {| ret := 1; obj := with_index st 0; unread := rx; trace := tr |}
  else {| ret := 1; obj := with_index st 0; unread := rx; trace := tr |}.

(** [DoCmdLine].  [rx] holds the bytes [serial.read()] delivers during the
    call; [serial.available()] is true while some are left. *)
Definition DoCmdLine (st : CommandLine) (rx : list Z) : poll_result :=
  match rx with
  | [] => {| ret := 0; obj := st; unread := []; trace := [] |}
  | _ =>
      match scan (Z.to_nat (CMD_BUF_SIZE - 1 - index st)) st NUL rx [] with
      | NoData st tr => {| ret := 0; obj := st; unread := []; trace := tr |}
      | LoopEnd st ch rx tr => finish_line st ch rx tr
      end
  end.

(** A sequence of calls.  [polls] gives the bytes that arrive for each call,
    [stream] the bytes the call before has left unread. *)
Fixpoint run (st : CommandLine) (stream : list Z) (polls : list (list Z))
  : CommandLine :=
  match polls with
  | [] => st
  | rx :: polls' =>
      let r := DoCmdLine st (stream ++ rx) in
      run (obj r) (unread r) polls'
  end.

End Interpreter.

(** ** ShowCommands *)

(** What [ShowCommands] sends to the stream. *)
Inductive print_event : Type :=
| Print (s : list Z)          (* serial.print(s) *)
| PrintLine (s : list Z)      (* serial.println(s) *)
| NewLine.                    (* serial.println() *)

(** [ShowCommands(help_info_disable)] on the table [tbl]: the [while (1)] loop
    over the entries, left at the null entry (or at the end of the list). *)
Fixpoint ShowCommands (tbl : list tCmdLineEntry) (help_info_disable : bool)
  : list print_event :=
  match tbl with
  | [] => []
  | pEntry :: tbl' =>
      match pcCmd pEntry with
      | None => []
      | Some name =>
          Print (cstring name)
          :: (if negb help_info_disable then PrintLine (cstring (pcHelp pEntry))
              else NewLine)
          :: ShowCommands tbl' help_info_disable
      end
  end.

(** * Specification-side definitions *)

(** ** The split the specification describes, and the names of a table *)

(** A C string has no NUL among its characters. *)
Definition nul_free (s : list Z) : Prop := Forall (fun c => c <> NUL) s.

(** Split at every occurrence of the delimiter, empty fields included. *)
Fixpoint split_on (d : Z) (line : list Z) : list (list Z) :=
  match line with
  | [] => [[]]
  | c :: line' =>
      if c =? d then [] :: split_on d line'
      else match split_on d line' with
           | [] => [[c]]
           | t :: ts => (c :: t) :: ts
           end
  end.

Definition nonempty (t : list Z) : bool :=
  match t with [] => false | _ :: _ => true end.

(** The delimiter-split of a line with consecutive delimiters collapsed: the
    fields of [split_on] that are not empty. *)
Definition split_collapse (d : Z) (line : list Z) : list (list Z) :=
  List.filter nonempty (split_on d line).

(** Equality of two strings up to ASCII case. *)
Definition same_folded (s1 s2 : list Z) : Prop := map tolower s1 = map tolower s2.

(** The names of the table: those of the entries in front of the null entry. *)
Fixpoint names (tbl : list tCmdLineEntry) : list (list Z) :=
  match tbl with
  | [] => []
  | e :: tbl' =>
      match pcCmd e with
      | None => []
      | Some name => cstring name :: names tbl'
      end
  end.

(** The number of entries a search without a match reads: the named entries
    and the null entry. *)
Fixpoint scanned (tbl : list tCmdLineEntry) : nat :=
  match tbl with
  | [] => 0
  | e :: tbl' =>
      match pcCmd e with
      | None => 1
      | Some _ => S (scanned tbl')
      end
  end.

(** The handler calls among the events. *)
Definition is_call (ev : event) : bool :=
  match ev with
  | Invoke _ _ _ | InvokeDefault _ _ => true
  | _ => false
  end.
Definition handler_calls (tr : list event) : list event := List.filter is_call tr.

(** ** What the loops do, as functions of the characters *)

(** The line after the loop: every delimiter overwritten with NUL. *)
Definition zap (d : Z) (rest : list Z) : list Z :=
  map (fun c => if c =? d then NUL else c) rest.

(** The offsets at which the loop finds the start of an argument, when it is
    at offset [p] in front of [rest] with flag [bFindArg]. *)
Fixpoint starts (d : Z) (bFindArg : bool) (p : nat) (rest : list Z) : list nat :=
  match rest with
  | [] => []
  | c :: rest' =>
      if c =? d then starts d true (S p) rest'
      else if bFindArg then p :: starts d false (S p) rest'
      else starts d false (S p) rest'
  end.

(** Storing a list of argument starts into [argv], as long as there is room. *)
Fixpoint fill (argc : Z) (av : list nat) (ps : list nat) : option (Z * list nat) :=
  match ps with
  | [] => Some (argc, av)
  | p :: ps' =>
      if argc <? CMDLINE_MAX_ARGS
      then fill (argc + 1) (<[Z.to_nat argc := p]> av) ps'
      else None
  end.

(** Two objects that differ at most in the buffer contents and in [argv]. *)
Definition same_settings (st st' : CommandLine) : Prop :=
  echoEnable st' = echoEnable st /\ crLfechoEnable st' = crLfechoEnable st
  /\ crLfcmdEnable st' = crLfcmdEnable st /\ index st' = index st
  /\ delimiter st' = delimiter st /\ terminators st' = terminators st
  /\ defaultFunc st' = defaultFunc st /\ errorFunc st' = errorFunc st
  /\ length (g_cCmdBuf st') = length (g_cCmdBuf st)
  /\ length (argv st') = length (argv st).

(** The characters assembled so far: the buffer in front of the cursor. *)
Definition pending (st : CommandLine) : list Z :=
  take (Z.to_nat (index st)) (g_cCmdBuf st).

(** The state of the object between two calls of [DoCmdLine]. *)
Definition wf (st : CommandLine) : Prop :=
  0 <= index st <= CMD_BUF_SIZE - 2
  /\ Z.of_nat (length (g_cCmdBuf st)) = CMD_BUF_SIZE
  /\ (Z.to_nat CMDLINE_MAX_ARGS <= length (argv st))%nat.

(** A byte that the loop appends to the buffer: after masking it is neither
    a terminator nor a backspace nor a line feed. *)
Definition ordinary (st : CommandLine) (b : Z) : bool :=
  let ch := Z.land b 127 in
  negb ((ch =? terminator st 0) || (ch =? terminator st 1))
  && negb (ch =? CHAR_BS) && negb (ch =? LF).

Definition stores (st : CommandLine) (chars : list Z) : CommandLine :=
  fold_left store_char chars st.

(** The characters the assembler keeps of the bytes [body] closed by the
    terminator byte [t]: a terminator other than CR and LF is part of them. *)
Definition kept (body : list Z) (t : Z) : list Z :=
  map (fun b => Z.land b 127) body
  ++ (if is_crlf (Z.land t 127) then [] else [Z.land t 127]).

(** The echo of a run of received bytes. *)
Definition echoes (st : CommandLine) (bytes : list Z) : list event :=
  flat_map (fun b => echo st (Z.land b 127)) bytes.

(** A byte that, after masking, is one of the two terminator characters. *)
Definition is_terminator (st : CommandLine) (b : Z) : bool :=
  (Z.land b 127 =? terminator st 0) || (Z.land b 127 =? terminator st 1).

(** What a received byte makes of the characters assembled so far, by the
    tests of the loop in their order: a terminator is appended unless it is
    CR or LF, a backspace takes the last character off, a line feed is
    dropped, any other character is appended. *)
Definition edit (st : CommandLine) (line : list Z) (b : Z) : list Z :=
  let ch := Z.land b 127 in
  if is_terminator st b then (if is_crlf ch then line else line ++ [ch])
  else if ch =? CHAR_BS then removelast line
  else if ch =? LF then line
  else line ++ [ch].

(** The characters assembled from [line] by the bytes received. *)
Definition assembled (st : CommandLine) (line bytes : list Z) : list Z :=
  fold_left (edit st) bytes line.

(** ** Outcomes of processing a line *)

Section Outcomes.

Variable g_sCmdTable : list tCmdLineEntry.

(** What processing a command line amounts to, in terms of its split. *)
Definition process_line (dflt : option pfnCmdLine) (d : Z) (line : list Z)
  : Z * list event :=
  let toks := split_collapse d line in
  if CMDLINE_MAX_ARGS <? Z.of_nat (length toks) then (CMDLINE_TOO_MANY_ARGS, [])
  else dispatch g_sCmdTable dflt (Z.of_nat (length toks)) toks.

(** What the code after the loop does on the stream and through the handler
    pointers, for the line [line] it finds in the buffer. *)
Definition line_events (st : CommandLine) (ch : Z) (line : list Z) : list event :=
  match line with
  | [] => []
  | _ :: _ =>
      (if is_crlf ch && crLfcmdEnable st then [Println] else [])
      ++ (let '(nStatus, tr) :=
            process_line (defaultFunc st) (delimiter st) line in
          tr ++ (if errorFunc st then [InvokeError nStatus] else report nStatus))
  end.

(** The outcome C4 describes for a line whose first token is in no entry:
    [CMDLINE_BAD_CMD] without a default handler, else the status of the
    default handler, called with the count and the tokens of the split. *)
Definition falls_to_default (st : CommandLine) (line : list Z) : Prop :=
  let toks := split_collapse (delimiter st) line in
  let argc := Z.of_nat (length toks) in
  let '(status, _, tr) := CmdLineProcess g_sCmdTable st in
  match defaultFunc st with
  | None => status = CMDLINE_BAD_CMD /\ handler_calls tr = []
  | Some f => status = f argc toks /\ handler_calls tr = [InvokeDefault argc toks]
  end.

(** C1 as stated: the call that receives [body], the rest of a line, and its
    terminator [t] completes the line, leaves in [argv] exactly the
    delimiter-split of the line, and hands that split with its length to the
    dispatch.  The line is the string the buffer then holds: the characters
    assembled from those of earlier calls by [body] and [t], up to the first
    NUL among them. *)
Definition tokenizes_as_split (st : CommandLine) (body : list Z) (t : Z)
    (rx : list Z) : Prop :=
  let line := cstring (assembled st (pending st) (body ++ [t])) in
  let toks := split_collapse (delimiter st) line in
  let argc := Z.of_nat (length toks) in
  let r := DoCmdLine g_sCmdTable st (body ++ t :: rx) in
  ret r = 1 /\ unread r = rx
  /\ arg_strings (g_cCmdBuf (obj r)) argc (argv (obj r)) = toks
  /\ trace r
     = echoes st (body ++ [t])
       ++ match line with
          | [] => []
          | _ :: _ =>
              (if is_crlf (Z.land t 127) && crLfcmdEnable st then [Println] else [])
              ++ (let '(nStatus, tr) :=
                    dispatch g_sCmdTable (defaultFunc st) argc toks in
                  tr ++ (if errorFunc st then [InvokeError nStatus]
                         else report nStatus))
          end.

(** C8 as stated, for a backspace byte [b] that is all a call receives: the
    call takes exactly the last of the assembled characters off, and leaves
    the cursor at 0 when there is none. *)
Definition takes_one_off (st : CommandLine) (b : Z) : Prop :=
  let r := DoCmdLine g_sCmdTable st [b] in
  ret r = 0
  /\ pending (obj r) = removelast (pending st)
  /\ index (obj r) = Z.max 0 (index st - 1).

End Outcomes.

(** The outcome C9 describes: the call reports no line and calls no handler. *)
Definition not_dispatched (r : poll_result) : Prop :=
  ret r = 0 /\ handler_calls (trace r) = [].

(** ** [ParseParam] without fuel *)

(** The decimal loop as a recursion over the characters. *)
Fixpoint dec_digits (s : list Z) (val : Z) : loop_exit :=
  match s with
  | [] => Finished val
  | ch :: s' =>
      if isdigit ch then dec_digits s' (wrap32 (wrap32 (val * 10) + (ch - 48)))
      else Rejected
  end.

(** The hex loop as a recursion over the characters. *)
Fixpoint hex_digits (s : list Z) (val : Z) : loop_exit :=
  match s with
  | [] => Finished val
  | c :: s' =>
      let ch := toupper c in
      if isxdigit ch then
        hex_digits s' (if isdigit ch then wrap32 (wrap32 (val * 16) + (ch - 48))
                       else wrap32 (wrap32 (val * 16) + ((ch - 65) + 10)))
      else Rejected
  end.

(** The value the decimal loop accumulates over a run of digits. *)
Definition dec_value (s : list Z) (val : Z) : Z :=
  fold_left (fun v ch => wrap32 (wrap32 (v * 10) + (ch - 48))) s val.

(** [ParseParam] as a function of the token, for tokens shorter than 256. *)
Definition parse_token (s : list Z) : parse_result :=
  let param := skip_space s in
  let convert (r : loop_exit) (code : Z) (neg_val : bool) : parse_result :=
    match r with
    | Rejected => (BADPARAM, None)
    | Finished val => (code, Some (if neg_val then wrap32 (0 - val) else val))
    end in
  if char_at param 0 =? QUOTE then
    if char_at param (Z.of_nat (length param) - 1) =? QUOTE
    then (STRVAL, None) else (BADPARAM, None)
  else if (char_at param 0 =? 48) && (tolower (char_at param 1) =? 120) then
    convert (hex_digits (drop 2 param) 0) HEXVAL false
  else if char_at param 0 =? MINUS then
    convert (dec_digits (drop 1 param) 0) DECVAL true
  else if negb (isdigit (char_at param 0)) then (BADPARAM, None)
  else convert (dec_digits param 0) DECVAL false.

(** ** Objects and tables used as concrete instances *)

(** An object whose buffer holds the string [line], the cursor behind it. *)
Definition holding (st : CommandLine) (line : list Z) : CommandLine :=
  with_index
    (with_buf st (line ++ replicate (Z.to_nat CMD_BUF_SIZE - length line) NUL))
    (Z.of_nat (length line)).

(** Handlers that answer with a fixed status. *)
Definition answer (status : Z) : pfnCmdLine := fun _ _ => status.

(** A table with the name LIST twice, and an entry behind the null entry. *)
Definition demo_table : list tCmdLineEntry :=
  [ {| pcCmd := Some (cstr "add"); pfnCmd := answer 0; pcHelp := cstr " a b" |};
    {| pcCmd := Some (cstr "LIST"); pfnCmd := answer 7; pcHelp := [] |};
    {| pcCmd := Some (cstr "list"); pfnCmd := answer 8; pcHelp := [] |};
    {| pcCmd := None; pfnCmd := answer 0; pcHelp := [] |};
    {| pcCmd := Some (cstr "hidden"); pfnCmd := answer 9; pcHelp := [] |} ].

Definition eleven_tokens : list Z := cstr "a b c d e f g h i j k".

(** ** Further notions used by the properties of the whole interpreter *)

(** Two objects with the same settings and the same [argv]. *)
Definition same_config (st st' : CommandLine) : Prop :=
  echoEnable st' = echoEnable st /\ crLfechoEnable st' = crLfechoEnable st
  /\ crLfcmdEnable st' = crLfcmdEnable st /\ delimiter st' = delimiter st
  /\ terminators st' = terminators st /\ defaultFunc st' = defaultFunc st
  /\ errorFunc st' = errorFunc st /\ argv st' = argv st.

(** The number of bytes one call can read: the values left to the loop counter. *)
Definition room (st : CommandLine) : nat := Z.to_nat (CMD_BUF_SIZE - 1 - index st).

(** The characters written back among the events. *)
Definition is_write (ev : event) : bool :=
  match ev with Write _ => true | _ => false end.
Definition echoed (tr : list event) : list event := List.filter is_write tr.

(** The built-in messages, and the calls of the custom error handler. *)
Definition is_message (ev : event) : bool :=
  match ev with PrintText _ | PrintErrorCode _ => true | _ => false end.
Definition is_error_call (ev : event) : bool :=
  match ev with InvokeError _ => true | _ => false end.
Definition messages (tr : list event) : list event := List.filter is_message tr.
Definition error_calls (tr : list event) : list event := List.filter is_error_call tr.

(** The table reads among the events. *)
Definition is_read (ev : event) : bool :=
  match ev with TableRead _ => true | _ => false end.

(** How a run of the loop relates to the bytes of the stream. *)
Inductive loop_outcome (st : CommandLine) (n : nat) (rx : list Z)
  : scan_exit -> list event -> Prop :=
| ran_dry st' tr :
    (length rx < n)%nat -> existsb (is_terminator st) rx = false ->
    same_config st st' ->
    loop_outcome st n rx (NoData st' (tr ++ echoes st rx)) tr
| ran_out st' consumed rx' ch tr :
    rx = consumed ++ rx' -> length consumed = n ->
    existsb (is_terminator st) consumed = false ->
    same_config st st' ->
    loop_outcome st n rx (LoopEnd st' ch rx' (tr ++ echoes st consumed)) tr
| terminated st' before t rx' tr :
    rx = before ++ t :: rx' -> (length before < n)%nat ->
    existsb (is_terminator st) before = false -> is_terminator st t = true ->
    same_config st st' ->
    loop_outcome st n rx
      (LoopEnd st' (Z.land t 127) rx' (tr ++ echoes st (before ++ [t]))) tr.

(** Events of the command-table search and of the handler pointers only. *)
Definition quiet (tr : list event) : Prop :=
  echoed tr = [] /\ messages tr = [] /\ error_calls tr = []
  /\ (length (handler_calls tr) <= 1)%nat.

(** A byte that is neither a terminator nor a backspace: the loop drops it
    when it is a line feed and appends it otherwise. *)
Definition plain (st : CommandLine) (b : Z) : bool :=
  negb (is_terminator st b) && negb (Z.land b 127 =? CHAR_BS).

(** The characters the loop appends for a run of [plain] bytes. *)
Definition appended (bytes : list Z) : list Z :=
  List.filter (fun ch => negb (ch =? LF)) (map (fun b => Z.land b 127) bytes).

(** The characters written back for the bytes read, by [Echo] and [CrLfEcho]. *)
Definition written_back (st : CommandLine) (bytes : list Z) : list event :=
  if echoEnable st then
    map Write (List.filter (fun ch => negb (is_crlf ch) || crLfechoEnable st)
                 (map (fun b => Z.land b 127) bytes))
  else [].

(** ** Numbers written in digits *)

(** The number a run of decimal digits denotes, read on top of [v]. *)
Definition dec_number (s : list Z) (v : Z) : Z :=
  fold_left (fun v ch => v * 10 + (ch - 48)) s v.

(** The value of one hexadecimal digit, in either case. *)
Definition hex_digit_value (c : Z) : Z :=
  if isdigit c then c - 48
  else if (65 <=? c) && (c <=? 70) then c - 55
  else c - 87.

(** The number a run of hexadecimal digits denotes, read on top of [v]. *)
Definition hex_number (s : list Z) (v : Z) : Z :=
  fold_left (fun v ch => v * 16 + hex_digit_value ch) s v.

(** The optional minus sign in front of a decimal token. *)
Definition sign (neg : bool) : list Z := if neg then [MINUS] else [].

(** ** What the handlers are called with *)

(** What a handler can rely on for [argc] and [argv], with delimiter [d]. *)
Definition well_formed_args (d : Z) (argc : Z) (args : list (list Z)) : Prop :=
  argc = Z.of_nat (length args)
  /\ 0 <= argc <= CMDLINE_MAX_ARGS
  /\ Forall (fun a => a <> [] /\ nul_free a /\ ~ In d a) args.

(** ** What [ShowCommands] lists *)


(** * Properties *)

(** ** C strings *)

Lemma cstring_nul_free (s junk : list Z) :
  nul_free s -> cstring (s ++ NUL :: junk) = s.
Proof.
  induction 1 as [|c s Hc _ IH]; simpl; [reflexivity|].
  destruct (Z.eqb_spec c NUL); [contradiction|]. by rewrite IH.
Qed.

Lemma cstring_is_nul_free (mem : list Z) : nul_free (cstring mem).
Proof.
  induction mem as [|c mem IH]; simpl; [constructor|].
  destruct (Z.eqb_spec c NUL); constructor; assumption.
Qed.

Lemma cstring_at_app (pre mem : list Z) :
  cstring_at (pre ++ mem) (length pre) = cstring mem.
Proof. unfold cstring_at. by rewrite drop_app_length. Qed.

(** ** The tokenizing loop *)

Lemma insert_middle {A} (pre : list A) (x y : A) (l : list A) :
  <[length pre := y]> (pre ++ x :: l) = pre ++ y :: l.
Proof.
  rewrite insert_app_r_alt by lia. by rewrite Nat.sub_diag.
Qed.

Lemma tok_loop_step (d : Z) (n : nat) (buf : list Z) (p : nat) (c : Z)
    (argc : Z) (bFindArg : bool) (av : list nat) :
  buf !! p = Some c ->
  tok_loop d (S n) buf p argc bFindArg av =
    if c =? NUL then EndOfLine buf argc av
    else if c =? d then tok_loop d n (<[p := NUL]> buf) (S p) argc true av
    else if bFindArg then
      if argc <? CMDLINE_MAX_ARGS
      then tok_loop d n buf (S p) (argc + 1) false (<[Z.to_nat argc := p]> av)
      else TooManyArgs buf av
    else tok_loop d n buf (S p) argc bFindArg av.
Proof. intros Hc. simpl. rewrite Hc. reflexivity. Qed.

Lemma zap_cons (d c : Z) (rest : list Z) :
  zap d (c :: rest) = (if c =? d then NUL else c) :: zap d rest.
Proof. reflexivity. Qed.

Lemma tok_loop_run (d : Z) (junk rest : list Z) :
  nul_free rest ->
  forall (pre : list Z) (argc : Z) (bFindArg : bool) (av : list nat) (n : nat),
    (length rest < n)%nat ->
    match fill argc av (starts d bFindArg (length pre) rest) with
    | Some (argc', av') =>
        tok_loop d n (pre ++ rest ++ NUL :: junk) (length pre) argc bFindArg av
        = EndOfLine (pre ++ zap d rest ++ NUL :: junk) argc' av'
    | None =>
        exists buf av',
        tok_loop d n (pre ++ rest ++ NUL :: junk) (length pre) argc bFindArg av
        = TooManyArgs buf av'
    end.
Proof.
  induction 1 as [|c rest Hc Hrest IH]; intros pre argc bFindArg av n Hn.
  - destruct n as [|n]; [simpl in Hn; lia|].
    rewrite (tok_loop_step _ _ _ _ NUL) by (by apply list_lookup_middle).
    reflexivity.
  - destruct n as [|n]; [simpl in Hn; lia|].
    assert (Hn' : (length rest < n)%nat) by (simpl in Hn; lia).
    assert (Hshift : forall x l, pre ++ x :: l = (pre ++ [x]) ++ l)
      by (intros; by rewrite <- app_assoc).
    assert (Hlen : forall x : Z, length (pre ++ [x]) = S (length pre))
      by (intros; rewrite length_app; simpl; lia).
    rewrite <- app_comm_cons.
    rewrite (tok_loop_step _ _ _ _ c) by (by apply list_lookup_middle).
    rewrite zap_cons, <- app_comm_cons. cbn [starts].
    destruct (Z.eqb_spec c NUL) as [|_]; [contradiction|].
    destruct (c =? d).
    + rewrite insert_middle.
      specialize (IH (pre ++ [NUL]) argc true av n Hn').
      rewrite Hlen in IH.
      rewrite (Hshift NUL (rest ++ NUL :: junk)), (Hshift NUL (zap d rest ++ NUL :: junk)).
      exact IH.
    + destruct bFindArg.
      * cbn [fill]. destruct (argc <? CMDLINE_MAX_ARGS); [|by eauto].
        specialize (IH (pre ++ [c]) (argc + 1) false
                       (<[Z.to_nat argc := length pre]> av) n Hn').
        rewrite Hlen in IH.
        rewrite (Hshift c (rest ++ NUL :: junk)), (Hshift c (zap d rest ++ NUL :: junk)).
        exact IH.
      * specialize (IH (pre ++ [c]) argc false av n Hn').
        rewrite Hlen in IH.
        rewrite (Hshift c (rest ++ NUL :: junk)), (Hshift c (zap d rest ++ NUL :: junk)).
        exact IH.
Qed.

Lemma split_on_cons (d c : Z) (line : list Z) :
  split_on d (c :: line) =
    if c =? d then [] :: split_on d line
    else (c :: hd [] (split_on d line)) :: tl (split_on d line).
Proof.
  simpl. destruct (c =? d); [reflexivity|].
  destruct (split_on d line) as [|t ts] eqn:E; [|reflexivity].
  destruct line as [|c' line]; simpl in E; [discriminate|].
  destruct (c' =? d); [discriminate|].
  destruct (split_on d line); discriminate.
Qed.

Lemma split_on_hd_tl (d : Z) (line : list Z) :
  split_on d line = hd [] (split_on d line) :: tl (split_on d line).
Proof.
  destruct line as [|c line]; [reflexivity|].
  rewrite split_on_cons. destruct (c =? d); reflexivity.
Qed.

(** The string in front of the first NUL of the cut line is the first field. *)
Lemma cstring_zap (d : Z) (junk rest : list Z) :
  nul_free rest ->
  cstring (zap d rest ++ NUL :: junk) = hd [] (split_on d rest).
Proof.
  induction 1 as [|c rest Hc _ IH]; [reflexivity|].
  rewrite zap_cons, split_on_cons, <- app_comm_cons.
  destruct (c =? d); [reflexivity|].
  cbn [cstring hd]. destruct (Z.eqb_spec c NUL); [contradiction|].
  by rewrite IH.
Qed.

(** The strings at the argument starts are the non-empty fields: all of them
    when the loop is looking for an argument, all but the one it is inside
    otherwise. *)
Lemma starts_strings (d : Z) (junk rest : list Z) :
  nul_free rest ->
  forall (pre : list Z) (bFindArg : bool),
    map (cstring_at (pre ++ zap d rest ++ NUL :: junk))
        (starts d bFindArg (length pre) rest)
    = List.filter nonempty
        (if bFindArg then split_on d rest else tl (split_on d rest)).
Proof.
  induction 1 as [|c rest Hc Hrest IH]; intros pre bFindArg.
  - destruct bFindArg; reflexivity.
  - assert (Hlen : forall x : Z, length (pre ++ [x]) = S (length pre))
      by (intros; rewrite length_app; simpl; lia).
    assert (Hshift : forall x l, pre ++ x :: l = (pre ++ [x]) ++ l)
      by (intros; by rewrite <- app_assoc).
    cbn [starts]. rewrite zap_cons, split_on_cons, <- app_comm_cons.
    destruct (c =? d).
    + rewrite (Hshift NUL), <- (Hlen NUL), IH.
      destruct bFindArg; reflexivity.
    + destruct bFindArg.
      * cbn [map List.filter nonempty tl]. f_equal.
        -- rewrite cstring_at_app. cbn [cstring].
           destruct (Z.eqb_spec c NUL); [contradiction|].
           by rewrite cstring_zap.
        -- by rewrite (Hshift c), <- (Hlen c), IH.
      * cbn [tl]. by rewrite (Hshift c), <- (Hlen c), IH.
Qed.

Lemma starts_count (d : Z) (rest : list Z) (bFindArg : bool) (p : nat) :
  length (starts d bFindArg p rest)
  = length (List.filter nonempty
              (if bFindArg then split_on d rest else tl (split_on d rest))).
Proof.
  revert bFindArg p. induction rest as [|c rest IH]; intros bFindArg p.
  - destruct bFindArg; reflexivity.
  - cbn [starts]. rewrite split_on_cons. destruct (c =? d).
    + rewrite IH. destruct bFindArg; reflexivity.
    + destruct bFindArg; cbn [length List.filter nonempty tl]; by rewrite IH.
Qed.

Lemma fill_Some (ps : list nat) :
  forall (argc : Z) (av : list nat),
    0 <= argc ->
    argc + Z.of_nat (length ps) <= CMDLINE_MAX_ARGS ->
    (Z.to_nat CMDLINE_MAX_ARGS <= length av)%nat ->
    exists av',
      fill argc av ps = Some (argc + Z.of_nat (length ps), av')
      /\ take (Z.to_nat (argc + Z.of_nat (length ps))) av'
         = take (Z.to_nat argc) av ++ ps
      /\ length av' = length av.
Proof.
  unfold CMDLINE_MAX_ARGS.
  induction ps as [|p ps IH]; intros argc av Hargc Hmax Hav.
  - exists av. simpl. rewrite Z.add_0_r, app_nil_r. auto.
  - cbn [fill length] in *. unfold CMDLINE_MAX_ARGS.
    destruct (Z.ltb_spec argc 10); [|lia].
    destruct (IH (argc + 1) (<[Z.to_nat argc := p]> av)) as (av' & Hf & Ht & Hl);
      [lia|lia|rewrite length_insert; lia|].
    exists av'. rewrite length_insert in Hl.
    replace (argc + Z.of_nat (S (length ps))) with (argc + 1 + Z.of_nat (length ps)) by lia.
    split; [exact Hf|]. split; [|exact Hl].
    rewrite Ht. replace (Z.to_nat (argc + 1)) with (S (Z.to_nat argc)) by lia.
    rewrite (take_S_r _ _ p) by (apply list_lookup_insert_eq; lia).
    rewrite take_insert_ge by lia. by rewrite <- app_assoc.
Qed.

Lemma fill_None (ps : list nat) :
  forall (argc : Z) (av : list nat),
    CMDLINE_MAX_ARGS < argc + Z.of_nat (length ps) ->
    argc <= CMDLINE_MAX_ARGS ->
    fill argc av ps = None.
Proof.
  unfold CMDLINE_MAX_ARGS.
  induction ps as [|p ps IH]; intros argc av Hmax Hargc.
  - simpl in Hmax. lia.
  - cbn [fill length] in *. unfold CMDLINE_MAX_ARGS.
    destruct (Z.ltb_spec argc 10); [|reflexivity].
    apply IH; lia.
Qed.

Lemma tok_loop_lengths (d : Z) (n : nat) :
  forall (buf : list Z) (p : nat) (argc : Z) (bFindArg : bool) (av : list nat),
    match tok_loop d n buf p argc bFindArg av with
    | TooManyArgs buf' av' | EndOfLine buf' _ av' =>
        length buf' = length buf /\ length av' = length av
    end.
Proof.
  induction n as [|n IH]; intros buf p argc bFindArg av; [by simpl|].
  simpl. destruct (default NUL (buf !! p) =? NUL); [by auto|].
  destruct (default NUL (buf !! p) =? d).
  - specialize (IH (<[p := NUL]> buf) (S p) argc true av).
    destruct tok_loop; by rewrite length_insert in IH.
  - destruct bFindArg; [|apply IH].
    destruct (argc <? CMDLINE_MAX_ARGS); [|by auto].
    specialize (IH buf (S p) (argc + 1) false (<[Z.to_nat argc := p]> av)).
    destruct tok_loop; by rewrite length_insert in IH.
Qed.

Lemma CmdLineProcess_settings (tbl : list tCmdLineEntry) (st : CommandLine) :
  same_settings st (snd (fst (CmdLineProcess tbl st))).
Proof.
  unfold CmdLineProcess.
  pose proof (tok_loop_lengths (delimiter st) (length (g_cCmdBuf st))
                (g_cCmdBuf st) 0 0 true (argv st)) as Hl.
  destruct tok_loop as [buf av|buf argc av].
  - unfold same_settings. simpl. tauto.
  - destruct dispatch as [status tr]. unfold same_settings. simpl. tauto.
Qed.

Lemma cstring_app_nul (l junk : list Z) : cstring (l ++ NUL :: junk) = cstring l.
Proof.
  induction l as [|c l IH]; [reflexivity|].
  simpl. destruct (c =? NUL); [reflexivity|]. by rewrite IH.
Qed.

Lemma cstring_decompose (l junk : list Z) :
  exists junk', l ++ NUL :: junk = cstring l ++ NUL :: junk'.
Proof.
  induction l as [|c l [junk' IH]]; [by exists junk|].
  simpl. destruct (Z.eqb_spec c NUL) as [->|_].
  - by exists (l ++ NUL :: junk).
  - exists junk'. by rewrite IH.
Qed.

Lemma cstring_idem (s : list Z) : nul_free s -> cstring s = s.
Proof.
  intros H. rewrite <- (app_nil_r s) at 1.
  induction H as [|c s Hc _ IH]; [reflexivity|].
  simpl. destruct (Z.eqb_spec c NUL); [contradiction|]. by rewrite IH.
Qed.

Section Line_processing.

Variable g_sCmdTable : list tCmdLineEntry.

(** The loop on a buffer that holds [line]: either every token of the split
    is found, or there are more than [CMDLINE_MAX_ARGS] of them. *)
Lemma tokenize_line (d : Z) (line junk : list Z) (av : list nat) :
  nul_free line ->
  (Z.to_nat CMDLINE_MAX_ARGS <= length av)%nat ->
  let buf := line ++ NUL :: junk in
  let toks := split_collapse d line in
  if CMDLINE_MAX_ARGS <? Z.of_nat (length toks) then
    exists buf' av', tok_loop d (length buf) buf 0 0 true av = TooManyArgs buf' av'
  else
    exists av',
      tok_loop d (length buf) buf 0 0 true av
      = EndOfLine (zap d line ++ NUL :: junk) (Z.of_nat (length toks)) av'
      /\ arg_strings (zap d line ++ NUL :: junk) (Z.of_nat (length toks)) av' = toks
      /\ length av' = length av.
Proof.
  intros Hline Hav buf toks.
  assert (Hn : (length line < length buf)%nat)
    by (unfold buf; rewrite length_app; simpl; lia).
  pose proof (tok_loop_run d junk line Hline [] 0 true av (length buf) Hn) as Hrun.
  pose proof (starts_strings d junk line Hline [] true) as Hstr.
  assert (Hcnt : length toks = length (starts d true 0 line))
    by (symmetry; apply starts_count).
  cbn [length app] in Hrun, Hstr. fold (split_collapse d line) in Hstr.
  fold toks in Hstr. fold buf in Hrun.
  rewrite Hcnt.
  destruct (Z.ltb_spec CMDLINE_MAX_ARGS (Z.of_nat (length (starts d true 0 line))))
    as [Hmany|Hfew].
  - rewrite fill_None in Hrun; [exact Hrun|lia|unfold CMDLINE_MAX_ARGS; lia].
  - destruct (fill_Some (starts d true 0 line) 0 av) as (av' & Hf & Ht & Hl);
      [lia|lia|exact Hav|].
    rewrite Hf in Hrun. rewrite Z.add_0_l in *.
    exists av'. split; [exact Hrun|]. split; [|exact Hl].
    unfold arg_strings. rewrite Ht. exact Hstr.
Qed.

(** [CmdLineProcess] on an object whose buffer holds [line]. *)
Lemma CmdLineProcess_line (st : CommandLine) (line junk : list Z) :
  g_cCmdBuf st = line ++ NUL :: junk ->
  nul_free line ->
  (Z.to_nat CMDLINE_MAX_ARGS <= length (argv st))%nat ->
  let toks := split_collapse (delimiter st) line in
  let '(status, st', tr) := CmdLineProcess g_sCmdTable st in
  (status, tr) = process_line g_sCmdTable (defaultFunc st) (delimiter st) line
  /\ (Z.of_nat (length toks) <= CMDLINE_MAX_ARGS ->
      arg_strings (g_cCmdBuf st') (Z.of_nat (length toks)) (argv st') = toks).
Proof.
  intros Hbuf Hline Hav toks.
  pose proof (tokenize_line (delimiter st) line junk (argv st) Hline Hav) as Htok.
  cbv zeta in Htok. fold toks in Htok.
  unfold CmdLineProcess, process_line. fold toks. rewrite Hbuf.
  destruct (Z.ltb_spec CMDLINE_MAX_ARGS (Z.of_nat (length toks))) as [Hmany|Hfew].
  - destruct Htok as (buf' & av' & ->). split; [reflexivity|lia].
  - destruct Htok as (av' & -> & Hargs & Hl). rewrite Hargs.
    destruct (dispatch g_sCmdTable (defaultFunc st) (Z.of_nat (length toks)) toks)
      as [status tr].
    split; [reflexivity|by intros _].
Qed.

End Line_processing.

(** ** The line assembler *)

Lemma store_char_spec (st : CommandLine) (c : Z) :
  0 <= index st < Z.of_nat (length (g_cCmdBuf st)) ->
  index st < 255 ->
  index (store_char st c) = index st + 1
  /\ pending (store_char st c) = pending st ++ [c]
  /\ length (g_cCmdBuf (store_char st c)) = length (g_cCmdBuf st).
Proof.
  intros Hi H255. unfold pending, store_char, wrap8. cbn.
  rewrite Z.mod_small by lia. split; [reflexivity|].
  rewrite length_insert. split; [|reflexivity].
  replace (Z.to_nat (index st + 1)) with (S (Z.to_nat (index st))) by lia.
  rewrite (take_S_r _ _ c) by (apply list_lookup_insert_eq; lia).
  by rewrite take_insert_ge.
Qed.

Lemma store_char_settings (st : CommandLine) (c : Z) :
  echoEnable (store_char st c) = echoEnable st
  /\ crLfechoEnable (store_char st c) = crLfechoEnable st
  /\ crLfcmdEnable (store_char st c) = crLfcmdEnable st
  /\ delimiter (store_char st c) = delimiter st
  /\ terminators (store_char st c) = terminators st
  /\ defaultFunc (store_char st c) = defaultFunc st
  /\ errorFunc (store_char st c) = errorFunc st
  /\ argv (store_char st c) = argv st.
Proof. repeat split. Qed.

Lemma stores_spec (chars : list Z) :
  forall st : CommandLine,
    0 <= index st ->
    index st + Z.of_nat (length chars) <= Z.of_nat (length (g_cCmdBuf st)) ->
    Z.of_nat (length (g_cCmdBuf st)) <= 255 ->
    index (stores st chars) = index st + Z.of_nat (length chars)
    /\ pending (stores st chars) = pending st ++ chars
    /\ length (g_cCmdBuf (stores st chars)) = length (g_cCmdBuf st).
Proof.
  induction chars as [|c chars IH]; intros st H0 Hfit Hcap.
  - simpl. rewrite Z.add_0_r, app_nil_r. auto.
  - cbn [length] in Hfit.
    destruct (store_char_spec st c) as (Hi & Hp & Hl); [lia|lia|].
    destruct (IH (store_char st c)) as (Hi' & Hp' & Hl'); [lia|lia|lia|].
    change (stores st (c :: chars)) with (stores (store_char st c) chars).
    rewrite Hi', Hp', Hl', Hi, Hp, Hl, <- app_assoc. cbn [length].
    split; [lia|]. split; reflexivity.
Qed.

Lemma stores_settings (chars : list Z) :
  forall st : CommandLine,
    echoEnable (stores st chars) = echoEnable st
    /\ crLfechoEnable (stores st chars) = crLfechoEnable st
    /\ crLfcmdEnable (stores st chars) = crLfcmdEnable st
    /\ delimiter (stores st chars) = delimiter st
    /\ terminators (stores st chars) = terminators st
    /\ defaultFunc (stores st chars) = defaultFunc st
    /\ errorFunc (stores st chars) = errorFunc st
    /\ argv (stores st chars) = argv st.
Proof.
  induction chars as [|c chars IH]; intros st; [repeat split|].
  change (stores st (c :: chars)) with (stores (store_char st c) chars).
  destruct (IH (store_char st c)) as (-> & -> & -> & -> & -> & -> & -> & ->).
  repeat split.
Qed.

Lemma wf_default : wf default_CommandLine.
Proof. unfold wf. vm_compute. repeat split; try discriminate; lia. Qed.

Lemma wf_holding (line : list Z) :
  Z.of_nat (length line) <= CMD_BUF_SIZE - 2 ->
  wf (holding default_CommandLine line).
Proof.
  unfold wf, holding, CMD_BUF_SIZE. cbn. intros H.
  rewrite length_app, !length_replicate. repeat split; lia.
Qed.

Section Assembler.

Variable g_sCmdTable : list tCmdLineEntry.

(** One turn of the loop on a byte that is a backspace and no terminator. *)
Lemma scan_backspace (n : nat) (st : CommandLine) (ch b : Z) (rx : list Z)
    (tr : list event) :
  Z.land b 127 = CHAR_BS ->
  terminator st 0 <> CHAR_BS -> terminator st 1 <> CHAR_BS ->
  scan (S n) st ch (b :: rx) tr
  = scan n (backspace st) CHAR_BS rx (tr ++ echo st CHAR_BS).
Proof.
  intros Hb H0 H1. cbn [scan]. rewrite Hb.
  destruct (Z.eqb_spec CHAR_BS (terminator st 0)); [congruence|].
  destruct (Z.eqb_spec CHAR_BS (terminator st 1)); [congruence|].
  reflexivity.
Qed.

(** One turn of the loop on a byte that is a terminator. *)
Lemma scan_terminator (n : nat) (st : CommandLine) (ch b : Z) (rx : list Z)
    (tr : list event) :
  Z.land b 127 = terminator st 0 \/ Z.land b 127 = terminator st 1 ->
  scan (S n) st ch (b :: rx) tr
  = LoopEnd (if negb (is_crlf (Z.land b 127))
             then store_char st (Z.land b 127) else st)
            (Z.land b 127) rx (tr ++ echo st (Z.land b 127)).
Proof.
  intros Hb. cbn [scan].
  destruct (Z.eqb_spec (Z.land b 127) (terminator st 0)); [reflexivity|].
  destruct (Z.eqb_spec (Z.land b 127) (terminator st 1)); [reflexivity|].
  tauto.
Qed.

Lemma ordinary_store_char (st : CommandLine) (c b : Z) :
  ordinary (store_char st c) b = ordinary st b.
Proof. reflexivity. Qed.

(** A run of ordinary bytes is appended to the buffer, byte by byte. *)
Lemma scan_ordinary (body : list Z) :
  forall (n : nat) (st : CommandLine) (ch : Z) (rx : list Z) (tr : list event),
    forallb (ordinary st) body = true ->
    scan (length body + n) st ch (body ++ rx) tr
    = scan n (stores st (map (fun b => Z.land b 127) body))
           (default NUL (last (ch :: map (fun b => Z.land b 127) body))) rx
           (tr ++ flat_map (fun b => echo st (Z.land b 127)) body).
Proof.
  induction body as [|b body IH]; intros n st ch rx tr Hord.
  - simpl. by rewrite app_nil_r.
  - cbn [forallb] in Hord. apply andb_prop in Hord as [Hb Hord].
    cbn [length Nat.add app scan map flat_map].
    unfold ordinary in Hb.
    destruct ((Z.land b 127 =? terminator st 0) || (Z.land b 127 =? terminator st 1));
      [discriminate|].
    destruct (Z.land b 127 =? CHAR_BS); [discriminate|].
    destruct (Z.land b 127 =? LF); [discriminate|].
    rewrite IH by exact Hord.
    rewrite <- app_assoc. reflexivity.
Qed.

(** The code after the loop: the line is the string in front of the cursor. *)
Lemma finish_line_spec (st : CommandLine) (ch : Z) (rx : list Z) (tr : list event) :
  0 <= index st < CMD_BUF_SIZE ->
  Z.of_nat (length (g_cCmdBuf st)) = CMD_BUF_SIZE ->
  (Z.to_nat CMDLINE_MAX_ARGS <= length (argv st))%nat ->
  let line := cstring (pending st) in
  let toks := split_collapse (delimiter st) line in
  let r := finish_line g_sCmdTable st ch rx tr in
  ret r = 1 /\ unread r = rx /\ index (obj r) = 0 /\ wf (obj r)
  /\ trace r = tr ++ line_events g_sCmdTable st ch line
  /\ (Z.of_nat (length toks) <= CMDLINE_MAX_ARGS ->
      arg_strings (g_cCmdBuf (obj r)) (Z.of_nat (length toks)) (argv (obj r)) = toks).
Proof.
  intros Hi Hlen Hav line toks.
  unfold finish_line, terminate_line.
  set (st1 := with_buf st (<[Z.to_nat (index st) := NUL]> (g_cCmdBuf st))).
  assert (Hbuf1 : exists junk, g_cCmdBuf st1 = line ++ NUL :: junk).
  { unfold st1, line, pending. cbn.
    rewrite insert_take_drop by (unfold CMD_BUF_SIZE in *; lia).
    apply cstring_decompose. }
  destruct Hbuf1 as [junk Hbuf1].
  assert (Hnf : nul_free line) by apply cstring_is_nul_free.
  assert (Hstrlen : strlen (g_cCmdBuf st1) = Z.of_nat (length line)).
  { unfold strlen. by rewrite Hbuf1, cstring_nul_free. }
  rewrite Hstrlen.
  assert (Hwf0 : forall st' : CommandLine,
             same_settings st1 st' -> wf (with_index st' 0)).
  { intros st' (_ & _ & _ & _ & _ & _ & _ & _ & Hb & Ha).
    unfold wf, CMD_BUF_SIZE. cbn. rewrite Hb, Ha. unfold st1. cbn.
    rewrite length_insert. unfold CMD_BUF_SIZE in Hlen. lia. }
  destruct line as [|c line'] eqn:Eline.
  - cbn. rewrite app_nil_r. repeat split; try reflexivity.
    + apply (Hwf0 st1). unfold same_settings. tauto.
    + apply (Hwf0 st1). unfold same_settings. tauto.
    + apply (Hwf0 st1). unfold same_settings. tauto.
  - replace (Z.of_nat (length (c :: line')) >? 0) with true
      by (symmetry; apply Z.gtb_lt; cbn [length]; lia).
    pose proof (CmdLineProcess_line g_sCmdTable st1 (c :: line') junk Hbuf1 Hnf Hav)
      as Hproc.
    pose proof (CmdLineProcess_settings g_sCmdTable st1) as Hset.
    cbv zeta in Hproc.
    destruct (CmdLineProcess g_sCmdTable st1) as [[nStatus st2] tr2].
    destruct Hproc as [Hpl Hargs]. cbn [fst snd] in Hset.
    cbn [line_events]. change (defaultFunc st1) with (defaultFunc st) in Hpl.
    change (delimiter st1) with (delimiter st) in Hpl, Hargs.
    rewrite <- Hpl. cbn [ret unread trace obj].
    assert (He : errorFunc st2 = errorFunc st) by apply Hset.
    rewrite He. change (crLfcmdEnable st1) with (crLfcmdEnable st).
    rewrite <- !app_assoc.
    split; [reflexivity|]. split; [reflexivity|]. split; [reflexivity|].
    split; [by apply Hwf0|]. split; [reflexivity|].
    exact Hargs.
Qed.

End Assembler.

(** ** The table search *)

Lemma tolower_nul (c : Z) : tolower c = 0 <-> c = 0.
Proof. unfold tolower. destruct (Z.leb_spec 65 c); simpl; [destruct (Z.leb_spec c 90)|]; lia. Qed.

Lemma strcasecmp_same_folded (s1 s2 : list Z) :
  nul_free s1 -> nul_free s2 ->
  strcasecmp s1 s2 = 0 <-> same_folded s1 s2.
Proof.
  unfold same_folded. intros H1. revert s2.
  induction H1 as [|c1 s1 Hc1 _ IH]; intros s2 H2.
  - destruct H2 as [|c2 s2 Hc2 _]; simpl; [tauto|].
    pose proof (tolower_nul c2). unfold NUL in *. split; [lia|discriminate].
  - destruct H2 as [|c2 s2 Hc2 H2]; simpl.
    + pose proof (tolower_nul c1). unfold NUL in *. split; [lia|discriminate].
    + destruct (Z.eqb_spec (tolower c1) (tolower c2)) as [->|Hne].
      * rewrite IH by assumption. split; [congruence|].
        intros [=]. assumption.
      * split; [lia|]. intros [=]. contradiction.
Qed.

Lemma handler_calls_reads (i n : nat) : handler_calls (map TableRead (seq i n)) = [].
Proof. revert i. induction n as [|n IH]; intros i; simpl; auto. Qed.

Lemma handler_calls_app (tr1 tr2 : list event) :
  handler_calls (tr1 ++ tr2) = handler_calls tr1 ++ handler_calls tr2.
Proof. apply List.filter_app. Qed.

Lemma table_search_none (argc : Z) (args : list (list Z)) (arg0 : list Z) :
  args !! 0%nat = Some arg0 -> nul_free arg0 ->
  forall (tbl : list tCmdLineEntry) (i : nat),
    Forall (fun name => ~ same_folded arg0 name) (names tbl) ->
    table_search tbl i argc args = (None, map TableRead (seq i (scanned tbl))).
Proof.
  intros Harg Hnf. induction tbl as [|e tbl IH]; intros i Hno; [reflexivity|].
  simpl in *. rewrite Harg. cbn [from_option id].
  destruct (pcCmd e) as [name|]; [|reflexivity].
  inversion Hno as [|? ? Hname Hrest]; subst.
  destruct (Z.eqb_spec (strcasecmp arg0 (cstring name)) 0) as [Heq|_].
  - apply strcasecmp_same_folded in Heq; auto using cstring_is_nul_free.
    contradiction.
  - rewrite (IH (S i) Hrest). reflexivity.
Qed.

Lemma table_search_first (argc : Z) (args : list (list Z)) (arg0 : list Z) :
  args !! 0%nat = Some arg0 -> nul_free arg0 ->
  forall (k : nat) (tbl : list tCmdLineEntry) (i : nat) (e : tCmdLineEntry)
         (name : list Z),
    names tbl !! k = Some name ->
    tbl !! k = Some e ->
    same_folded arg0 name ->
    (forall j name', (j < k)%nat -> names tbl !! j = Some name' ->
                     ~ same_folded arg0 name') ->
    table_search tbl i argc args
    = (Some (pfnCmd e argc args),
       map TableRead (seq i (S k)) ++ [Invoke (i + k) argc args]).
Proof.
  intros Harg Hnf. induction k as [|k IH]; intros tbl i e name Hname He Hsame Hbefore.
  - destruct tbl as [|e0 tbl]; [discriminate|]. simpl in *.
    injection He as ->. rewrite Harg. cbn [from_option id].
    destruct (pcCmd e) as [nm|]; [|discriminate]. simpl in Hname.
    injection Hname as <-.
    apply strcasecmp_same_folded in Hsame; auto using cstring_is_nul_free.
    rewrite Hsame. simpl. by rewrite Nat.add_0_r.
  - destruct tbl as [|e0 tbl]; [discriminate|]. cbn [table_search].
    rewrite Harg. cbn [from_option id]. simpl in He. cbn [names] in Hname, Hbefore.
    destruct (pcCmd e0) as [nm|]; [|discriminate]. simpl in Hname.
    destruct (Z.eqb_spec (strcasecmp arg0 (cstring nm)) 0) as [Heq|_].
    + apply strcasecmp_same_folded in Heq; auto using cstring_is_nul_free.
      exfalso. apply (Hbefore 0%nat (cstring nm)); [lia|reflexivity|exact Heq].
    + rewrite (IH tbl (S i) e name Hname He Hsame).
      * replace (S i + k)%nat with (i + S k)%nat by lia. reflexivity.
      * intros j name' Hj Hn. apply (Hbefore (S j) name'); [lia|exact Hn].
Qed.

(** ** Dispatch *)

Section Dispatch_properties.

Variable g_sCmdTable : list tCmdLineEntry.

Lemma arg_strings_nul_free (buf : list Z) (argc : Z) (av : list nat) (i : nat)
    (arg : list Z) :
  arg_strings buf argc av !! i = Some arg -> nul_free arg.
Proof.
  unfold arg_strings. rewrite list_lookup_fmap.
  destruct (take (Z.to_nat argc) av !! i); [|discriminate].
  intros [= <-]. apply cstring_is_nul_free.
Qed.

Lemma arg_strings_argc (buf : list Z) (argc : Z) (av : list nat) (arg : list Z) :
  arg_strings buf argc av !! 0%nat = Some arg -> (argc =? 0) = false.
Proof.
  unfold arg_strings. intros H. apply Z.eqb_neq. intros ->.
  simpl in H. discriminate.
Qed.

(** C2.  On a line that the tokenizing loop has cut into [argc] tokens, not
    none, with first token [arg0]: when entry [k] is the first of the table,
    in front of the null entry, whose name equals [arg0] up to ASCII case,
    [CmdLineProcess] reads the entries 0 to [k] in order, calls the handler of
    entry [k] with [(argc, argv)] and returns what the handler returns; no
    entry behind [k] is read, whatever its name. *)
Theorem dispatch_first_match (st : CommandLine) (buf : list Z) (argc : Z)
    (av : list nat) (arg0 : list Z) (k : nat) (e : tCmdLineEntry) (name : list Z) :
  tok_loop (delimiter st) (length (g_cCmdBuf st)) (g_cCmdBuf st) 0 0 true (argv st)
    = EndOfLine buf argc av ->
  arg_strings buf argc av !! 0%nat = Some arg0 ->
  g_sCmdTable !! k = Some e ->
  names g_sCmdTable !! k = Some name ->
  same_folded arg0 name ->
  (forall j name', (j < k)%nat -> names g_sCmdTable !! j = Some name' ->
                   ~ same_folded arg0 name') ->
  CmdLineProcess g_sCmdTable st
  = (pfnCmd e argc (arg_strings buf argc av),
     with_argv (with_buf st buf) av,
     map TableRead (seq 0 (S k)) ++ [Invoke k argc (arg_strings buf argc av)]).
Proof.
  intros Htok Harg He Hname Hsame Hbefore.
  unfold CmdLineProcess, dispatch. rewrite Htok.
  rewrite (arg_strings_argc _ _ _ _ Harg).
  rewrite (table_search_first argc _ arg0 Harg (arg_strings_nul_free _ _ _ _ _ Harg)
             k g_sCmdTable 0%nat e name Hname He Hsame Hbefore).
  reflexivity.
Qed.

(** C3.  A line that splits into more than [CMDLINE_MAX_ARGS] tokens makes
    [CmdLineProcess] return [CMDLINE_TOO_MANY_ARGS] without reading the table
    and without calling any handler. *)
Theorem too_many_arguments (st : CommandLine) (line junk : list Z) :
  g_cCmdBuf st = line ++ NUL :: junk ->
  nul_free line ->
  CMDLINE_MAX_ARGS < Z.of_nat (length (split_collapse (delimiter st) line)) ->
  fst (fst (CmdLineProcess g_sCmdTable st)) = CMDLINE_TOO_MANY_ARGS
  /\ snd (CmdLineProcess g_sCmdTable st) = [].
Proof.
  intros Hbuf Hline Hmany. unfold CmdLineProcess. rewrite Hbuf.
  assert (Hn : (length line < length (line ++ NUL :: junk))%nat)
    by (rewrite length_app; simpl; lia).
  pose proof (tok_loop_run (delimiter st) junk line Hline [] 0 true (argv st) _ Hn)
    as Hrun.
  cbn [length app] in Hrun.
  rewrite fill_None in Hrun.
  - destruct Hrun as (buf' & av' & ->). split; reflexivity.
  - rewrite starts_count. exact Hmany.
  - unfold CMDLINE_MAX_ARGS. lia.
Qed.

(** C4, amended.  On a line of at most [CMDLINE_MAX_ARGS] tokens whose first
    token equals no name of the table up to ASCII case: without a default
    handler [CmdLineProcess] returns [CMDLINE_BAD_CMD] and calls no handler;
    with one it returns what the default handler returns, and the default
    handler is the only handler called, with the token count and all the
    tokens, the first one included. *)
Theorem unknown_command (st : CommandLine) (line junk : list Z) (arg0 : list Z) :
  g_cCmdBuf st = line ++ NUL :: junk ->
  nul_free line ->
  (Z.to_nat CMDLINE_MAX_ARGS <= length (argv st))%nat ->
  split_collapse (delimiter st) line !! 0%nat = Some arg0 ->
  Forall (fun name => ~ same_folded arg0 name) (names g_sCmdTable) ->
  Z.of_nat (length (split_collapse (delimiter st) line)) <= CMDLINE_MAX_ARGS ->
  falls_to_default g_sCmdTable st line.
Proof.
  intros Hbuf Hline Hav Harg Hno Hfew. unfold falls_to_default.
  pose proof (CmdLineProcess_line g_sCmdTable st line junk Hbuf Hline Hav) as Hproc.
  cbv zeta in Hproc.
  destruct (CmdLineProcess g_sCmdTable st) as [[status st'] tr].
  destruct Hproc as [Hpl _]. unfold process_line in Hpl.
  destruct (Z.ltb_spec CMDLINE_MAX_ARGS
              (Z.of_nat (length (split_collapse (delimiter st) line)))); [lia|].
  unfold dispatch in Hpl.
  assert (Hnf : nul_free arg0).
  { unfold split_collapse in Harg.
    assert (Hin : In arg0 (List.filter nonempty (split_on (delimiter st) line)))
      by (apply list_elem_of_In; eapply list_elem_of_lookup_2; exact Harg).
    apply List.filter_In in Hin as [Hin _]. clear - Hin Hline.
    revert arg0 Hin. induction Hline as [|c line Hc _ IH]; intros arg0 Hin.
    - destruct Hin as [<-|[]]. constructor.
    - rewrite split_on_cons in Hin. rewrite (split_on_hd_tl _ line) in IH.
      destruct (c =? delimiter st).
      + destruct Hin as [<-|Hin]; [constructor|].
        rewrite split_on_hd_tl in Hin. auto.
      + destruct Hin as [<-|Hin].
        * constructor; [exact Hc|]. apply IH. by left.
        * apply IH. by right. }
  destruct (Z.eqb_spec (Z.of_nat (length (split_collapse (delimiter st) line))) 0)
    as [Hz|_].
  { destruct (split_collapse (delimiter st) line); [discriminate|simpl in Hz; lia]. }
  rewrite (table_search_none _ _ arg0 Harg Hnf g_sCmdTable 0%nat Hno) in Hpl.
  destruct (defaultFunc st) as [f|]; injection Hpl as -> ->.
  - split; [reflexivity|].
    by rewrite handler_calls_app, handler_calls_reads.
  - split; [reflexivity|]. apply handler_calls_reads.
Qed.

End Dispatch_properties.

Lemma nul_free_forallb (s : list Z) :
  forallb (fun c => negb (c =? NUL)) s = true -> nul_free s.
Proof.
  induction s as [|c s IH]; simpl; intros H; constructor.
  - destruct (Z.eqb_spec c NUL); [discriminate|assumption].
  - apply IH. destruct (c =? NUL); [discriminate|assumption].
Qed.

(** The line [List x] against a table that has LIST in front of list: the
    first of the two is called, with both tokens. *)
Lemma dispatch_first_match_witness :
  let r := CmdLineProcess demo_table (holding default_CommandLine (cstr "List x")) in
  fst (fst r) = 7
  /\ snd r = [TableRead 0; TableRead 1; Invoke 1 2 [cstr "List"; cstr "x"]].
Proof.
  cbv zeta.
  set (st := holding default_CommandLine (cstr "List x")).
  eassert (Htok : tok_loop (delimiter st) (length (g_cCmdBuf st)) (g_cCmdBuf st)
                    0 0 true (argv st) = EndOfLine _ _ _)
    by (vm_compute; reflexivity).
  rewrite (dispatch_first_match demo_table st _ _ _ (cstr "List") 1%nat
             {| pcCmd := Some (cstr "LIST"); pfnCmd := answer 7; pcHelp := [] |}
             (cstr "LIST") Htok).
  - split; reflexivity.
  - reflexivity.
  - reflexivity.
  - reflexivity.
  - reflexivity.
  - intros j name' Hj Hn. destruct j as [|j]; [|lia].
    vm_compute in Hn. injection Hn as <-. vm_compute. discriminate.
Defined.

(** The table entry LIST answers to the tokens [list], [List] and [LIST]. *)
Lemma list_in_any_case :
  Forall (fun line =>
            fst (fst (CmdLineProcess demo_table (holding default_CommandLine line))) = 7)
         [cstr "list"; cstr "List"; cstr "LIST"].
Proof. repeat constructor. Qed.

(** Eleven tokens of one character each. *)
Lemma too_many_arguments_witness :
  let r := CmdLineProcess demo_table (holding default_CommandLine eleven_tokens) in
  length (split_collapse 32 eleven_tokens) = 11%nat
  /\ fst (fst r) = CMDLINE_TOO_MANY_ARGS /\ snd r = [].
Proof.
  split; [reflexivity|].
  apply (too_many_arguments demo_table (holding default_CommandLine eleven_tokens)
           eleven_tokens (replicate 58 NUL)).
  - reflexivity.
  - apply nul_free_forallb. reflexivity.
  - vm_compute. reflexivity.
Defined.

(** C4 as stated fails on a line of eleven tokens: its first token [a] is in
    no entry of the table, no default handler is installed, and the status is
    [CMDLINE_TOO_MANY_ARGS], not [CMDLINE_BAD_CMD]. *)
Lemma unknown_command_counterexample :
  let st := holding default_CommandLine eleven_tokens in
  g_cCmdBuf st = eleven_tokens ++ NUL :: replicate 58 NUL
  /\ nul_free eleven_tokens
  /\ split_collapse (delimiter st) eleven_tokens !! 0%nat = Some (cstr "a")
  /\ Forall (fun name => ~ same_folded (cstr "a") name) (names demo_table)
  /\ defaultFunc st = None
  /\ fst (fst (CmdLineProcess demo_table st)) = CMDLINE_TOO_MANY_ARGS
  /\ ~ falls_to_default demo_table st eleven_tokens.
Proof.
  cbv zeta. split; [reflexivity|]. split; [apply nul_free_forallb; reflexivity|].
  split; [reflexivity|]. split.
  { repeat constructor; vm_compute; discriminate. }
  split; [reflexivity|]. split; [reflexivity|].
  unfold falls_to_default. vm_compute. intros [H _]. discriminate.
Qed.

(** An unknown command with two arguments, a default handler installed. *)
Lemma unknown_command_witness :
  let st := SetDefaultHandler (Some (answer 5))
              (holding default_CommandLine (cstr "frob 1 2")) in
  let r := CmdLineProcess demo_table st in
  fst (fst r) = 5
  /\ handler_calls (snd r)
     = [InvokeDefault 3 [cstr "frob"; cstr "1"; cstr "2"]].
Proof.
  cbv zeta.
  pose proof (unknown_command demo_table
                (SetDefaultHandler (Some (answer 5))
                   (holding default_CommandLine (cstr "frob 1 2")))
                (cstr "frob 1 2") (replicate 71 NUL) (cstr "frob")) as H.
  unfold falls_to_default in H.
  destruct (CmdLineProcess demo_table
              (SetDefaultHandler (Some (answer 5))
                 (holding default_CommandLine (cstr "frob 1 2")))) as [[status st'] tr].
  apply H.
  - reflexivity.
  - apply nul_free_forallb. reflexivity.
  - vm_compute. lia.
  - reflexivity.
  - repeat constructor; vm_compute; discriminate.
  - vm_compute. discriminate.
Defined.

(** ** Lines through the assembler *)

Section Line_properties.

Variable g_sCmdTable : list tCmdLineEntry.

Lemma DoCmdLine_scan (st : CommandLine) (rx : list Z) :
  rx <> [] ->
  DoCmdLine g_sCmdTable st rx
  = match scan (Z.to_nat (CMD_BUF_SIZE - 1 - index st)) st NUL rx [] with
    | NoData st' tr => {| ret := 0; obj := st'; unread := []; trace := tr |}
    | LoopEnd st' ch rx' tr => finish_line g_sCmdTable st' ch rx' tr
    end.
Proof. destruct rx; [congruence|reflexivity]. Qed.

(** A run of ordinary bytes that fits, followed by a terminator: the loop
    ends on the terminator with the kept characters in front of the cursor. *)
Lemma scan_line (st : CommandLine) (body : list Z) (t : Z) (rx : list Z) :
  wf st ->
  forallb (ordinary st) body = true ->
  Z.land t 127 = terminator st 0 \/ Z.land t 127 = terminator st 1 ->
  index st + Z.of_nat (length body) + 1 < CMD_BUF_SIZE ->
  exists st',
    scan (Z.to_nat (CMD_BUF_SIZE - 1 - index st)) st NUL (body ++ t :: rx) []
    = LoopEnd st' (Z.land t 127) rx (echoes st (body ++ [t]))
    /\ pending st' = pending st ++ kept body t
    /\ 0 <= index st' < CMD_BUF_SIZE
    /\ length (g_cCmdBuf st') = length (g_cCmdBuf st)
    /\ echoEnable st' = echoEnable st /\ crLfechoEnable st' = crLfechoEnable st
    /\ crLfcmdEnable st' = crLfcmdEnable st /\ delimiter st' = delimiter st
    /\ terminators st' = terminators st /\ defaultFunc st' = defaultFunc st
    /\ errorFunc st' = errorFunc st /\ argv st' = argv st.
Proof.
  unfold wf, CMD_BUF_SIZE. intros (Hi & Hlen & Hav) Hord Hterm Hfit.
  set (chars := map (fun b => Z.land b 127) body).
  set (st1 := stores st chars).
  assert (Hchars : length chars = length body) by apply length_map.
  destruct (stores_spec chars st) as (Hi1 & Hp1 & Hl1); [lia|lia|lia|].
  destruct (stores_settings chars st) as (E1 & E2 & E3 & E4 & E5 & E6 & E7 & E8).
  fold st1 in Hi1, Hp1, Hl1, E1, E2, E3, E4, E5, E6, E7, E8.
  replace (Z.to_nat (80 - 1 - index st))
    with (length body + S (Z.to_nat (78 - index st) - length body))%nat by lia.
  rewrite scan_ordinary by exact Hord. fold chars. fold st1.
  rewrite scan_terminator
    by (unfold terminator in *; rewrite E5; exact Hterm).
  assert (Htr : ([] ++ flat_map (fun b => echo st (Z.land b 127)) body)
                ++ echo st1 (Z.land t 127) = echoes st (body ++ [t])).
  { unfold echoes. rewrite flat_map_app. simpl. rewrite app_nil_r.
    unfold echo. by rewrite E1, E2. }
  rewrite Htr. unfold kept. fold chars.
  destruct (is_crlf (Z.land t 127)); cbn [negb].
  - exists st1. rewrite app_nil_r, Hp1, Hi1, Hl1, Hchars.
    repeat split; try assumption; try lia.
  - destruct (store_char_spec st1 (Z.land t 127)) as (Hi2 & Hp2 & Hl2); [lia|lia|].
    exists (store_char st1 (Z.land t 127)).
    rewrite Hp2, Hi2, Hl2, Hp1, Hi1, Hl1, Hchars, <- app_assoc.
    repeat split; try assumption; try lia.
Qed.

(** The bytes of a line that do not complete it: the call returns 0 and keeps
    them in front of the cursor for the next call. *)
Lemma partial_line (st : CommandLine) (body : list Z) :
  wf st ->
  forallb (ordinary st) body = true ->
  body <> [] ->
  index st + Z.of_nat (length body) < CMD_BUF_SIZE - 1 ->
  let r := DoCmdLine g_sCmdTable st body in
  ret r = 0 /\ unread r = [] /\ trace r = echoes st body
  /\ obj r = stores st (map (fun b => Z.land b 127) body)
  /\ pending (obj r) = pending st ++ map (fun b => Z.land b 127) body
  /\ wf (obj r).
Proof.
  unfold wf, CMD_BUF_SIZE. intros (Hi & Hlen & Hav) Hord Hne Hfit.
  set (chars := map (fun b => Z.land b 127) body).
  assert (Hchars : length chars = length body) by apply length_map.
  destruct (stores_spec chars st) as (Hi1 & Hp1 & Hl1); [lia|lia|lia|].
  destruct (stores_settings chars st) as (_ & _ & _ & _ & _ & _ & _ & E8).
  cbv zeta. rewrite DoCmdLine_scan by exact Hne. unfold CMD_BUF_SIZE.
  replace (Z.to_nat (80 - 1 - index st))
    with (length body + S (Z.to_nat (78 - index st) - length body))%nat by lia.
  pose proof (scan_ordinary body (S (Z.to_nat (78 - index st) - length body))
                st NUL [] [] Hord) as Hscan.
  rewrite app_nil_r in Hscan. rewrite Hscan. fold chars. cbn.
  rewrite Hi1, Hl1, E8, Hchars.
  repeat split; try assumption; try reflexivity; lia.
Qed.

End Line_properties.

(** ** The cursor *)

Lemma backspace_spec (st : CommandLine) :
  0 <= index st <= Z.of_nat (length (g_cCmdBuf st)) ->
  index st <= 255 ->
  pending (backspace st) = removelast (pending st)
  /\ index (backspace st) = Z.max 0 (index st - 1)
  /\ (index st = 0 -> backspace st = st).
Proof.
  intros Hi H255. unfold backspace, pending.
  destruct (Z.eqb_spec (index st) 0) as [E|E].
  - rewrite E. simpl. repeat split; lia.
  - cbn. unfold wrap8. rewrite Z.mod_small by lia.
    split; [|split; lia].
    replace (Z.to_nat (index st)) with (S (Z.to_nat (index st - 1))) by lia.
    destruct (lookup_lt_is_Some_2 (g_cCmdBuf st) (Z.to_nat (index st - 1)))
      as [x Hx]; [lia|].
    rewrite (take_S_r _ _ x Hx). by rewrite List.removelast_last.
Qed.

Lemma scan_bounds (n : nat) :
  forall (st : CommandLine) (ch : Z) (rx : list Z) (tr : list event),
    0 <= index st ->
    index st + Z.of_nat n <= CMD_BUF_SIZE - 1 ->
    Z.of_nat (length (g_cCmdBuf st)) = CMD_BUF_SIZE ->
    match scan n st ch rx tr with
    | NoData st' _ =>
        0 <= index st' <= CMD_BUF_SIZE - 2
        /\ length (g_cCmdBuf st') = length (g_cCmdBuf st) /\ argv st' = argv st
    | LoopEnd st' _ _ _ =>
        0 <= index st' <= CMD_BUF_SIZE - 1
        /\ length (g_cCmdBuf st') = length (g_cCmdBuf st) /\ argv st' = argv st
    end.
Proof.
  unfold CMD_BUF_SIZE.
  induction n as [|n IH]; intros st ch rx tr H0 Hn Hlen;
    [simpl; repeat split; try reflexivity; lia|].
  cbn [scan]. destruct rx as [|b rx]; [repeat split; try reflexivity; lia|].
  assert (Hstore : forall c,
             index (store_char st c) = index st + 1
             /\ length (g_cCmdBuf (store_char st c)) = length (g_cCmdBuf st)).
  { intros c. destruct (store_char_spec st c) as (? & _ & ?); [lia|lia|auto]. }
  destruct ((Z.land b 127 =? terminator st 0) || (Z.land b 127 =? terminator st 1)).
  { destruct (negb (is_crlf (Z.land b 127)));
      [|repeat split; try reflexivity; lia].
    destruct (Hstore (Z.land b 127)) as [-> ->].
    repeat split; try reflexivity; lia. }
  destruct (Z.land b 127 =? CHAR_BS).
  { specialize (IH (backspace st) (Z.land b 127) rx (tr ++ echo st (Z.land b 127))).
    destruct (backspace_spec st) as (_ & Hbi & _); [lia|lia|].
    assert (Hbl : length (g_cCmdBuf (backspace st)) = length (g_cCmdBuf st)
                  /\ argv (backspace st) = argv st)
      by (unfold backspace; destruct (index st =? 0); split; reflexivity).
    destruct Hbl as [Hbl Hba]. rewrite Hbi, Hbl, Hba in IH.
    destruct scan; apply IH; lia. }
  destruct (Z.land b 127 =? LF).
  { specialize (IH st (Z.land b 127) rx (tr ++ echo st (Z.land b 127))).
    destruct scan; apply IH; lia. }
  specialize (IH (store_char st (Z.land b 127)) (Z.land b 127) rx
                 (tr ++ echo st (Z.land b 127))).
  destruct (Hstore (Z.land b 127)) as [Ei El]. rewrite Ei, El in IH.
  destruct scan; apply IH; lia.
Qed.

Lemma terminate_line_spec (st : CommandLine) :
  0 <= index st < Z.of_nat (length (g_cCmdBuf st)) ->
  g_cCmdBuf (terminate_line st) !! Z.to_nat (index st) = Some NUL
  /\ strlen (g_cCmdBuf (terminate_line st)) <= index st.
Proof.
  intros Hi. unfold terminate_line, strlen. cbn.
  split; [apply list_lookup_insert_eq; lia|].
  rewrite insert_take_drop by lia. rewrite cstring_app_nul.
  assert (Hle : forall l : list Z, (length (cstring l) <= length l)%nat).
  { induction l as [|c l IH]; simpl; [lia|]. destruct (c =? NUL); simpl; lia. }
  specialize (Hle (take (Z.to_nat (index st)) (g_cCmdBuf st))).
  rewrite length_take in Hle. lia.
Qed.

(** One terminator character configured, through [SetDefaults] or through
    [Terminators]: the second slot holds NUL. *)
Lemma one_terminator_configured (c : Z) (st : CommandLine) :
  c <> NUL ->
  length (terminators st) = S CMDLINE_MAX_TERMINATORS ->
  terminator (Terminators [c] st) 0 = c
  /\ terminator (Terminators [c] st) 1 = NUL
  /\ terminator (SetDefaults true st) 0 = CR
  /\ terminator (SetDefaults true st) 1 = NUL.
Proof.
  intros Hc Hlen. unfold terminator, Terminators, SetDefaults. cbn.
  destruct (Z.eqb_spec c NUL); [contradiction|].
  destruct (terminators st) as [|t0 [|t1 [|t2 [|]]]]; try discriminate.
  repeat split.
Qed.

Section Cursor_properties.

Variable g_sCmdTable : list tCmdLineEntry.

Lemma DoCmdLine_wf (st : CommandLine) (rx : list Z) :
  wf st -> wf (obj (DoCmdLine g_sCmdTable st rx)).
Proof.
  intros Hwf. destruct rx as [|b rx]; [exact Hwf|].
  rewrite DoCmdLine_scan by discriminate.
  destruct Hwf as (Hi & Hlen & Hav). unfold CMD_BUF_SIZE in *.
  pose proof (scan_bounds (Z.to_nat (80 - 1 - index st)) st NUL (b :: rx) []) as Hb.
  unfold CMD_BUF_SIZE in Hb.
  destruct scan as [st' tr|st' ch rx' tr].
  - destruct Hb as (Hi' & Hl' & Ha'); [lia|lia|lia|].
    unfold wf, CMD_BUF_SIZE. cbn. rewrite Hl', Ha'. auto.
  - destruct Hb as (Hi' & Hl' & Ha'); [lia|lia|lia|].
    apply finish_line_spec; unfold CMD_BUF_SIZE; [lia|rewrite Hl'; lia|by rewrite Ha'].
Qed.

Lemma run_wf (polls : list (list Z)) :
  forall (st : CommandLine) (stream : list Z),
    wf st -> wf (run g_sCmdTable st stream polls).
Proof.
  induction polls as [|rx polls IH]; intros st stream Hwf; [exact Hwf|].
  simpl. apply IH, DoCmdLine_wf, Hwf.
Qed.

(** C9, amended.  When the ordinary bytes of one call bring the cursor to
    [CMD_BUF_SIZE - 1] before a terminator is seen, the loop is left and the
    code goes on as for a completed line: the call returns 1, the cursor is
    back at 0, the bytes not yet read stay in the stream, and the assembled
    characters are processed as a command line in that same call. *)
Theorem full_buffer_is_processed (st : CommandLine) (body rx : list Z) :
  wf st ->
  forallb (ordinary st) body = true ->
  index st + Z.of_nat (length body) = CMD_BUF_SIZE - 1 ->
  let r := DoCmdLine g_sCmdTable st (body ++ rx) in
  let chars := map (fun b => Z.land b 127) body in
  ret r = 1 /\ unread r = rx /\ index (obj r) = 0
  /\ trace r
     = echoes st body
       ++ line_events g_sCmdTable st (default NUL (last chars))
                      (cstring (pending st ++ chars)).
Proof.
  intros Hwf Hord Hfull r chars. subst r.
  destruct Hwf as (Hi & Hlen & Hav). unfold CMD_BUF_SIZE in *.
  assert (Hne : body <> []) by (intros ->; simpl in Hfull; lia).
  rewrite DoCmdLine_scan by (destruct body; [congruence|discriminate]).
  unfold CMD_BUF_SIZE.
  replace (Z.to_nat (80 - 1 - index st)) with (length body + 0)%nat by lia.
  rewrite scan_ordinary by exact Hord. fold chars. cbn [scan app].
  assert (Hchars : length chars = length body) by apply length_map.
  destruct (stores_spec chars st) as (Hi1 & Hp1 & Hl1); [lia|lia|lia|].
  destruct (stores_settings chars st) as (E1 & E2 & E3 & E4 & E5 & E6 & E7 & E8).
  destruct (finish_line_spec g_sCmdTable (stores st chars)
              (default NUL (last (NUL :: chars))) rx
              (flat_map (fun b => echo st (Z.land b 127)) body))
    as (Hret & Hun & Hidx & _ & Htr & _);
    [unfold CMD_BUF_SIZE; lia|unfold CMD_BUF_SIZE; lia|by rewrite E8|].
  split; [exact Hret|]. split; [exact Hun|]. split; [exact Hidx|].
  rewrite Htr, Hp1. unfold line_events. rewrite E3, E4, E6, E7.
  assert (Hlast : last (NUL :: chars) = last chars)
    by (destruct chars; [destruct body; [congruence|discriminate]|reflexivity]).
  rewrite Hlast. reflexivity.
Qed.

(** C10.  With NUL in the second terminator slot, a byte that is 0 after
    masking ends the line like any terminator: the call returns 1, the cursor
    is back at 0, and the characters in front of the cursor are processed as
    a command line when there are any.  The last part is the rule for every
    terminator byte, of which the first is the case of NUL. *)
Theorem nul_byte_completes_line (st : CommandLine) (rx : list Z) :
  wf st ->
  terminator st 1 = NUL ->
  (forall b : Z,
      Z.land b 127 = 0 ->
      let r := DoCmdLine g_sCmdTable st (b :: rx) in
      ret r = 1 /\ unread r = rx /\ index (obj r) = 0
      /\ trace r = echo st NUL ++ line_events g_sCmdTable st NUL (cstring (pending st)))
  /\ (forall t : Z,
         Z.land t 127 = terminator st 0 \/ Z.land t 127 = terminator st 1 ->
         let r := DoCmdLine g_sCmdTable st (t :: rx) in
         ret r = 1 /\ unread r = rx /\ index (obj r) = 0
         /\ trace r = echo st (Z.land t 127)
                      ++ line_events g_sCmdTable st (Z.land t 127)
                           (cstring (pending st ++ kept [] t))).
Proof.
  intros Hwf Hslot.
  assert (Hany : forall t : Z,
             Z.land t 127 = terminator st 0 \/ Z.land t 127 = terminator st 1 ->
             let r := DoCmdLine g_sCmdTable st (t :: rx) in
             ret r = 1 /\ unread r = rx /\ index (obj r) = 0
             /\ trace r = echo st (Z.land t 127)
                          ++ line_events g_sCmdTable st (Z.land t 127)
                               (cstring (pending st ++ kept [] t))).
  { intros t Hterm r. subst r.
    destruct (scan_line st [] t rx Hwf eq_refl Hterm) as
      (st' & Hscan & Hp & Hi' & Hl' & _ & _ & E3 & E4 & _ & E6 & E7 & E8).
    { destruct Hwf as (Hi & _). unfold CMD_BUF_SIZE in *. simpl. lia. }
    rewrite DoCmdLine_scan by discriminate.
    change (t :: rx) with ([] ++ t :: rx). rewrite Hscan.
    destruct Hwf as (_ & Hlen & Hav).
    destruct (finish_line_spec g_sCmdTable st' (Z.land t 127) rx (echoes st ([] ++ [t])))
      as (Hret & Hun & Hidx & _ & Htr & _);
      [exact Hi'|by rewrite Hl'|by rewrite E8|].
    split; [exact Hret|]. split; [exact Hun|]. split; [exact Hidx|].
    rewrite Htr, Hp. unfold line_events. rewrite E3, E4, E6, E7.
    unfold echoes. simpl. by rewrite app_nil_r. }
  split; [|exact Hany].
  intros b Hb r. subst r.
  destruct (Hany b) as (Hret & Hun & Hidx & Htr);
    [right; rewrite Hb, Hslot; reflexivity|].
  split; [exact Hret|]. split; [exact Hun|]. split; [exact Hidx|].
  rewrite Htr, Hb. unfold kept. rewrite Hb. simpl.
  by rewrite cstring_app_nul.
Qed.

End Cursor_properties.

(** C9 as stated fails: seventy-nine ordinary bytes and no terminator, in one
    call; the call returns 1 and the default handler is called with the
    seventy-nine characters as its only token. *)
Lemma full_buffer_is_processed_counterexample :
  let st := SetDefaultHandler (Some (answer 0)) default_CommandLine in
  let body := replicate 79 97 in
  let r := DoCmdLine demo_table st body in
  wf st /\ forallb (ordinary st) body = true
  /\ index st + Z.of_nat (length body) = CMD_BUF_SIZE - 1
  /\ ret r = 1
  /\ handler_calls (trace r) = [InvokeDefault 1 [body]]
  /\ ~ not_dispatched r.
Proof.
  cbv zeta. split.
  { unfold wf. vm_compute. repeat split; try discriminate; lia. }
  split; [reflexivity|]. split; [reflexivity|]. split; [reflexivity|].
  split; [reflexivity|].
  unfold not_dispatched. intros [H _]. vm_compute in H. discriminate.
Qed.

(** Seventy-nine ordinary bytes, then two bytes that stay unread. *)
Lemma full_buffer_is_processed_witness :
  let st := SetDefaultHandler (Some (answer 0)) default_CommandLine in
  let r := DoCmdLine demo_table st (replicate 79 97 ++ [98; 13]) in
  ret r = 1 /\ unread r = [98; 13] /\ index (obj r) = 0.
Proof.
  cbv zeta.
  destruct (full_buffer_is_processed demo_table
              (SetDefaultHandler (Some (answer 0)) default_CommandLine)
              (replicate 79 97) [98; 13]) as (Hret & Hun & Hidx & _).
  - unfold wf. vm_compute. repeat split; try discriminate; lia.
  - reflexivity.
  - reflexivity.
  - auto.
Defined.

(** The default settings, [list] assembled, then the byte 0x80. *)
Lemma nul_byte_completes_line_witness :
  let st := holding default_CommandLine (cstr "list") in
  let r := DoCmdLine demo_table st [128] in
  terminator st 1 = NUL
  /\ ret r = 1 /\ index (obj r) = 0
  /\ handler_calls (trace r) = [Invoke 1 1 [cstr "list"]].
Proof.
  cbv zeta. split; [reflexivity|].
  destruct (nul_byte_completes_line demo_table
              (holding default_CommandLine (cstr "list")) []) as [Hnul _].
  - apply wf_holding. vm_compute. discriminate.
  - reflexivity.
  - destruct (Hnul 128 eq_refl) as (Hret & _ & Hidx & Htr).
    split; [exact Hret|]. split; [exact Hidx|]. rewrite Htr. reflexivity.
Defined.

(** ** ParseParam *)

Lemma char_at_middle (pre : list Z) (c : Z) (rest : list Z) :
  char_at (pre ++ c :: rest) (Z.of_nat (length pre)) = c.
Proof. unfold char_at. rewrite Nat2Z.id. apply List.nth_middle. Qed.

(** With a string shorter than 256 the counter does not wrap, and the loop
    ends within [strlen + 1] tests of its condition. *)
Lemma dec_loop_fuel (rest : list Z) :
  forall (pre : list Z) (val : Z) (fuel : nat),
    Z.of_nat (length (pre ++ rest)) <= 255 ->
    (length rest < fuel)%nat ->
    dec_loop fuel (pre ++ rest) (Z.of_nat (length pre)) val
    = Some (dec_digits rest val).
Proof.
  induction rest as [|c rest IH]; intros pre val fuel Hlen Hfuel;
    (destruct fuel as [|fuel]; [simpl in Hfuel; lia|]); cbn [dec_loop dec_digits].
  - rewrite app_nil_r. by rewrite Z.ltb_irrefl.
  - rewrite length_app in *. cbn [length] in *.
    destruct (Z.ltb_spec (Z.of_nat (length pre)) (Z.of_nat (length pre + S (length rest))));
      [|lia].
    rewrite char_at_middle. destruct (isdigit c); [|reflexivity].
    unfold wrap8. rewrite Z.mod_small by lia.
    replace (Z.of_nat (length pre) + 1) with (Z.of_nat (length (pre ++ [c])))
      by (rewrite length_app; simpl; lia).
    replace (pre ++ c :: rest) with ((pre ++ [c]) ++ rest) by (by rewrite <- app_assoc).
    apply IH; [rewrite !length_app; simpl; lia|lia].
Qed.

Lemma hex_loop_fuel (rest : list Z) :
  forall (pre : list Z) (val : Z) (fuel : nat),
    Z.of_nat (length (pre ++ rest)) <= 255 ->
    (length rest < fuel)%nat ->
    hex_loop fuel (pre ++ rest) (Z.of_nat (length pre)) val
    = Some (hex_digits rest val).
Proof.
  induction rest as [|c rest IH]; intros pre val fuel Hlen Hfuel;
    (destruct fuel as [|fuel]; [simpl in Hfuel; lia|]); cbn [hex_loop hex_digits].
  - rewrite app_nil_r. by rewrite Z.ltb_irrefl.
  - rewrite length_app in *. cbn [length] in *.
    destruct (Z.ltb_spec (Z.of_nat (length pre)) (Z.of_nat (length pre + S (length rest))));
      [|lia].
    rewrite char_at_middle. destruct (isxdigit (toupper c)); [|reflexivity].
    unfold wrap8. rewrite Z.mod_small by lia.
    replace (Z.of_nat (length pre) + 1) with (Z.of_nat (length (pre ++ [c])))
      by (rewrite length_app; simpl; lia).
    replace (pre ++ c :: rest) with ((pre ++ [c]) ++ rest) by (by rewrite <- app_assoc).
    apply IH; [rewrite !length_app; simpl; lia|lia].
Qed.

(** With 256 digits or more in front, the counter wraps from 255 to 0 and the
    loop goes on for ever: no amount of fuel is enough. *)
Lemma dec_loop_wraps (param : list Z) :
  256 <= Z.of_nat (length param) ->
  (forall i, 0 <= i < 256 -> isdigit (char_at param i) = true) ->
  forall (fuel : nat) (i val : Z), 0 <= i < 256 -> dec_loop fuel param i val = None.
Proof.
  intros Hlen Hdigits. induction fuel as [|fuel IH]; intros i val Hi; [reflexivity|].
  cbn [dec_loop].
  destruct (Z.ltb_spec i (Z.of_nat (length param))); [|lia].
  rewrite Hdigits by exact Hi. apply IH. unfold wrap8.
  apply Z.mod_pos_bound. lia.
Qed.

Lemma skip_space_length (s : list Z) : (length (skip_space s) <= length s)%nat.
Proof.
  induction s as [|c s IH]; simpl; [lia|]. destruct (isspace c); simpl; lia.
Qed.

(** [ParseParam] returns on every string shorter than 256 characters, and
    what it returns is [parse_token] of the string. *)
Lemma ParseParam_returns (mem : list Z) :
  Z.of_nat (length (cstring mem)) <= 255 ->
  ParseParam mem = Some (parse_token (cstring mem)).
Proof.
  intros Hlen. unfold ParseParam, ParseParam_fuel, parse_token, dec_convert.
  pose proof (skip_space_length (cstring mem)) as Hskip.
  set (param := skip_space (cstring mem)) in *.
  destruct (char_at param 0 =? QUOTE).
  { destruct (_ =? QUOTE); reflexivity. }
  destruct ((char_at param 0 =? 48) && (tolower (char_at param 1) =? 120)).
  { rewrite (hex_loop_fuel (drop 2 param) [] 0); cbn [app length];
      [destruct hex_digits; reflexivity|rewrite length_drop; lia|rewrite length_drop; lia]. }
  destruct (char_at param 0 =? MINUS).
  { rewrite (dec_loop_fuel (drop 1 param) [] 0); cbn [app length];
      [destruct dec_digits; reflexivity|rewrite length_drop; lia|rewrite length_drop; lia]. }
  destruct (isdigit (char_at param 0)); [|reflexivity]. cbn [negb].
  rewrite (dec_loop_fuel param [] 0); cbn [app length];
    [destruct dec_digits; reflexivity|lia|lia].
Qed.

(** The examples of the specification on which code and specification agree. *)
Lemma ParseParam_examples :
  ParseParam (cstr "0x1A") = Some (HEXVAL, Some 26)
  /\ ParseParam (cstr "-42") = Some (DECVAL, Some (-42))
  /\ ParseParam (cstr "12a") = Some (BADPARAM, None)
  /\ ParseParam (QUOTE :: cstr "hi" ++ [QUOTE]) = Some (STRVAL, None).
Proof. repeat split; reflexivity. Qed.

(** C5.  On the token made of the hex prefix alone the code does not return
    [BADPARAM]: the loop runs over no character, 0 is stored and [HEXVAL]
    returned. *)
Theorem hex_prefix_alone :
  ParseParam (cstr "0x") = Some (HEXVAL, Some 0)
  /\ ParseParam (cstr "0X") = Some (HEXVAL, Some 0).
Proof. split; reflexivity. Qed.

(** C6.  On the token made of the minus sign alone the code does not return
    [BADPARAM]: no digit test follows the sign, the loop runs over no
    character, 0 is stored and [DECVAL] returned. *)
Theorem minus_sign_alone :
  ParseParam (cstr "-") = Some (DECVAL, Some 0).
Proof. reflexivity. Qed.

(** C7.  On the token made of one double quote the code returns [STRVAL]:
    the last character is the first one. *)
Theorem lone_quote :
  ParseParam [QUOTE] = Some (STRVAL, None).
Proof. reflexivity. Qed.

Lemma hex_loop_wraps (param : list Z) :
  256 <= Z.of_nat (length param) ->
  (forall i, 0 <= i < 256 -> isxdigit (toupper (char_at param i)) = true) ->
  forall (fuel : nat) (i val : Z), 0 <= i < 256 -> hex_loop fuel param i val = None.
Proof.
  intros Hlen Hdigits. induction fuel as [|fuel IH]; intros i val Hi; [reflexivity|].
  cbn [hex_loop].
  destruct (Z.ltb_spec i (Z.of_nat (length param))); [|lia].
  rewrite Hdigits by exact Hi. apply IH. unfold wrap8.
  apply Z.mod_pos_bound. lia.
Qed.

Lemma dec_digits_spec (s : list Z) :
  forall val : Z,
    dec_digits s val
    = if forallb isdigit s then Finished (dec_value s val) else Rejected.
Proof.
  induction s as [|ch s IH]; intros val; [reflexivity|].
  cbn [dec_digits forallb]. destruct (isdigit ch); [|reflexivity].
  rewrite IH. reflexivity.
Qed.

(** A token that starts with a minus sign: [BADPARAM] exactly when a character
    behind the sign is not a digit.  Nothing asks for a digit to be there. *)
Lemma ParseParam_signed (mem ds : list Z) :
  Z.of_nat (length (cstring mem)) <= 255 ->
  skip_space (cstring mem) = MINUS :: ds ->
  ParseParam mem
  = Some (if forallb isdigit ds
          then (DECVAL, Some (wrap32 (0 - dec_value ds 0)))
          else (BADPARAM, None)).
Proof.
  intros Hlen Hs. rewrite ParseParam_returns by exact Hlen.
  unfold parse_token. rewrite Hs.
  change (char_at (MINUS :: ds) 0) with MINUS.
  change (MINUS =? QUOTE) with false. change (MINUS =? 48) with false.
  change (MINUS =? MINUS) with true. cbn [andb]. cbv iota.
  change (drop 1 (MINUS :: ds)) with ds. rewrite dec_digits_spec.
  destruct (forallb isdigit ds); reflexivity.
Qed.

(** A token that starts with a digit and is not hex-prefixed: [BADPARAM]
    exactly when one of its characters is not a digit. *)
Lemma ParseParam_unsigned (mem : list Z) (c : Z) (s : list Z) :
  Z.of_nat (length (cstring mem)) <= 255 ->
  skip_space (cstring mem) = c :: s ->
  isdigit c = true ->
  (c =? 48) && (tolower (char_at (c :: s) 1) =? 120) = false ->
  ParseParam mem
  = Some (if forallb isdigit (c :: s)
          then (DECVAL, Some (dec_value (c :: s) 0))
          else (BADPARAM, None)).
Proof.
  intros Hlen Hs Hc Hhex. rewrite ParseParam_returns by exact Hlen.
  unfold parse_token. rewrite Hs.
  change (char_at (c :: s) 0) with c. rewrite Hhex, Hc.
  assert (Hq : (c =? QUOTE) = false /\ (c =? MINUS) = false).
  { unfold isdigit, QUOTE, MINUS in *. split; apply Z.eqb_neq; lia. }
  destruct Hq as [-> ->]. cbn [negb].
  rewrite dec_digits_spec. destruct (forallb isdigit (c :: s)); reflexivity.
Qed.

Lemma nth_last (s : list Z) (q d : Z) :
  nth (length s) (q :: s) d = default q (last s).
Proof.
  revert q. induction s as [|c s IH]; intros q; [reflexivity|].
  change (nth (length (c :: s)) (q :: c :: s) d) with (nth (length s) (c :: s) d).
  rewrite IH. destruct s as [|c' s]; [reflexivity|].
  rewrite last_cons_cons.
  destruct (last (c' :: s)) eqn:E; [reflexivity|].
  apply last_None in E. discriminate.
Qed.

(** A token that starts with a double quote: [STRVAL] exactly when its last
    character is a double quote, be it the first one. *)
Lemma ParseParam_quoted (mem s : list Z) :
  Z.of_nat (length (cstring mem)) <= 255 ->
  skip_space (cstring mem) = QUOTE :: s ->
  ParseParam mem
  = Some (if default QUOTE (last s) =? QUOTE then (STRVAL, None)
          else (BADPARAM, None)).
Proof.
  intros Hlen Hs. rewrite ParseParam_returns by exact Hlen.
  unfold parse_token. rewrite Hs.
  change (char_at (QUOTE :: s) 0 =? QUOTE) with true. cbv iota.
  assert (Hlast : char_at (QUOTE :: s) (Z.of_nat (length (QUOTE :: s)) - 1)
                  = default QUOTE (last s)).
  { unfold char_at. cbn [length].
    replace (Z.to_nat (Z.of_nat (S (length s)) - 1)) with (length s) by lia.
    apply nth_last. }
  rewrite Hlast. destruct (_ =? QUOTE); reflexivity.
Qed.

(** * Further properties *)

(** ** What one call reads *)

Lemma backspace_config (st : CommandLine) : same_config st (backspace st).
Proof. unfold backspace, same_config. destruct (index st =? 0); repeat split. Qed.

Lemma same_config_refl (st : CommandLine) : same_config st st.
Proof. repeat split. Qed.

Lemma same_config_trans (st1 st2 st3 : CommandLine) :
  same_config st1 st2 -> same_config st2 st3 -> same_config st1 st3.
Proof. unfold same_config. intuition congruence. Qed.

Lemma store_char_config (st : CommandLine) (c : Z) : same_config st (store_char st c).
Proof. repeat split. Qed.

Lemma echo_config (st st' : CommandLine) (ch : Z) :
  same_config st st' -> echo st' ch = echo st ch.
Proof. intros (E1 & E2 & _). unfold echo. by rewrite E1, E2. Qed.

Lemma is_terminator_config (st st' : CommandLine) (b : Z) :
  same_config st st' -> is_terminator st' b = is_terminator st b.
Proof.
  intros (_ & _ & _ & _ & E5 & _). unfold is_terminator, terminator. by rewrite E5.
Qed.

Lemma echoes_config (st st' : CommandLine) (bytes : list Z) :
  same_config st st' -> echoes st' bytes = echoes st bytes.
Proof.
  intros H. unfold echoes. induction bytes as [|b bytes IH]; [reflexivity|].
  simpl. by rewrite IH, (echo_config st st').
Qed.

Lemma no_terminator_config (st st' : CommandLine) (bytes : list Z) :
  same_config st st' ->
  existsb (is_terminator st') bytes = existsb (is_terminator st) bytes.
Proof.
  intros H. induction bytes as [|b bytes IH]; [reflexivity|].
  simpl. by rewrite IH, (is_terminator_config st st').
Qed.

Lemma loop_outcome_step (st st1 : CommandLine) (n : nat) (b : Z) (rx : list Z)
    (ex : scan_exit) (tr : list event) :
  is_terminator st b = false ->
  same_config st st1 ->
  loop_outcome st1 n rx ex (tr ++ echo st (Z.land b 127)) ->
  loop_outcome st (S n) (b :: rx) ex tr.
Proof.
  intros Hb Hc H.
  assert (Hsym : same_config st1 st) by (unfold same_config in *; intuition congruence).
  inversion H as [st' tr0 Hlen Hno Hc' | st' consumed rx' ch tr0 Hrx Hlen Hno Hc'
                 | st' before t rx' tr0 Hrx Hlen Hno Ht Hc']; subst.
  - rewrite <- app_assoc, (echoes_config st st1) by exact Hc.
    change (echo st (Z.land b 127) ++ echoes st rx) with (echoes st (b :: rx)).
    apply ran_dry; [simpl; lia| |eapply same_config_trans; eassumption].
    simpl. rewrite Hb. by rewrite <- (no_terminator_config st st1).
  - rewrite <- app_assoc, (echoes_config st st1) by exact Hc.
    change (echo st (Z.land b 127) ++ echoes st consumed)
      with (echoes st (b :: consumed)).
    apply ran_out; [reflexivity|reflexivity| |eapply same_config_trans; eassumption].
    simpl. rewrite Hb. by rewrite <- (no_terminator_config st st1).
  - rewrite <- app_assoc, (echoes_config st st1) by exact Hc.
    change (echo st (Z.land b 127) ++ echoes st (before ++ [t]))
      with (echoes st ((b :: before) ++ [t])).
    apply terminated; [reflexivity|simpl; lia| | |eapply same_config_trans; eassumption].
    + simpl. rewrite Hb. by rewrite <- (no_terminator_config st st1).
    + by rewrite <- (is_terminator_config st st1).
Qed.

(** Every run of the loop is one of the three: the stream runs dry, the loop
    counter runs out, or a terminator is read. *)
Lemma scan_outcome (n : nat) :
  forall (st : CommandLine) (ch : Z) (rx : list Z) (tr : list event),
    loop_outcome st n rx (scan n st ch rx tr) tr.
Proof.
  induction n as [|n IH]; intros st ch rx tr.
  - simpl. replace tr with (tr ++ echoes st []) at 1 by apply app_nil_r.
    apply ran_out; [reflexivity|reflexivity|reflexivity|apply same_config_refl].
  - cbn [scan]. destruct rx as [|b rx].
    + replace tr with (tr ++ echoes st []) at 1 by apply app_nil_r.
      apply ran_dry; [simpl; lia|reflexivity|apply same_config_refl].
    + fold (is_terminator st b). destruct (is_terminator st b) eqn:Hb.
      * replace (echo st (Z.land b 127)) with (echoes st ([] ++ [b]))
          by (unfold echoes; simpl; apply app_nil_r).
        apply terminated; [reflexivity|simpl; lia|reflexivity|exact Hb|].
        destruct (negb (is_crlf (Z.land b 127)));
          [apply store_char_config|apply same_config_refl].
      * destruct (Z.land b 127 =? CHAR_BS);
          [|destruct (Z.land b 127 =? LF)];
          (eapply loop_outcome_step; [exact Hb| |apply IH]).
        -- apply backspace_config.
        -- apply same_config_refl.
        -- apply store_char_config.
Qed.

(** ** What a call puts in its trace *)

Lemma filter_app_nil {A} (f : A -> bool) (l1 l2 : list A) :
  List.filter f l1 = [] -> List.filter f l2 = [] -> List.filter f (l1 ++ l2) = [].
Proof. intros H1 H2. by rewrite List.filter_app, H1, H2. Qed.

Lemma table_search_quiet (argc : Z) (args : list (list Z)) :
  forall (tbl : list tCmdLineEntry) (i : nat),
    let '(r, tr) := table_search tbl i argc args in
    echoed tr = [] /\ messages tr = [] /\ error_calls tr = []
    /\ length (handler_calls tr) = match r with Some _ => 1%nat | None => 0%nat end.
Proof.
  unfold echoed, messages, error_calls, handler_calls.
  induction tbl as [|e tbl IH]; intros i; [by simpl; auto|].
  cbn [table_search]. destruct (pcCmd e) as [name|]; [|by simpl; auto].
  destruct (_ =? 0); [by simpl; auto|].
  specialize (IH (S i)). destruct (table_search tbl (S i) argc args) as [r tr].
  exact IH.
Qed.

Lemma dispatch_quiet (tbl : list tCmdLineEntry) (dflt : option pfnCmdLine)
    (argc : Z) (args : list (list Z)) :
  quiet (snd (dispatch tbl dflt argc args)).
Proof.
  unfold dispatch, quiet.
  pose proof (table_search_quiet argc args tbl 0) as Hq.
  destruct (argc =? 0).
  - destruct dflt; simpl; auto.
  - destruct (table_search tbl 0 argc args) as [[status|] tr];
      destruct Hq as (H1 & H2 & H3 & H4); cbn [snd].
    + rewrite H4. auto.
    + destruct dflt as [f|]; cbn [snd].
      * unfold echoed, messages, error_calls, handler_calls in *.
        rewrite !List.filter_app, H1, H2, H3.
        rewrite length_app, H4. simpl. auto.
      * rewrite H4. auto.
Qed.

Lemma CmdLineProcess_quiet (tbl : list tCmdLineEntry) (st : CommandLine) :
  quiet (snd (CmdLineProcess tbl st)).
Proof.
  unfold CmdLineProcess. destruct tok_loop as [buf av|buf argc av].
  - unfold quiet. simpl. auto.
  - pose proof (dispatch_quiet tbl (defaultFunc st) argc (arg_strings buf argc av)) as Hq.
    destruct dispatch as [status tr]. exact Hq.
Qed.

Lemma report_events (nStatus : Z) :
  echoed (report nStatus) = [] /\ error_calls (report nStatus) = []
  /\ handler_calls (report nStatus) = []
  /\ (length (messages (report nStatus)) <= 1)%nat
  /\ (nStatus = 0 -> report nStatus = []).
Proof.
  unfold report.
  repeat match goal with |- context [if ?c then _ else _] => destruct c eqn:? end;
    simpl; repeat split; auto; try (intros ->; discriminate).
Qed.

Lemma echoes_events (st : CommandLine) (bytes : list Z) :
  echoed (echoes st bytes) = echoes st bytes
  /\ messages (echoes st bytes) = [] /\ error_calls (echoes st bytes) = []
  /\ handler_calls (echoes st bytes) = [].
Proof.
  unfold echoes, echoed, messages, error_calls, handler_calls, echo.
  induction bytes as [|b bytes (I1 & I2 & I3 & I4)]; [by simpl; auto|].
  simpl. rewrite !List.filter_app, I1, I2, I3, I4.
  destruct (echoEnable st); [|by simpl; auto].
  destruct (negb (is_crlf (Z.land b 127)) || crLfechoEnable st); simpl; auto.
Qed.

(** The code after the loop: its return value, and its events behind the
    ones of the loop. *)
Lemma finish_line_events (tbl : list tCmdLineEntry) (st : CommandLine) (ch : Z)
    (rx : list Z) (tr : list event) :
  let r := finish_line tbl st ch rx tr in
  ret r = 1 /\ unread r = rx /\ index (obj r) = 0
  /\ exists after,
      trace r = tr ++ after
      /\ echoed after = []
      /\ (length (handler_calls after) <= 1)%nat
      /\ (if errorFunc st then messages after = []
                               /\ (length (error_calls after) <= 1)%nat
          else error_calls after = []
               /\ (length (messages after) <= 1)%nat).
Proof.
  unfold finish_line.
  destruct (strlen (g_cCmdBuf (terminate_line st)) >? 0).
  - pose proof (CmdLineProcess_quiet tbl (terminate_line st)) as Hq.
    pose proof (CmdLineProcess_settings tbl (terminate_line st)) as Hs.
    destruct (CmdLineProcess tbl (terminate_line st)) as [[nStatus st2] tr2].
    cbn [fst snd] in Hq, Hs. destruct Hq as (Q1 & Q2 & Q3 & Q4).
    assert (He : errorFunc st2 = errorFunc st) by apply Hs. rewrite He.
    cbn [ret unread obj trace]. rewrite <- app_assoc.
    repeat split; try reflexivity.
    eexists. split; [reflexivity|].
    destruct (report_events nStatus) as (R1 & R2 & R3 & R4 & _).
    unfold echoed, messages, error_calls, handler_calls in *.
    rewrite !List.filter_app, Q1, Q2, Q3.
    destruct (is_crlf ch && crLfcmdEnable (terminate_line st));
      destruct (errorFunc st); cbn [List.filter is_write is_message is_error_call
                                    is_call app length];
      rewrite ?R1, ?R2, ?R3, ?length_app, ?app_nil_r; cbn [length];
      repeat split; auto; lia.
  - cbn. repeat split; try reflexivity. exists []. rewrite app_nil_r.
    destruct (errorFunc st); simpl; repeat split; auto.
Qed.

Section Call_properties.

Variable g_sCmdTable : list tCmdLineEntry.

(** X1.  A call returns 0 or 1.  It returns 0 exactly when no byte is
    available, or when the bytes available are fewer than the loop counter
    has values left and none of them is a terminator; it has then read all of
    them, and has done nothing but echo them: no handler is called, nothing
    else is printed, the settings are as before. *)
Theorem call_returns_zero (st : CommandLine) (rx : list Z) :
  let r := DoCmdLine g_sCmdTable st rx in
  (ret r = 0 \/ ret r = 1)
  /\ (ret r = 0 <->
      rx = [] \/ ((length rx < room st)%nat
                  /\ existsb (is_terminator st) rx = false))
  /\ (ret r = 0 ->
      unread r = [] /\ trace r = echoes st rx /\ same_config st (obj r)).
Proof.
  cbv zeta. destruct rx as [|b rx].
  { simpl. repeat split; auto. }
  rewrite DoCmdLine_scan by discriminate.
  pose proof (scan_outcome (room st) st NUL (b :: rx) []) as H.
  unfold room in *.
  remember (scan (Z.to_nat (CMD_BUF_SIZE - 1 - index st)) st NUL (b :: rx) []) as ex.
  remember (@nil event) as tr0 in H.
  destruct H as [st' tr0 Hlen Hno Hc | st' consumed rx' ch tr0 Hrx Hlen Hno Hc
                 | st' before t rx' tr0 Hrx Hlen Hno Ht Hc]; subst tr0.
  - cbn [ret unread trace obj app].
    split; [auto|]. split; [split; auto|]. intros _. auto.
  - destruct (finish_line_events g_sCmdTable st' ch rx' ([] ++ echoes st consumed))
      as (Hret & _).
    rewrite Hret. split; [auto|]. split; [|discriminate].
    split; [discriminate|]. intros [Hnil|[Hshort _]]; [discriminate|].
    rewrite Hrx, length_app in Hshort. lia.
  - destruct (finish_line_events g_sCmdTable st' (Z.land t 127) rx'
                ([] ++ echoes st (before ++ [t]))) as (Hret & _).
    rewrite Hret. split; [auto|]. split; [|discriminate].
    split; [discriminate|]. intros [Hnil|[_ Hnone]]; [discriminate|].
    rewrite Hrx, existsb_app in Hnone. simpl in Hnone. rewrite Ht in Hnone.
    destruct (existsb (is_terminator st) before); discriminate.
Qed.

(** X2.  The loop counter starts at the cursor and goes up with every byte
    read, whatever the byte does to the cursor.  When as many bytes as it has
    values left are available and none of them is a terminator, the call
    reads exactly these, ends the line without a terminator and returns 1;
    the other bytes stay in the stream. *)
Theorem loop_counter_runs_out (st : CommandLine) (rx : list Z) :
  wf st ->
  (room st <= length rx)%nat ->
  existsb (is_terminator st) (take (room st) rx) = false ->
  let r := DoCmdLine g_sCmdTable st rx in
  ret r = 1 /\ unread r = drop (room st) rx /\ index (obj r) = 0
  /\ echoed (trace r) = echoes st (take (room st) rx).
Proof.
  intros (Hi & _) Hlen Hnone. cbv zeta.
  assert (Hroom : (0 < room st)%nat) by (unfold room, CMD_BUF_SIZE in *; lia).
  rewrite DoCmdLine_scan by (destruct rx; [simpl in Hlen; lia|discriminate]).
  pose proof (scan_outcome (room st) st NUL rx []) as H.
  unfold room in *.
  remember (scan (Z.to_nat (CMD_BUF_SIZE - 1 - index st)) st NUL rx []) as ex.
  remember (@nil event) as tr0 in H.
  destruct H as [st' tr0 Hl Hno Hc | st' consumed rx' ch tr0 Hrx Hl Hno Hc
                 | st' before t rx' tr0 Hrx Hl Hno Ht Hc]; subst tr0.
  - lia.
  - destruct (finish_line_events g_sCmdTable st' ch rx' ([] ++ echoes st consumed))
      as (Hret & Hun & Hidx & after & Htr & Hecho & _).
    rewrite Hret, Hun, Hidx, Htr, Hrx, <- Hl.
    rewrite take_app_length, drop_app_length.
    repeat split; auto.
    unfold echoed in *. rewrite !List.filter_app, Hecho, app_nil_r. simpl.
    apply echoes_events.
  - exfalso. rewrite Hrx in Hnone.
    rewrite <- (take_drop (S (length before))
                  (take (Z.to_nat (CMD_BUF_SIZE - 1 - index st)) (before ++ t :: rx')))
      in Hnone.
    rewrite take_take, Nat.min_l in Hnone by lia.
    rewrite (cons_middle t), app_assoc in Hnone.
    rewrite take_app_length' in Hnone by (rewrite length_app; simpl; lia).
    rewrite !existsb_app in Hnone. simpl in Hnone. rewrite Ht in Hnone.
    destruct (existsb (is_terminator st) before); discriminate.
Qed.

End Call_properties.

Lemma echoes_written_back (st : CommandLine) (bytes : list Z) :
  echoes st bytes = written_back st bytes.
Proof.
  unfold echoes, written_back, echo. destruct (echoEnable st).
  - induction bytes as [|b bytes IH]; [reflexivity|]. simpl. rewrite IH.
    destruct (negb (is_crlf (Z.land b 127)) || crLfechoEnable st); reflexivity.
  - induction bytes as [|b bytes IH]; [reflexivity|]. simpl. exact IH.
Qed.

(** A run of [plain] bytes: the line feeds are dropped, the others appended. *)
Lemma scan_plain (bytes : list Z) :
  forall (n : nat) (st : CommandLine) (ch : Z) (rx : list Z) (tr : list event),
    forallb (plain st) bytes = true ->
    scan (length bytes + n) st ch (bytes ++ rx) tr
    = scan n (stores st (appended bytes))
           (default NUL (last (ch :: map (fun b => Z.land b 127) bytes))) rx
           (tr ++ echoes st bytes).
Proof.
  induction bytes as [|b bytes IH]; intros n st ch rx tr Hplain.
  - simpl. by rewrite app_nil_r.
  - cbn [forallb] in Hplain. apply andb_prop in Hplain as [Hb Hplain].
    cbn [length Nat.add app scan map]. unfold plain, is_terminator in Hb.
    destruct ((Z.land b 127 =? terminator st 0) || (Z.land b 127 =? terminator st 1));
      [discriminate|].
    destruct (Z.land b 127 =? CHAR_BS); [discriminate|].
    unfold appended. cbn [map List.filter].
    destruct (Z.land b 127 =? LF); cbn [negb].
    + rewrite IH by exact Hplain. unfold echoes. cbn [flat_map].
      rewrite <- app_assoc. reflexivity.
    + rewrite IH by exact Hplain. unfold echoes. cbn [flat_map].
      rewrite <- app_assoc. reflexivity.
Qed.

Lemma appended_length (bytes : list Z) : (length (appended bytes) <= length bytes)%nat.
Proof.
  unfold appended. rewrite <- (length_map (fun b => Z.land b 127) bytes).
  apply List.filter_length_le.
Qed.

Section Stream_properties.

Variable g_sCmdTable : list tCmdLineEntry.


(** X4.  The characters a call writes back are those of the bytes it has
    read, masked to 7 bits and in the order read, terminators and backspaces
    included: all of them with [Echo] on and [CrLfEcho] on, all but CR and LF
    with [CrLfEcho] off, none with [Echo] off.  The bytes it has not read
    are the rest of the stream. *)
Theorem echo_of_a_call (st : CommandLine) (rx : list Z) :
  let r := DoCmdLine g_sCmdTable st rx in
  exists consumed,
    rx = consumed ++ unread r
    /\ echoed (trace r) = written_back st consumed.
Proof.
  cbv zeta. destruct rx as [|b rx].
  { exists []. split; reflexivity || (unfold written_back; simpl; by destruct (echoEnable st)). }
  rewrite DoCmdLine_scan by discriminate.
  pose proof (scan_outcome (room st) st NUL (b :: rx) []) as H.
  unfold room in *.
  remember (scan (Z.to_nat (CMD_BUF_SIZE - 1 - index st)) st NUL (b :: rx) []) as ex.
  remember (@nil event) as tr0 in H.
  assert (Hfin : forall st' ch rx' consumed,
             b :: rx = consumed ++ rx' ->
             exists c,
               b :: rx = c ++ unread (finish_line g_sCmdTable st' ch rx'
                                        ([] ++ echoes st consumed))
               /\ echoed (trace (finish_line g_sCmdTable st' ch rx'
                                   ([] ++ echoes st consumed)))
                  = written_back st c).
  { intros st' ch rx' consumed Hrx.
    destruct (finish_line_events g_sCmdTable st' ch rx' ([] ++ echoes st consumed))
      as (_ & Hun & _ & after & Htr & Hecho & _).
    exists consumed. rewrite Hun, Htr. split; [exact Hrx|].
    unfold echoed in *. rewrite !List.filter_app, Hecho, app_nil_r. simpl.
    rewrite <- echoes_written_back. apply echoes_events. }
  destruct H as [st' tr0 Hlen Hno Hc | st' consumed rx' ch tr0 Hrx Hlen Hno Hc
                 | st' before t rx' tr0 Hrx Hlen Hno Ht Hc]; subst tr0.
  - exists (b :: rx). cbn [unread trace app]. rewrite app_nil_r.
    split; [reflexivity|]. rewrite <- echoes_written_back. apply echoes_events.
  - apply Hfin. exact Hrx.
  - apply Hfin. rewrite Hrx, <- app_assoc. reflexivity.
Qed.

(** X5.  With a custom error handler installed no call prints a built-in
    message; without one the error handler pointer is never called.  A call
    calls at most one command handler, and reports at most once. *)
Theorem reports_of_a_call (st : CommandLine) (rx : list Z) :
  let tr := trace (DoCmdLine g_sCmdTable st rx) in
  (length (handler_calls tr) <= 1)%nat
  /\ (if errorFunc st
      then messages tr = [] /\ (length (error_calls tr) <= 1)%nat
      else error_calls tr = [] /\ (length (messages tr) <= 1)%nat).
Proof.
  cbv zeta. destruct rx as [|b rx].
  { simpl. destruct (errorFunc st); auto. }
  rewrite DoCmdLine_scan by discriminate.
  pose proof (scan_outcome (room st) st NUL (b :: rx) []) as H.
  unfold room in *.
  remember (scan (Z.to_nat (CMD_BUF_SIZE - 1 - index st)) st NUL (b :: rx) []) as ex.
  remember (@nil event) as tr0 in H.
  assert (Hfin : forall st' ch rx' consumed,
             same_config st st' ->
             let tr := trace (finish_line g_sCmdTable st' ch rx'
                                ([] ++ echoes st consumed)) in
             (length (handler_calls tr) <= 1)%nat
             /\ (if errorFunc st
                 then messages tr = [] /\ (length (error_calls tr) <= 1)%nat
                 else error_calls tr = [] /\ (length (messages tr) <= 1)%nat)).
  { intros st' ch rx' consumed Hc. cbv zeta.
    destruct (finish_line_events g_sCmdTable st' ch rx' ([] ++ echoes st consumed))
      as (_ & _ & _ & after & Htr & _ & Hcalls & Herr).
    assert (He : errorFunc st' = errorFunc st) by apply Hc.
    rewrite He in Herr. rewrite Htr.
    destruct (echoes_events st consumed) as (_ & M & E & C).
    unfold messages, error_calls, handler_calls in *.
    rewrite !List.filter_app. cbn [List.filter app]. rewrite M, E, C.
    cbn [app]. split; [exact Hcalls|exact Herr]. }
  destruct H as [st' tr0 Hlen Hno Hc | st' consumed rx' ch tr0 Hrx Hlen Hno Hc
                 | st' before t rx' tr0 Hrx Hlen Hno Ht Hc]; subst tr0.
  - cbn [trace app]. destruct (echoes_events st (b :: rx)) as (_ & M & E & C).
    rewrite M, E, C. destruct (errorFunc st); simpl; auto.
  - by apply Hfin.
  - by apply Hfin.
Qed.

End Stream_properties.

Section Line_ends.

Variable g_sCmdTable : list tCmdLineEntry.

(** A run of plain bytes that fits, then a terminator: the loop ends on the
    terminator, the appended characters in front of the cursor. *)
Lemma scan_plain_line (st : CommandLine) (body : list Z) (t : Z) (rx : list Z) :
  wf st ->
  forallb (plain st) body = true ->
  is_terminator st t = true ->
  index st + Z.of_nat (length body) + 1 < CMD_BUF_SIZE ->
  exists st',
    scan (room st) st NUL (body ++ t :: rx) []
    = LoopEnd st' (Z.land t 127) rx (echoes st (body ++ [t]))
    /\ pending st' = pending st ++ appended body ++ kept [] t
    /\ 0 <= index st' < CMD_BUF_SIZE
    /\ length (g_cCmdBuf st') = length (g_cCmdBuf st)
    /\ same_config st st'.
Proof.
  unfold wf, room, CMD_BUF_SIZE. intros (Hi & Hlen & Hav) Hplain Hterm Hfit.
  set (st1 := stores st (appended body)).
  pose proof (appended_length body) as Hal.
  destruct (stores_spec (appended body) st) as (Hi1 & Hp1 & Hl1); [lia|lia|lia|].
  assert (Hc1 : same_config st st1)
    by (pose proof (stores_settings (appended body) st); unfold same_config, st1; tauto).
  fold st1 in Hi1, Hp1, Hl1.
  replace (Z.to_nat (80 - 1 - index st))
    with (length body + S (Z.to_nat (78 - index st) - length body))%nat by lia.
  rewrite scan_plain by exact Hplain. fold st1.
  rewrite scan_terminator.
  2:{ rewrite <- (is_terminator_config st st1) in Hterm by exact Hc1.
      unfold is_terminator in Hterm. apply orb_prop in Hterm.
      destruct Hterm as [H|H]; apply Z.eqb_eq in H; auto. }
  assert (Htr : ([] ++ echoes st body) ++ echo st1 (Z.land t 127)
                = echoes st (body ++ [t])).
  { unfold echoes. rewrite flat_map_app. simpl. rewrite app_nil_r.
    by rewrite (echo_config st st1). }
  rewrite Htr. unfold kept. cbn [map app].
  destruct (is_crlf (Z.land t 127)); cbn [negb].
  - exists st1. rewrite app_nil_r, Hp1, Hi1, Hl1.
    repeat split; try apply Hc1; try reflexivity; lia.
  - destruct (store_char_spec st1 (Z.land t 127)) as (Hi2 & Hp2 & Hl2); [lia|lia|].
    exists (store_char st1 (Z.land t 127)).
    rewrite Hp2, Hi2, Hl2, Hp1, Hi1, Hl1, <- app_assoc.
    repeat split; try apply Hc1; try reflexivity; lia.
Qed.

(** The call that receives the rest of a line and its terminator. *)
Lemma plain_line_call (st : CommandLine) (body : list Z) (t : Z) (rx : list Z) :
  wf st ->
  forallb (plain st) body = true ->
  is_terminator st t = true ->
  index st + Z.of_nat (length body) + 1 < CMD_BUF_SIZE ->
  let r := DoCmdLine g_sCmdTable st (body ++ t :: rx) in
  ret r = 1 /\ unread r = rx /\ index (obj r) = 0 /\ wf (obj r)
  /\ trace r
     = echoes st (body ++ [t])
       ++ line_events g_sCmdTable st (Z.land t 127)
            (cstring (pending st ++ appended body ++ kept [] t)).
Proof.
  intros Hwf Hplain Hterm Hfit. cbv zeta.
  destruct (scan_plain_line st body t rx Hwf Hplain Hterm Hfit)
    as (st' & Hscan & Hp & Hi' & Hl' & Hc).
  rewrite DoCmdLine_scan by (destruct body; discriminate).
  unfold room in Hscan. rewrite Hscan.
  destruct Hwf as (_ & Hlen & Hav).
  destruct Hc as (_ & _ & E3 & E4 & _ & E6 & E7 & E8).
  destruct (finish_line_spec g_sCmdTable st' (Z.land t 127) rx
              (echoes st (body ++ [t])))
    as (Hret & Hun & Hidx & Hwf' & Htr & _);
    [exact Hi'|by rewrite Hl'|by rewrite E8|].
  repeat split; try assumption; try apply Hwf'.
  rewrite Htr, Hp. unfold line_events. by rewrite E3, E4, E6, E7.
Qed.


(** X7.  How the status of a processed line is reported.  With a custom
    error handler installed, the handler is called once with the status,
    also when the status is 0, and no message is printed; without one, the
    message of the status is printed, none when the status is 0. *)
Theorem status_is_reported (st : CommandLine) (body : list Z) (t : Z)
    (rx : list Z) (c : Z) (line' : list Z) :
  wf st ->
  forallb (plain st) body = true ->
  is_terminator st t = true ->
  index st + Z.of_nat (length body) + 1 < CMD_BUF_SIZE ->
  cstring (pending st ++ appended body ++ kept [] t) = c :: line' ->
  let tr := trace (DoCmdLine g_sCmdTable st (body ++ t :: rx)) in
  let nStatus :=
    fst (process_line g_sCmdTable (defaultFunc st) (delimiter st) (c :: line')) in
  if errorFunc st
  then error_calls tr = [InvokeError nStatus] /\ messages tr = []
  else messages tr = report nStatus /\ error_calls tr = []
       /\ (nStatus = 0 -> messages tr = []).
Proof.
  intros Hwf Hplain Hterm Hfit Hline. cbv zeta.
  destruct (plain_line_call st body t rx Hwf Hplain Hterm Hfit)
    as (_ & _ & _ & _ & Htr).
  rewrite Htr, Hline. unfold line_events.
  assert (Hq : quiet (snd (process_line g_sCmdTable (defaultFunc st) (delimiter st)
                             (c :: line')))).
  { unfold process_line. destruct (_ <? _); [unfold quiet; simpl; auto|].
    apply dispatch_quiet. }
  destruct (process_line g_sCmdTable (defaultFunc st) (delimiter st) (c :: line'))
    as [nStatus dtr]. cbn [fst snd] in *.
  destruct Hq as (_ & M & E & _).
  destruct (echoes_events st (body ++ [t])) as (_ & M0 & E0 & _).
  destruct (report_events nStatus) as (_ & RE & _ & _ & R0).
  unfold messages, error_calls in *.
  rewrite !List.filter_app, M0, E0, M, E.
  destruct (is_crlf (Z.land t 127) && crLfcmdEnable st);
    destruct (errorFunc st); cbn [List.filter is_message is_error_call app];
    rewrite ?RE, ?app_nil_r; repeat split; auto.
  - assert (Hm : forall l, Forall (fun ev => is_message ev = true) l ->
                           List.filter is_message l = l).
    { induction 1 as [|ev l Hev _ IH]; [reflexivity|]. simpl. by rewrite Hev, IH. }
    apply Hm. unfold report.
    repeat match goal with |- context [if ?b then _ else _] => destruct b end;
      repeat constructor.
  - intros ->. reflexivity.
  - assert (Hm : forall l, Forall (fun ev => is_message ev = true) l ->
                           List.filter is_message l = l).
    { induction 1 as [|ev l Hev _ IH]; [reflexivity|]. simpl. by rewrite Hev, IH. }
    apply Hm. unfold report.
    repeat match goal with |- context [if ?b then _ else _] => destruct b end;
      repeat constructor.
  - intros ->. reflexivity.
Qed.

(** X8.  A terminator received on an empty buffer.  When it is CR or LF (or
    the NUL of the second slot) the line is empty: the call returns 1 and
    does nothing but echo, no handler and no error handler is called.  When
    it is another character, that character is the line and is processed as
    a line of one character. *)
Theorem terminator_on_empty_buffer (st : CommandLine) (t : Z) (rx : list Z) :
  wf st ->
  index st = 0 ->
  is_terminator st t = true ->
  let r := DoCmdLine g_sCmdTable st (t :: rx) in
  ret r = 1 /\ unread r = rx /\ index (obj r) = 0
  /\ (is_crlf (Z.land t 127) = true \/ Z.land t 127 = NUL ->
      trace r = echo st (Z.land t 127))
  /\ (is_crlf (Z.land t 127) = false -> Z.land t 127 <> NUL ->
      trace r = echo st (Z.land t 127)
                ++ line_events g_sCmdTable st (Z.land t 127) [Z.land t 127]).
Proof.
  intros Hwf Hidx Hterm. cbv zeta.
  destruct (plain_line_call st [] t rx Hwf eq_refl Hterm)
    as (H1 & H2 & H3 & _ & Htr).
  { destruct Hwf as (Hi & _). unfold CMD_BUF_SIZE in *. simpl. lia. }
  cbn [app] in H1, H2, H3, Htr.
  split; [exact H1|]. split; [exact H2|]. split; [exact H3|].
  assert (Hpend : pending st = []) by (unfold pending; rewrite Hidx; reflexivity).
  rewrite Htr, Hpend. unfold echoes, appended, kept. cbn [flat_map map List.filter app].
  rewrite app_nil_r. split.
  - intros [Hcrlf|Hnul].
    + rewrite Hcrlf. simpl. by rewrite app_nil_r.
    + rewrite Hnul. simpl. by rewrite app_nil_r.
  - intros Hcrlf Hnul. rewrite Hcrlf. cbn [cstring].
    destruct (Z.eqb_spec (Z.land t 127) NUL); [contradiction|]. reflexivity.
Qed.

End Line_ends.

(** ** ParseParam: the values converted *)

Lemma wrap32_add_l (a b : Z) : wrap32 (wrap32 a + b) = wrap32 (a + b).
Proof.
  unfold wrap32.
  replace ((a + 2 ^ 31) mod 2 ^ 32 - 2 ^ 31 + b + 2 ^ 31)
    with ((a + 2 ^ 31) mod 2 ^ 32 + b) by lia.
  rewrite Zplus_mod_idemp_l. f_equal. f_equal. lia.
Qed.

Lemma wrap32_mul_l (a k : Z) : wrap32 (wrap32 a * k) = wrap32 (a * k).
Proof.
  unfold wrap32.
  rewrite (Z.mod_eq (a + 2 ^ 31) (2 ^ 32)) by lia.
  replace ((a + 2 ^ 31 - 2 ^ 32 * ((a + 2 ^ 31) / 2 ^ 32) - 2 ^ 31) * k + 2 ^ 31)
    with (a * k + 2 ^ 31 + (- ((a + 2 ^ 31) / 2 ^ 32) * k) * 2 ^ 32) by lia.
  by rewrite Z_mod_plus_full.
Qed.

Lemma wrap32_opp (a : Z) : wrap32 (0 - wrap32 a) = wrap32 (- a).
Proof.
  replace (0 - wrap32 a) with (wrap32 a * -1) by lia.
  rewrite wrap32_mul_l. f_equal. lia.
Qed.

Lemma wrap32_step (v k d : Z) :
  wrap32 (wrap32 (wrap32 v * k) + d) = wrap32 (v * k + d).
Proof. by rewrite wrap32_mul_l, wrap32_add_l. Qed.

Lemma dec_value_number (s : list Z) :
  forall v : Z, dec_value s (wrap32 v) = wrap32 (dec_number s v).
Proof.
  unfold dec_value, dec_number.
  induction s as [|c s IH]; intros v; [reflexivity|].
  cbn [fold_left]. by rewrite wrap32_step, IH.
Qed.

Lemma isxdigit_toupper (c : Z) : isxdigit c = true -> isxdigit (toupper c) = true.
Proof.
  unfold isxdigit, isdigit, toupper. intros H.
  repeat match goal with
         | |- context [?a <=? ?b] => destruct (Z.leb_spec a b)
         | H : context [?a <=? ?b] |- _ => destruct (Z.leb_spec a b)
         end; cbn in *; try reflexivity; try discriminate; lia.
Qed.

Lemma hex_digit_toupper (c : Z) :
  isxdigit c = true ->
  (if isdigit (toupper c) then toupper c - 48 else toupper c - 65 + 10)
  = hex_digit_value c.
Proof.
  unfold hex_digit_value, isxdigit, isdigit, toupper. intros H.
  repeat match goal with
         | |- context [?a <=? ?b] => destruct (Z.leb_spec a b)
         | H : context [?a <=? ?b] |- _ => destruct (Z.leb_spec a b)
         end; cbn in *; try discriminate; lia.
Qed.

Lemma hex_digits_number (s : list Z) :
  forallb isxdigit s = true ->
  forall v : Z, hex_digits s (wrap32 v) = Finished (wrap32 (hex_number s v)).
Proof.
  unfold hex_number.
  induction s as [|c s IH]; intros Hs v; [reflexivity|].
  cbn [forallb] in Hs. apply andb_prop in Hs. destruct Hs as [Hc Hs].
  cbn [hex_digits fold_left]. rewrite (isxdigit_toupper c Hc).
  rewrite <- (hex_digit_toupper c Hc).
  destruct (isdigit (toupper c)); rewrite wrap32_step; by apply IH.
Qed.

Lemma isdigit_not_space (c : Z) : isdigit c = true -> isspace c = false.
Proof.
  unfold isdigit, isspace. intros H.
  repeat match goal with
         | |- context [?a <=? ?b] => destruct (Z.leb_spec a b)
         | |- context [?a =? ?b] => destruct (Z.eqb_spec a b)
         | H : context [?a <=? ?b] |- _ => destruct (Z.leb_spec a b)
         end; cbn in *; try reflexivity; try discriminate; lia.
Qed.

Lemma digits_nul_free (ds : list Z) : forallb isdigit ds = true -> nul_free ds.
Proof.
  unfold nul_free. induction ds as [|c ds IH]; intros H; [constructor|].
  cbn [forallb] in H. apply andb_prop in H. destruct H as [Hc Hs].
  constructor; [|by apply IH].
  unfold isdigit, NUL in *. lia.
Qed.

Lemma xdigits_nul_free (ds : list Z) : forallb isxdigit ds = true -> nul_free ds.
Proof.
  unfold nul_free. induction ds as [|c ds IH]; intros H; [constructor|].
  cbn [forallb] in H. apply andb_prop in H. destruct H as [Hc Hs].
  constructor; [|by apply IH].
  unfold isxdigit, isdigit, NUL in *. lia.
Qed.

Lemma skip_space_spaces (ws s : list Z) :
  forallb isspace ws = true -> skip_space (ws ++ s) = skip_space s.
Proof.
  induction ws as [|c ws IH]; intros H; [reflexivity|].
  cbn [forallb] in H. apply andb_prop in H. destruct H as [Hc Hs].
  cbn [app skip_space]. rewrite Hc. by apply IH.
Qed.

Lemma cstring_spaces (ws mem : list Z) :
  forallb isspace ws = true -> cstring (ws ++ mem) = ws ++ cstring mem.
Proof.
  induction ws as [|c ws IH]; intros H; [reflexivity|].
  cbn [forallb] in H. apply andb_prop in H. destruct H as [Hc Hs].
  cbn [app cstring].
  destruct (Z.eqb_spec c NUL) as [->|_]; [discriminate|].
  by rewrite IH.
Qed.

Lemma digit_no_hex_prefix (c : Z) (s : list Z) :
  (forall d, s !! 0%nat = Some d -> tolower d <> 120) ->
  (c =? 48) && (tolower (char_at (c :: s) 1) =? 120) = false.
Proof.
  intros H. apply andb_false_intro2. apply Z.eqb_neq.
  unfold char_at. change (Z.to_nat 1) with 1%nat. cbn [nth].
  destruct s as [|d s]; [by cbn|]. cbn [nth]. by apply H.
Qed.

Lemma isdigit_tolower (d : Z) : isdigit d = true -> tolower d <> 120.
Proof.
  unfold isdigit, tolower. intros H.
  destruct (Z.leb_spec 65 d); cbn; lia.
Qed.

Lemma sign_digits_nul_free (neg : bool) (ds : list Z) :
  forallb isdigit ds = true -> nul_free (sign neg ++ ds).
Proof.
  intros H. apply Forall_app. split; [|by apply digits_nul_free].
  destruct neg; cbn; repeat constructor. discriminate.
Qed.

(** The decimal loop on digits followed by another character: the counter
    reaches that character as long as the digits are at most 255. *)
Lemma dec_loop_rejects (ds : list Z) (w : Z) (rest : list Z) :
  isdigit w = false ->
  forallb isdigit ds = true ->
  forall (pre : list Z) (val : Z) (fuel : nat),
    Z.of_nat (length (pre ++ ds)) <= 255 ->
    (length ds < fuel)%nat ->
    dec_loop fuel (pre ++ ds ++ w :: rest) (Z.of_nat (length pre)) val
    = Some Rejected.
Proof.
  intros Hw. induction ds as [|c ds IH]; intros Hds pre val fuel Hlen Hfuel;
    (destruct fuel as [|fuel]; [simpl in Hfuel; lia|]); cbn [dec_loop app].
  - rewrite length_app. cbn [length].
    destruct (Z.ltb_spec (Z.of_nat (length pre))
                (Z.of_nat (length pre + S (length rest)))); [|lia].
    by rewrite char_at_middle, Hw.
  - cbn [forallb] in Hds. apply andb_prop in Hds. destruct Hds as [Hc Hds].
    rewrite length_app in Hlen. cbn [length] in Hlen, Hfuel.
    rewrite !length_app. cbn [length]. rewrite length_app. cbn [length].
    destruct (Z.ltb_spec (Z.of_nat (length pre))
                (Z.of_nat (length pre + S (length ds + S (length rest))))); [|lia].
    rewrite char_at_middle, Hc.
    unfold wrap8. rewrite Z.mod_small by lia.
    replace (Z.of_nat (length pre) + 1) with (Z.of_nat (length (pre ++ [c])))
      by (rewrite length_app; simpl; lia).
    replace (pre ++ c :: ds ++ w :: rest) with ((pre ++ [c]) ++ ds ++ w :: rest)
      by (by rewrite <- app_assoc).
    apply IH; [exact Hds|rewrite !length_app; simpl; lia|lia].
Qed.

Section Conversions.

(** X9.  A decimal token, with or without a minus sign, is converted to the
    number its digits denote reduced to 32 bits in two's complement: the
    result is [DECVAL] whatever the size of the number, nothing reports an
    overflow. *)
Theorem decimal_value_wraps (neg : bool) (ds junk : list Z) :
  ds <> [] ->
  forallb isdigit ds = true ->
  Z.of_nat (length ds) < 255 ->
  ParseParam (sign neg ++ ds ++ NUL :: junk)
  = Some (DECVAL,
          Some (wrap32 (if neg then - dec_number ds 0 else dec_number ds 0))).
Proof.
  intros Hne Hds Hlen.
  assert (Hcs : cstring (sign neg ++ ds ++ NUL :: junk) = sign neg ++ ds).
  { rewrite app_assoc. apply cstring_nul_free. by apply sign_digits_nul_free. }
  assert (Hv : dec_value ds 0 = wrap32 (dec_number ds 0))
    by apply (dec_value_number ds 0).
  destruct neg; cbn [sign] in *.
  - rewrite (ParseParam_signed _ ds).
    + by rewrite Hds, Hv, wrap32_opp.
    + rewrite Hcs. cbn [app length]. lia.
    + rewrite Hcs. reflexivity.
  - destruct ds as [|c s]; [contradiction|].
    assert (Hc : isdigit c = true /\ forallb isdigit s = true)
      by (cbn [forallb] in Hds; by apply andb_prop in Hds).
    destruct Hc as [Hc Hs].
    rewrite (ParseParam_unsigned _ c s).
    + by rewrite Hds, Hv.
    + rewrite Hcs. cbn [app length] in *. lia.
    + rewrite Hcs. cbn [app skip_space]. by rewrite (isdigit_not_space c Hc).
    + exact Hc.
    + apply digit_no_hex_prefix. intros d Hd. apply isdigit_tolower.
      destruct s as [|d' s']; [discriminate|]. cbn in Hd. injection Hd as ->.
      cbn [forallb] in Hs. apply andb_prop in Hs. tauto.
Qed.

(** X10.  A token that starts with 0x or 0X and goes on with hexadecimal
    digits of either case is converted to the number they denote reduced to
    32 bits in two's complement: eight digits F give -1, more than eight
    digits lose the leading ones. *)
Theorem hex_value_wraps (x : Z) (hs junk : list Z) :
  x = 120 \/ x = 88 ->
  forallb isxdigit hs = true ->
  Z.of_nat (length hs) < 254 ->
  ParseParam (48 :: x :: hs ++ NUL :: junk)
  = Some (HEXVAL, Some (wrap32 (hex_number hs 0))).
Proof.
  intros Hx Hhs Hlen.
  assert (Hcs : cstring (48 :: x :: hs ++ NUL :: junk) = 48 :: x :: hs).
  { apply (cstring_nul_free (48 :: x :: hs)).
    constructor; [discriminate|]. constructor; [unfold NUL; lia|].
    by apply xdigits_nul_free. }
  rewrite ParseParam_returns by (rewrite Hcs; cbn [length]; lia).
  rewrite Hcs. unfold parse_token. cbn [skip_space].
  change (isspace 48) with false. cbv iota.
  change (char_at (48 :: x :: hs) 0) with 48.
  change (char_at (48 :: x :: hs) 1) with x.
  change (48 =? QUOTE) with false. cbv iota.
  assert (Hx' : (tolower x =? 120) = true) by (destruct Hx as [->| ->]; reflexivity).
  rewrite Hx'. change (48 =? 48) with true.
  change (drop 2 (48 :: x :: hs)) with hs. cbn [andb].
  assert (Hv : hex_digits hs 0 = Finished (wrap32 (hex_number hs 0)))
    by apply (hex_digits_number hs Hhs 0).
  by rewrite Hv.
Qed.

(** X11.  A call that never returns.  The conversion loops count in eight
    bits and compare the counter with the length of the token: on a token
    whose first 256 characters behind the optional minus sign are decimal
    digits the counter wraps around before it reaches the length, and the
    call does not return, however many steps it is given. *)
Theorem long_number_never_returns (neg : bool) (ds rest mem : list Z) :
  cstring mem = sign neg ++ ds ++ rest ->
  length ds = 256%nat ->
  forallb isdigit ds = true ->
  forall fuel : nat, ParseParam_fuel fuel mem = None.
Proof.
  intros Hcs Hlen Hds fuel.
  assert (Hloop : dec_loop fuel (ds ++ rest) 0 0 = None).
  { apply dec_loop_wraps; [rewrite length_app; lia| |lia].
    intros i Hi. unfold char_at.
    rewrite app_nth1 by lia.
    apply (proj1 (forallb_forall isdigit ds) Hds).
    apply nth_In. lia. }
  destruct ds as [|c s]; [discriminate|].
  assert (Hc : isdigit c = true /\ forallb isdigit s = true)
    by (cbn [forallb] in Hds; by apply andb_prop in Hds).
  destruct Hc as [Hc Hs].
  unfold ParseParam_fuel. rewrite Hcs.
  destruct neg; cbn [sign app skip_space].
  - change (isspace MINUS) with false. cbv iota.
    change (char_at (MINUS :: c :: s ++ rest) 0) with MINUS.
    change (MINUS =? QUOTE) with false. change (MINUS =? 48) with false.
    change (MINUS =? MINUS) with true. cbn [andb drop].
    unfold dec_convert. cbn [app] in Hloop. by rewrite Hloop.
  - rewrite (isdigit_not_space c Hc).
    change (char_at (c :: s ++ rest) 0) with c.
    assert (Hq : (c =? QUOTE) = false)
      by (apply Z.eqb_neq; unfold isdigit, QUOTE in *; lia).
    assert (Hm : (c =? MINUS) = false)
      by (apply Z.eqb_neq; unfold isdigit, MINUS in *; lia).
    rewrite Hq, Hm, Hc.
    rewrite digit_no_hex_prefix.
    + cbn [negb]. unfold dec_convert. cbn [app] in Hloop. by rewrite Hloop.
    + intros d Hd. apply isdigit_tolower.
      destruct s as [|d' s']; [discriminate|]. cbn in Hd. injection Hd as ->.
      cbn [forallb] in Hs. apply andb_prop in Hs. tauto.
Qed.

(** X12.  White space in front of a token is skipped: the call on the token
    with white space in front gives what the call on the token gives. *)
Theorem leading_whitespace_is_skipped (ws mem : list Z) :
  forallb isspace ws = true ->
  Z.of_nat (length ws + length (cstring mem)) <= 255 ->
  ParseParam (ws ++ mem) = ParseParam mem.
Proof.
  intros Hws Hlen.
  rewrite !ParseParam_returns; rewrite ?cstring_spaces by exact Hws;
    rewrite ?length_app; try lia.
  unfold parse_token. by rewrite skip_space_spaces.
Qed.

(** X13.  No other character is accepted behind the digits of a decimal
    token: behind an optional minus sign and 1 to 255 digits, a character
    that is neither a digit nor x or X (white space, a decimal point, another
    letter, a sign) makes the call return [BADPARAM], whatever follows it and
    however long the token is, and no value is stored. *)
Theorem character_behind_digits_is_rejected (neg : bool) (ds : list Z) (w : Z)
    (rest junk : list Z) :
  ds <> [] ->
  forallb isdigit ds = true ->
  Z.of_nat (length ds) <= 255 ->
  isdigit w = false -> w <> NUL -> tolower w <> 120 ->
  nul_free rest ->
  ParseParam (sign neg ++ ds ++ w :: rest ++ NUL :: junk) = Some (BADPARAM, None).
Proof.
  intros Hne Hds Hlen Hw Hw0 Hwx Hrest.
  assert (Hcs : cstring (sign neg ++ ds ++ w :: rest ++ NUL :: junk)
                = sign neg ++ ds ++ w :: rest).
  { replace (sign neg ++ ds ++ w :: rest ++ NUL :: junk)
      with ((sign neg ++ ds ++ w :: rest) ++ NUL :: junk)
      by (by rewrite <- !app_assoc).
    apply cstring_nul_free. rewrite app_assoc. apply Forall_app. split.
    - by apply sign_digits_nul_free.
    - by constructor. }
  assert (Hloop : dec_loop (S (length (sign neg ++ ds ++ w :: rest)))
                    (ds ++ w :: rest) 0 0 = Some Rejected).
  { apply (dec_loop_rejects ds w rest Hw Hds [] 0); [exact Hlen|].
    rewrite !length_app. cbn [length]. lia. }
  destruct ds as [|c s]; [contradiction|].
  assert (Hc : isdigit c = true /\ forallb isdigit s = true)
    by (cbn [forallb] in Hds; by apply andb_prop in Hds).
  destruct Hc as [Hc Hs].
  unfold ParseParam, ParseParam_fuel. rewrite Hcs.
  destruct neg; cbn [sign app skip_space] in *.
  - change (isspace MINUS) with false. cbv iota.
    change (char_at (MINUS :: c :: s ++ w :: rest) 0) with MINUS.
    change (MINUS =? QUOTE) with false. change (MINUS =? 48) with false.
    change (MINUS =? MINUS) with true. cbn [andb drop].
    unfold dec_convert. by rewrite Hloop.
  - rewrite (isdigit_not_space c Hc).
    change (char_at (c :: s ++ w :: rest) 0) with c.
    assert (Hq : (c =? QUOTE) = false)
      by (apply Z.eqb_neq; unfold isdigit, QUOTE in *; lia).
    assert (Hm : (c =? MINUS) = false)
      by (apply Z.eqb_neq; unfold isdigit, MINUS in *; lia).
    rewrite Hq, Hm, Hc.
    rewrite digit_no_hex_prefix.
    + cbn [negb]. unfold dec_convert. by rewrite Hloop.
    + intros d Hd.
      destruct s as [|d' s']; cbn in Hd; injection Hd as ->; [exact Hwx|].
      apply isdigit_tolower. cbn [forallb] in Hs. apply andb_prop in Hs. tauto.
Qed.

End Conversions.

(** ** CmdLineProcess: what the handlers are called with, and when *)

Lemma split_on_fields (d : Z) (line : list Z) :
  Forall (fun t => ~ In d t /\ forall c, In c t -> In c line) (split_on d line).
Proof.
  induction line as [|c line IH]; cbn [split_on].
  - repeat constructor; auto.
  - assert (IH' : Forall (fun t => ~ In d t /\ forall c0, In c0 t -> In c0 (c :: line))
                         (split_on d line)).
    { eapply Forall_impl; [exact IH|]. cbn. intros t [H1 H2]. split; auto. }
    destruct (Z.eqb_spec c d) as [->|Hcd].
    + constructor; [|exact IH']. split; [intros []|intros ? []].
    + destruct (split_on d line) as [|t ts].
      * constructor; [|constructor]. split.
        -- cbn. intros [E|[]]. congruence.
        -- cbn. intros c0 [E|[]]. auto.
      * inversion IH' as [|? ? [H1 H2] Hts]; subst.
        constructor; [|exact Hts]. split.
        -- cbn. intros [E|E]; [congruence|auto].
        -- cbn. intros c0 [E|E]; [auto|]. right.
           destruct (H2 c0 E) as [E'|E']; [|exact E'].
           inversion IH as [|? ? [_ H2'] _]; subst. auto.
Qed.

Lemma split_collapse_fields (d : Z) (line : list Z) :
  nul_free line ->
  Forall (fun a => a <> [] /\ nul_free a /\ ~ In d a) (split_collapse d line).
Proof.
  intros Hnf. unfold split_collapse. apply List.Forall_forall. intros a Ha.
  apply List.filter_In in Ha. destruct Ha as [Ha Hne].
  pose proof (split_on_fields d line) as Hf.
  rewrite List.Forall_forall in Hf. destruct (Hf a Ha) as [Hd Hsub].
  split; [by destruct a|]. split; [|exact Hd].
  unfold nul_free in *. apply List.Forall_forall. intros c Hc.
  rewrite List.Forall_forall in Hnf. auto.
Qed.

Lemma split_collapse_blank (d : Z) (line : list Z) :
  Forall (fun c => c = d) line -> split_collapse d line = [].
Proof.
  unfold split_collapse. induction 1 as [|c line -> _ IH]; [reflexivity|].
  cbn [split_on]. by rewrite Z.eqb_refl.
Qed.

Lemma table_search_events (argc : Z) (args : list (list Z)) :
  forall (tbl : list tCmdLineEntry) (i : nat) (ev : event),
    In ev (snd (table_search tbl i argc args)) ->
    (exists j, ev = TableRead j) \/ (exists k, ev = Invoke k argc args).
Proof.
  induction tbl as [|e tbl IH]; intros i ev; cbn [table_search]; [by cbn|].
  destruct (pcCmd e) as [name|].
  - destruct (_ =? 0).
    + cbn. intros [<-|[<-|[]]]; eauto.
    + specialize (IH (S i) ev). destruct (table_search tbl (S i) argc args) as [r tr].
      cbn in *. intros [<-|H]; eauto.
  - cbn. intros [<-|[]]; eauto.
Qed.

Lemma dispatch_events (tbl : list tCmdLineEntry) (dflt : option pfnCmdLine)
    (argc : Z) (args : list (list Z)) (ev : event) :
  In ev (snd (dispatch tbl dflt argc args)) ->
  (exists j, ev = TableRead j) \/ (exists k, ev = Invoke k argc args)
  \/ ev = InvokeDefault argc args.
Proof.
  unfold dispatch. destruct (argc =? 0).
  - destruct dflt; cbn; [|tauto]. intros [<-|[]]; auto.
  - pose proof (table_search_events argc args tbl 0%nat ev) as H.
    destruct (table_search tbl 0 argc args) as [[status|] tr]; cbn [snd] in *.
    + intros Hin. destruct (H Hin); auto.
    + destruct dflt; cbn [snd].
      * rewrite in_app_iff. cbn. intros [Hin|[<-|[]]]; auto.
        destruct (H Hin); auto.
      * intros Hin. destruct (H Hin); auto.
Qed.

Lemma table_search_sound (argc : Z) (args : list (list Z)) (arg0 : list Z) :
  args !! 0%nat = Some arg0 -> nul_free arg0 ->
  forall (tbl : list tCmdLineEntry) (i k : nat) (a : Z) (b : list (list Z)),
    In (Invoke k a b) (snd (table_search tbl i argc args)) ->
    exists (j : nat) (e : tCmdLineEntry) (name : list Z),
      k = (i + j)%nat /\ tbl !! j = Some e /\ names tbl !! j = Some name
      /\ same_folded arg0 name
      /\ (forall j' name', (j' < j)%nat -> names tbl !! j' = Some name' ->
                           ~ same_folded arg0 name')
      /\ fst (table_search tbl i argc args) = Some (pfnCmd e argc args).
Proof.
  intros Harg Hnf.
  induction tbl as [|e tbl IH]; intros i k a b; cbn [table_search names]; [by cbn|].
  destruct (pcCmd e) as [name|] eqn:Hname.
  2:{ cbn. intros [H|[]]; discriminate. }
  rewrite Harg. cbn [from_option id].
  destruct (Z.eqb_spec (strcasecmp arg0 (cstring name)) 0) as [Hcmp|Hcmp].
  - cbn. intros [H|[H|[]]]; [discriminate|]. injection H as <- _ _.
    exists 0%nat, e, (cstring name).
    repeat split; auto.
    + apply strcasecmp_same_folded; auto using cstring_is_nul_free.
    + intros j' name' Hj. lia.
  - specialize (IH (S i) k a b).
    destruct (table_search tbl (S i) argc args) as [r tr]. cbn [fst snd] in *.
    intros [H|H]; [discriminate|].
    destruct (IH H) as (j & e' & name' & -> & He & Hn & Hsame & Hfirst & Hr).
    exists (S j), e', name'.
    split; [lia|]. split; [exact He|]. split; [exact Hn|].
    split; [exact Hsame|]. split; [|exact Hr].
    intros [|j'] name'' Hj; cbn.
    + intros [= <-]. by rewrite <- strcasecmp_same_folded
        by auto using cstring_is_nul_free.
    + intros Hn'. apply (Hfirst j' name''); [lia|exact Hn'].
Qed.

Lemma buffer_line (buf : list Z) :
  In NUL buf -> exists junk, buf = cstring buf ++ NUL :: junk.
Proof.
  intros Hin. apply in_split in Hin. destruct Hin as (l & junk & ->).
  destruct (cstring_decompose l junk) as (junk' & E).
  exists junk'. by rewrite cstring_app_nul.
Qed.

(** The status and the events of [CmdLineProcess] on a buffer that holds a
    string are those of the line it holds. *)
Lemma CmdLineProcess_outcome (tbl : list tCmdLineEntry) (st : CommandLine) :
  In NUL (g_cCmdBuf st) ->
  (Z.to_nat CMDLINE_MAX_ARGS <= length (argv st))%nat ->
  (fst (fst (CmdLineProcess tbl st)), snd (CmdLineProcess tbl st))
  = process_line tbl (defaultFunc st) (delimiter st) (cstring (g_cCmdBuf st)).
Proof.
  intros Hnul Hav. destruct (buffer_line _ Hnul) as (junk & Hbuf).
  pose proof (CmdLineProcess_line tbl st (cstring (g_cCmdBuf st)) junk Hbuf
                (cstring_is_nul_free _) Hav) as H.
  cbv zeta in H. destruct (CmdLineProcess tbl st) as [[status st'] tr].
  by destruct H as [H _].
Qed.

Section Handler_calls.

Variable g_sCmdTable : list tCmdLineEntry.

(** X14.  What a handler is called with.  Whatever the line in the buffer,
    every call of a handler of the table or of the default handler gets an
    argument count between 0 and 10 that is the number of its arguments, and
    arguments that are not empty and contain neither a NUL nor the delimiter. *)
Theorem handler_arguments_well_formed (st : CommandLine) (ev : event) :
  In NUL (g_cCmdBuf st) ->
  (Z.to_nat CMDLINE_MAX_ARGS <= length (argv st))%nat ->
  In ev (snd (CmdLineProcess g_sCmdTable st)) ->
  match ev with
  | Invoke _ argc args | InvokeDefault argc args =>
      well_formed_args (delimiter st) argc args
  | _ => True
  end.
Proof.
  intros Hnul Hav Hin.
  pose proof (CmdLineProcess_outcome g_sCmdTable st Hnul Hav) as Hout.
  apply (f_equal snd) in Hout. cbn [snd] in Hout. rewrite Hout in Hin.
  unfold process_line in Hin.
  set (toks := split_collapse (delimiter st) (cstring (g_cCmdBuf st))) in *.
  assert (Hwf : (CMDLINE_MAX_ARGS <? Z.of_nat (length toks)) = false ->
                well_formed_args (delimiter st) (Z.of_nat (length toks)) toks).
  { intros Hle. apply Z.ltb_ge in Hle. split; [reflexivity|]. split; [lia|].
    apply split_collapse_fields, cstring_is_nul_free. }
  destruct (CMDLINE_MAX_ARGS <? Z.of_nat (length toks)); [destruct Hin|].
  apply dispatch_events in Hin.
  destruct Hin as [(j & ->)|[(k & ->)| ->]]; auto.
Qed.

(** X15.  A handler of the table is called only for its own name.  When
    entry [k] of the table is called, the first argument is the name of that
    entry up to the case of its letters, no entry in front of it has such a
    name, and the status of the handler is the status of the line. *)
Theorem table_handler_only_for_its_name (st : CommandLine) (k : nat) (argc : Z)
    (args : list (list Z)) :
  In NUL (g_cCmdBuf st) ->
  (Z.to_nat CMDLINE_MAX_ARGS <= length (argv st))%nat ->
  In (Invoke k argc args) (snd (CmdLineProcess g_sCmdTable st)) ->
  exists (e : tCmdLineEntry) (arg0 name : list Z),
    g_sCmdTable !! k = Some e
    /\ args !! 0%nat = Some arg0
    /\ names g_sCmdTable !! k = Some name
    /\ same_folded arg0 name
    /\ (forall j name', (j < k)%nat -> names g_sCmdTable !! j = Some name' ->
                        ~ same_folded arg0 name')
    /\ fst (fst (CmdLineProcess g_sCmdTable st)) = pfnCmd e argc args.
Proof.
  intros Hnul Hav Hin.
  pose proof (CmdLineProcess_outcome g_sCmdTable st Hnul Hav) as Hout.
  destruct (CmdLineProcess g_sCmdTable st) as [[status st'] tr].
  cbn [fst snd] in *. unfold process_line in Hout.
  set (toks := split_collapse (delimiter st) (cstring (g_cCmdBuf st))) in *.
  pose proof (split_collapse_fields (delimiter st) (cstring (g_cCmdBuf st))
                (cstring_is_nul_free _)) as Hfields. fold toks in Hfields.
  destruct (CMDLINE_MAX_ARGS <? Z.of_nat (length toks));
    [injection Hout as _ ->; destruct Hin|].
  unfold dispatch in Hout.
  destruct toks as [|arg0 toks'] eqn:Htoks.
  { cbn in Hout. destruct (defaultFunc st); injection Hout as _ ->;
      cbn in Hin; intuition discriminate. }
  replace (Z.of_nat (length (arg0 :: toks')) =? 0) with false in Hout
    by (symmetry; apply Z.eqb_neq; cbn [length]; lia).
  assert (Hnf : nul_free arg0) by (inversion Hfields as [|? ? (_ & H & _) _]; exact H).
  pose proof (table_search_sound (Z.of_nat (length (arg0 :: toks'))) (arg0 :: toks')
                arg0 eq_refl Hnf g_sCmdTable 0%nat k argc args) as Hsound.
  pose proof (table_search_events (Z.of_nat (length (arg0 :: toks'))) (arg0 :: toks')
                g_sCmdTable 0%nat (Invoke k argc args)) as Hev.
  destruct (table_search g_sCmdTable 0 (Z.of_nat (length (arg0 :: toks')))
              (arg0 :: toks')) as [r tr0]. cbn [fst snd] in *.
  assert (Hin0 : In (Invoke k argc args) tr0).
  { destruct r as [s|]; [injection Hout as _ ->; exact Hin|].
    destruct (defaultFunc st); injection Hout as _ ->; [|exact Hin].
    apply in_app_iff in Hin. destruct Hin as [Hin|[Hin|[]]]; [exact Hin|discriminate]. }
  destruct (Hev Hin0) as [(j & Hj)|(k' & Hk)]; [discriminate|].
  injection Hk as _ -> ->.
  destruct (Hsound Hin0) as (j & e & name & Hk & He & Hn & Hsame & Hfirst & Hr).
  cbn in Hk. subst j r. injection Hout as -> _.
  exists e, arg0, name. repeat split; auto.
Qed.

(** X16.  A line without a token.  A line that consists of delimiters only
    is not looked up in the table: it goes to the default handler with an
    argument count of 0, and is a bad command when there is none. *)
Theorem blank_line_is_not_looked_up (st : CommandLine) (line junk : list Z) :
  g_cCmdBuf st = line ++ NUL :: junk ->
  Forall (fun c => c = delimiter st) line ->
  delimiter st <> NUL ->
  (Z.to_nat CMDLINE_MAX_ARGS <= length (argv st))%nat ->
  (fst (fst (CmdLineProcess g_sCmdTable st)), snd (CmdLineProcess g_sCmdTable st))
  = match defaultFunc st with
    | None => (CMDLINE_BAD_CMD, [])
    | Some f => (f 0 [], [InvokeDefault 0 []])
    end.
Proof.
  intros Hbuf Hblank Hd Hav.
  assert (Hnf : nul_free line).
  { unfold nul_free. eapply Forall_impl; [exact Hblank|]. cbn. intros c ->. exact Hd. }
  rewrite CmdLineProcess_outcome; [|rewrite Hbuf; apply in_elt|exact Hav].
  rewrite Hbuf, cstring_nul_free by exact Hnf.
  unfold process_line. rewrite split_collapse_blank by exact Hblank.
  cbn. by destruct (defaultFunc st).
Qed.

End Handler_calls.

(** ** A line that arrives in pieces, and a line after a flush *)

Lemma plain_config (st st' : CommandLine) (bytes : list Z) :
  same_config st st' -> forallb (plain st') bytes = forallb (plain st) bytes.
Proof.
  intros Hc. induction bytes as [|b bytes IH]; [reflexivity|].
  cbn [forallb]. rewrite IH. unfold plain.
  by rewrite (is_terminator_config st st' b Hc).
Qed.

Lemma line_events_config (tbl : list tCmdLineEntry) (st st' : CommandLine)
    (ch : Z) (line : list Z) :
  same_config st st' -> line_events tbl st' ch line = line_events tbl st ch line.
Proof.
  intros (_ & _ & E3 & E4 & _ & E6 & E7 & _). unfold line_events.
  by rewrite E3, E4, E6, E7.
Qed.

Lemma appended_app (b1 b2 : list Z) : appended (b1 ++ b2) = appended b1 ++ appended b2.
Proof. unfold appended. by rewrite map_app, List.filter_app. Qed.

Section Pieces.

Variable g_sCmdTable : list tCmdLineEntry.

(** A call that receives plain bytes only, fewer than the counter allows. *)
Lemma plain_partial (st : CommandLine) (body : list Z) :
  wf st ->
  forallb (plain st) body = true ->
  body <> [] ->
  index st + Z.of_nat (length body) < CMD_BUF_SIZE - 1 ->
  let r := DoCmdLine g_sCmdTable st body in
  ret r = 0 /\ unread r = [] /\ trace r = echoes st body
  /\ pending (obj r) = pending st ++ appended body
  /\ index (obj r) = index st + Z.of_nat (length (appended body))
  /\ wf (obj r) /\ same_config st (obj r).
Proof.
  unfold wf, CMD_BUF_SIZE. intros (Hi & Hlen & Hav) Hplain Hne Hfit.
  pose proof (appended_length body) as Hal.
  destruct (stores_spec (appended body) st) as (Hi1 & Hp1 & Hl1); [lia|lia|lia|].
  pose proof (stores_settings (appended body) st) as Hset.
  cbv zeta. rewrite DoCmdLine_scan by exact Hne. unfold CMD_BUF_SIZE.
  replace (Z.to_nat (80 - 1 - index st))
    with (length body + S (Z.to_nat (78 - index st) - length body))%nat by lia.
  pose proof (scan_plain body (S (Z.to_nat (78 - index st) - length body))
                st NUL [] [] Hplain) as Hscan.
  rewrite app_nil_r in Hscan. rewrite Hscan. cbn [scan ret unread trace obj app].
  rewrite Hi1, Hl1. destruct Hset as (E1 & E2 & E3 & E4 & E5 & E6 & E7 & E8).
  rewrite E8.
  split; [reflexivity|]. split; [reflexivity|]. split; [reflexivity|].
  split; [exact Hp1|]. split; [reflexivity|].
  split; [repeat split; try assumption; lia|].
  unfold same_config. tauto.
Qed.

(** X17.  A line may arrive in pieces.  When the bytes of a line, none a
    terminator or a backspace, come in two calls and the line with its
    terminator is within the reach of the loop counter (cursor, bytes and
    terminator fewer than [CMD_BUF_SIZE]), the first call returns 0 having
    read its piece, the second returns 1, and together they do on the stream
    and through the handler pointers what one call does that receives the
    whole line; either way the bytes behind the terminator are left in the
    stream and the cursor is back at 0. *)
Theorem line_in_two_pieces (st : CommandLine) (body1 body2 : list Z) (t : Z)
    (rx : list Z) :
  wf st ->
  forallb (plain st) (body1 ++ body2) = true ->
  body1 <> [] ->
  is_terminator st t = true ->
  index st + Z.of_nat (length (body1 ++ body2)) + 1 < CMD_BUF_SIZE ->
  let r1 := DoCmdLine g_sCmdTable st body1 in
  let r2 := DoCmdLine g_sCmdTable (obj r1) (body2 ++ t :: rx) in
  let r := DoCmdLine g_sCmdTable st (body1 ++ body2 ++ t :: rx) in
  ret r1 = 0 /\ unread r1 = [] /\ ret r2 = 1 /\ ret r = 1
  /\ trace r1 ++ trace r2 = trace r
  /\ unread r2 = rx /\ unread r = rx
  /\ index (obj r2) = 0 /\ index (obj r) = 0.
Proof.
  intros Hwf Hplain Hne Hterm Hfit. cbv zeta.
  rewrite forallb_app in Hplain. apply andb_prop in Hplain. destruct Hplain as [Hp1 Hp2].
  rewrite length_app in Hfit.
  destruct (plain_partial st body1 Hwf Hp1 Hne)
    as (Hr1 & Hu1 & Ht1 & Hpend1 & Hi1 & Hwf1 & Hc1);
    [unfold CMD_BUF_SIZE in *; lia|].
  pose proof (appended_length body1) as Hal.
  destruct (plain_line_call g_sCmdTable (obj (DoCmdLine g_sCmdTable st body1))
              body2 t rx Hwf1)
    as (Hr2 & Hu2 & Hi2 & _ & Ht2).
  { by rewrite (plain_config st _ body2 Hc1). }
  { by rewrite (is_terminator_config st _ t Hc1). }
  { rewrite Hi1. lia. }
  destruct (plain_line_call g_sCmdTable st (body1 ++ body2) t rx Hwf)
    as (Hr & Hu & Hi & _ & Ht).
  { rewrite forallb_app. by rewrite Hp1, Hp2. }
  { exact Hterm. }
  { rewrite length_app. lia. }
  rewrite <- app_assoc in Hr, Hu, Hi, Ht.
  split; [exact Hr1|]. split; [exact Hu1|]. split; [exact Hr2|]. split; [exact Hr|].
  split; [|auto].
  rewrite Ht1, Ht2, Ht, Hpend1.
  rewrite (echoes_config st _ _ Hc1), (line_events_config _ st _ _ _ Hc1).
  rewrite appended_app. unfold echoes. rewrite !flat_map_app.
  by rewrite <- !app_assoc.
Qed.

(** X18.  [FlushReceive] drops the line being assembled, and nothing else:
    it reads no byte of the stream, and the next line that comes in is
    processed without the characters received before the flush. *)
Theorem flush_discards_partial_line (st : CommandLine) (body : list Z) (t : Z)
    (rx : list Z) :
  wf st ->
  forallb (plain st) body = true ->
  is_terminator st t = true ->
  Z.of_nat (length body) + 1 < CMD_BUF_SIZE ->
  let r := DoCmdLine g_sCmdTable (FlushReceive st) (body ++ t :: rx) in
  wf (FlushReceive st) /\ pending (FlushReceive st) = []
  /\ ret r = 1 /\ unread r = rx
  /\ trace r
     = echoes st (body ++ [t])
       ++ line_events g_sCmdTable st (Z.land t 127)
            (cstring (appended body ++ kept [] t)).
Proof.
  intros Hwf Hplain Hterm Hfit. cbv zeta.
  assert (Hc : same_config st (FlushReceive st)) by (unfold same_config; cbn; tauto).
  assert (Hwf' : wf (FlushReceive st)).
  { destruct Hwf as (Hi & Hlen & Hav). unfold wf, FlushReceive. cbn.
    rewrite length_insert. unfold CMD_BUF_SIZE in *. repeat split; try assumption; lia. }
  assert (Hpend : pending (FlushReceive st) = []) by reflexivity.
  destruct (plain_line_call g_sCmdTable (FlushReceive st) body t rx Hwf')
    as (Hr & Hu & _ & _ & Ht).
  { by rewrite (plain_config st _ body Hc). }
  { by rewrite (is_terminator_config st _ t Hc). }
  { cbn. lia. }
  split; [exact Hwf'|]. split; [exact Hpend|]. split; [exact Hr|]. split; [exact Hu|].
  rewrite Ht, Hpend. cbn [app].
  by rewrite (echoes_config st _ _ Hc), (line_events_config _ st _ _ _ Hc).
Qed.

End Pieces.

(** ** The setter of the terminators *)


(** ** ShowCommands *)


Lemma printed_in_names (tbl : list tCmdLineEntry) (help_info_disable : bool)
    (name : list Z) :
  In (Print name) (ShowCommands tbl help_info_disable) -> In name (names tbl).
Proof.
  induction tbl as [|e tbl IH]; [intros []|].
  cbn [ShowCommands names]. destruct (pcCmd e) as [n|]; [|intros []].
  intros [H|[H|H]].
  - injection H as ->. by left.
  - destruct (negb help_info_disable); discriminate.
  - right. by apply IH.
Qed.

Lemma split_on_single (d : Z) (s : list Z) : ~ In d s -> split_on d s = [s].
Proof.
  induction s as [|c s IH]; intros Hd; [reflexivity|].
  cbn [split_on]. destruct (Z.eqb_spec c d) as [->|_]; [destruct Hd; by left|].
  rewrite IH; [reflexivity|]. intros H. apply Hd. by right.
Qed.

Lemma table_search_finds (argc : Z) (args : list (list Z)) (arg0 name : list Z) :
  args !! 0%nat = Some arg0 -> nul_free arg0 ->
  same_folded arg0 name ->
  forall (tbl : list tCmdLineEntry) (i : nat),
    In name (names tbl) ->
    exists (k : nat) (e : tCmdLineEntry) (name' : list Z),
      tbl !! k = Some e /\ names tbl !! k = Some name' /\ same_folded arg0 name'
      /\ table_search tbl i argc args
         = (Some (pfnCmd e argc args),
            map TableRead (seq i (S k)) ++ [Invoke (i + k) argc args]).
Proof.
  intros Harg Hnf Hsame.
  induction tbl as [|e tbl IH]; intros i; cbn [names table_search]; [intros []|].
  destruct (pcCmd e) as [n|] eqn:Hn; [|intros []].
  rewrite Harg. cbn [from_option id].
  destruct (Z.eqb_spec (strcasecmp arg0 (cstring n)) 0) as [Hcmp|Hcmp].
  - intros _. exists 0%nat, e, (cstring n).
    split; [reflexivity|]. split; [reflexivity|].
    split; [by apply strcasecmp_same_folded; auto using cstring_is_nul_free|].
    cbn. by rewrite Nat.add_0_r.
  - intros [<-|Hin].
    + exfalso. apply Hcmp.
      by apply strcasecmp_same_folded; auto using cstring_is_nul_free.
    + destruct (IH (S i) Hin) as (k & e' & name' & He & Hn' & Hs & Hsearch).
      exists (S k), e', name'.
      split; [exact He|]. split; [exact Hn'|]. split; [exact Hs|].
      rewrite Hsearch. cbn. by rewrite Nat.add_succ_r.
Qed.

Section Listing.

Variable g_sCmdTable : list tCmdLineEntry.


(** X21.  A listed command is a known command.  A line that consists of a
    name [ShowCommands] prints, when the name is not empty and holds no
    delimiter, is answered by a handler of the table, called with that name
    as its only argument: by the first entry whose name is the same up to the
    case of the letters, which need not be the entry listed. *)
Theorem listed_command_is_dispatched (st : CommandLine) (help_info_disable : bool)
    (name junk : list Z) :
  In (Print name) (ShowCommands g_sCmdTable help_info_disable) ->
  name <> [] ->
  ~ In (delimiter st) name ->
  g_cCmdBuf st = name ++ NUL :: junk ->
  (Z.to_nat CMDLINE_MAX_ARGS <= length (argv st))%nat ->
  exists (k : nat) (e : tCmdLineEntry) (name' : list Z),
    g_sCmdTable !! k = Some e
    /\ names g_sCmdTable !! k = Some name'
    /\ same_folded name name'
    /\ fst (fst (CmdLineProcess g_sCmdTable st)) = pfnCmd e 1 [name]
    /\ snd (CmdLineProcess g_sCmdTable st)
       = map TableRead (seq 0 (S k)) ++ [Invoke k 1 [name]].
Proof.
  intros Hin Hne Hd Hbuf Hav.
  assert (Hname : In name (names g_sCmdTable)).
  { by apply (printed_in_names g_sCmdTable help_info_disable). }
  assert (Hnf : nul_free name).
  { clear - Hname. induction g_sCmdTable as [|e tbl IH]; [destruct Hname|].
    cbn [names] in Hname. destruct (pcCmd e); [|destruct Hname].
    destruct Hname as [<-|H]; [apply cstring_is_nul_free|by apply IH]. }
  pose proof (CmdLineProcess_outcome g_sCmdTable st) as Hout.
  rewrite Hbuf, cstring_nul_free in Hout by exact Hnf.
  specialize (Hout (in_elt _ _ _) Hav).
  unfold process_line, split_collapse in Hout.
  rewrite split_on_single in Hout by exact Hd.
  destruct name as [|c name0]; [contradiction|].
  cbn [List.filter nonempty length] in Hout.
  change (CMDLINE_MAX_ARGS <? Z.of_nat 1) with false in Hout. cbv iota in Hout.
  unfold dispatch in Hout. change (Z.of_nat 1 =? 0) with false in Hout. cbv iota in Hout.
  destruct (table_search_finds (Z.of_nat 1) [c :: name0] (c :: name0) (c :: name0)
              eq_refl Hnf eq_refl g_sCmdTable 0%nat Hname)
    as (k & e & name' & He & Hn & Hs & Hsearch).
  rewrite Hsearch in Hout. cbn [Nat.add] in Hout.
  exists k, e, name'.
  split; [exact He|]. split; [exact Hn|]. split; [exact Hs|].
  split; [exact (f_equal fst Hout)|exact (f_equal snd Hout)].
Qed.

End Listing.

(** ** Instances of the properties above *)

(** The cursor at 2 and 77 line feeds: the call ends the line [ab]. *)
Lemma loop_counter_runs_out_witness :
  let st := holding default_CommandLine (cstr "ab") in
  let rx := replicate 77 LF ++ cstr "x" in
  let r := DoCmdLine demo_table st rx in
  ret r = 1 /\ unread r = drop (room st) rx /\ index (obj r) = 0
  /\ echoed (trace r) = echoes st (take (room st) rx).
Proof.
  apply (loop_counter_runs_out demo_table (holding default_CommandLine (cstr "ab"))
           (replicate 77 LF ++ cstr "x")).
  - apply wf_holding. vm_compute. discriminate.
  - vm_compute. lia.
  - vm_compute. reflexivity.
Defined.



Lemma status_is_reported_witness :
  let tr := trace (DoCmdLine demo_table default_CommandLine (cstr "frob" ++ [CR])) in
  let nStatus :=
    fst (process_line demo_table (defaultFunc default_CommandLine)
           (delimiter default_CommandLine) (cstr "frob")) in
  if errorFunc default_CommandLine
  then error_calls tr = [InvokeError nStatus] /\ messages tr = []
  else messages tr = report nStatus /\ error_calls tr = []
       /\ (nStatus = 0 -> messages tr = []).
Proof.
  apply (status_is_reported demo_table default_CommandLine (cstr "frob") CR []
           102 (cstr "rob")).
  - apply wf_default.
  - vm_compute. reflexivity.
  - vm_compute. reflexivity.
  - vm_compute. reflexivity.
  - vm_compute. reflexivity.
Defined.

Lemma terminator_on_empty_buffer_witness :
  let r := DoCmdLine demo_table default_CommandLine [CR] in
  ret r = 1 /\ unread r = [] /\ index (obj r) = 0
  /\ (is_crlf (Z.land CR 127) = true \/ Z.land CR 127 = NUL ->
      trace r = echo default_CommandLine (Z.land CR 127))
  /\ (is_crlf (Z.land CR 127) = false -> Z.land CR 127 <> NUL ->
      trace r = echo default_CommandLine (Z.land CR 127)
                ++ line_events demo_table default_CommandLine (Z.land CR 127)
                     [Z.land CR 127]).
Proof.
  apply (terminator_on_empty_buffer demo_table default_CommandLine CR []).
  - apply wf_default.
  - reflexivity.
  - vm_compute. reflexivity.
Defined.

Lemma decimal_value_wraps_witness :
  ParseParam (cstr "-2147483649" ++ [NUL]) = Some (DECVAL, Some 2147483647).
Proof.
  apply (decimal_value_wraps true (cstr "2147483649") []).
  - discriminate.
  - vm_compute. reflexivity.
  - vm_compute. reflexivity.
Defined.

Lemma hex_value_wraps_witness :
  ParseParam (cstr "0xffffFFFF" ++ [NUL]) = Some (HEXVAL, Some (-1)).
Proof.
  apply (hex_value_wraps 120 (cstr "ffffFFFF") []).
  - left. reflexivity.
  - vm_compute. reflexivity.
  - vm_compute. reflexivity.
Defined.

Lemma long_number_never_returns_witness :
  ParseParam_fuel 1000 (replicate 256 49 ++ [NUL]) = None.
Proof.
  apply (long_number_never_returns false (replicate 256 49) []
           (replicate 256 49 ++ [NUL])).
  - vm_compute. reflexivity.
  - vm_compute. reflexivity.
  - vm_compute. reflexivity.
Defined.

Lemma leading_whitespace_is_skipped_witness :
  ParseParam (cstr "  42" ++ [NUL]) = ParseParam (cstr "42" ++ [NUL]).
Proof.
  apply (leading_whitespace_is_skipped (cstr "  ") (cstr "42" ++ [NUL])).
  - vm_compute. reflexivity.
  - vm_compute. discriminate.
Defined.

Lemma character_behind_digits_is_rejected_witness :
  ParseParam (cstr "12 " ++ [NUL]) = Some (BADPARAM, None).
Proof.
  apply (character_behind_digits_is_rejected false (cstr "12") 32 [] []).
  - discriminate.
  - vm_compute. reflexivity.
  - vm_compute. discriminate.
  - vm_compute. reflexivity.
  - discriminate.
  - vm_compute. discriminate.
  - constructor.
Defined.

Lemma handler_arguments_well_formed_witness :
  well_formed_args 32 3 [cstr "add"; cstr "1"; cstr "2"].
Proof.
  apply (handler_arguments_well_formed demo_table
           (holding default_CommandLine (cstr "add  1 2"))
           (Invoke 0 3 [cstr "add"; cstr "1"; cstr "2"])).
  - apply (in_elt NUL (cstr "add  1 2") (replicate 71 NUL)).
  - vm_compute. lia.
  - apply (in_elt (Invoke 0 3 [cstr "add"; cstr "1"; cstr "2"]) [TableRead 0] []).
Defined.

Lemma table_handler_only_for_its_name_witness :
  let st := holding default_CommandLine (cstr "List x") in
  exists (e : tCmdLineEntry) (arg0 name : list Z),
    demo_table !! 1%nat = Some e
    /\ [cstr "List"; cstr "x"] !! 0%nat = Some arg0
    /\ names demo_table !! 1%nat = Some name
    /\ same_folded arg0 name
    /\ (forall j name', (j < 1)%nat -> names demo_table !! j = Some name' ->
                        ~ same_folded arg0 name')
    /\ fst (fst (CmdLineProcess demo_table st)) = pfnCmd e 2 [cstr "List"; cstr "x"].
Proof.
  apply (table_handler_only_for_its_name demo_table
           (holding default_CommandLine (cstr "List x")) 1 2 [cstr "List"; cstr "x"]).
  - apply (in_elt NUL (cstr "List x") (replicate 73 NUL)).
  - vm_compute. lia.
  - apply (in_elt (Invoke 1 2 [cstr "List"; cstr "x"]) [TableRead 0; TableRead 1] []).
Defined.

Lemma blank_line_is_not_looked_up_witness :
  let st := holding default_CommandLine (cstr "   ") in
  (fst (fst (CmdLineProcess demo_table st)), snd (CmdLineProcess demo_table st))
  = (CMDLINE_BAD_CMD, []).
Proof.
  apply (blank_line_is_not_looked_up demo_table
           (holding default_CommandLine (cstr "   ")) (cstr "   ") (replicate 76 NUL)).
  - reflexivity.
  - repeat constructor.
  - discriminate.
  - vm_compute. lia.
Defined.

Lemma line_in_two_pieces_witness :
  let r1 := DoCmdLine demo_table default_CommandLine (cstr "li") in
  let r2 := DoCmdLine demo_table (obj r1) (cstr "st" ++ [CR]) in
  let r := DoCmdLine demo_table default_CommandLine (cstr "list" ++ [CR]) in
  ret r1 = 0 /\ unread r1 = [] /\ ret r2 = 1 /\ ret r = 1
  /\ trace r1 ++ trace r2 = trace r
  /\ unread r2 = [] /\ unread r = []
  /\ index (obj r2) = 0 /\ index (obj r) = 0.
Proof.
  apply (line_in_two_pieces demo_table default_CommandLine (cstr "li") (cstr "st")
           CR []).
  - apply wf_default.
  - vm_compute. reflexivity.
  - discriminate.
  - vm_compute. reflexivity.
  - vm_compute. reflexivity.
Defined.

Lemma flush_discards_partial_line_witness :
  let st := holding default_CommandLine (cstr "junk") in
  let r := DoCmdLine demo_table (FlushReceive st) (cstr "list" ++ [CR]) in
  wf (FlushReceive st) /\ pending (FlushReceive st) = []
  /\ ret r = 1 /\ unread r = []
  /\ trace r
     = echoes st (cstr "list" ++ [CR])
       ++ line_events demo_table st CR (cstr "list").
Proof.
  apply (flush_discards_partial_line demo_table
           (holding default_CommandLine (cstr "junk")) (cstr "list") CR []).
  - apply wf_holding. vm_compute. discriminate.
  - vm_compute. reflexivity.
  - vm_compute. reflexivity.
  - vm_compute. reflexivity.
Defined.


(** The name [list] is listed for entry 2 and answered by entry 1. *)
Lemma listed_command_is_dispatched_witness :
  let st := holding default_CommandLine (cstr "list") in
  exists (k : nat) (e : tCmdLineEntry) (name' : list Z),
    demo_table !! k = Some e
    /\ names demo_table !! k = Some name'
    /\ same_folded (cstr "list") name'
    /\ fst (fst (CmdLineProcess demo_table st)) = pfnCmd e 1 [cstr "list"]
    /\ snd (CmdLineProcess demo_table st)
       = map TableRead (seq 0 (S k)) ++ [Invoke k 1 [cstr "list"]].
Proof.
  apply (listed_command_is_dispatched demo_table
           (holding default_CommandLine (cstr "list")) false (cstr "list")
           (replicate 75 NUL)).
  - apply (in_elt (Print (cstr "list"))
             [Print (cstr "add"); PrintLine (cstr " a b"); Print (cstr "LIST");
              PrintLine []]
             [PrintLine []]).
  - discriminate.
  - vm_compute. intuition discriminate.
  - reflexivity.
  - vm_compute. lia.
Defined.

(** ** The assembler as a function of the bytes received *)

Lemma edit_config (st st' : CommandLine) (line : list Z) (b : Z) :
  same_config st st' -> edit st' line b = edit st line b.
Proof. intros Hc. unfold edit. by rewrite (is_terminator_config st st' b Hc). Qed.

Lemma assembled_config (st st' : CommandLine) (bytes : list Z) :
  same_config st st' ->
  forall line, assembled st' line bytes = assembled st line bytes.
Proof.
  intros Hc. unfold assembled.
  induction bytes as [|b bytes IH]; intros line; [reflexivity|].
  cbn [fold_left]. by rewrite IH, (edit_config st st' line b Hc).
Qed.

Lemma assembled_app (st : CommandLine) (line b1 b2 : list Z) :
  assembled st line (b1 ++ b2) = assembled st (assembled st line b1) b2.
Proof. unfold assembled. apply fold_left_app. Qed.

Lemma pending_length (st : CommandLine) :
  0 <= index st <= Z.of_nat (length (g_cCmdBuf st)) ->
  Z.of_nat (length (pending st)) = index st.
Proof. intros Hi. unfold pending. rewrite length_take. lia. Qed.

Lemma backspace_buffer (st : CommandLine) : g_cCmdBuf (backspace st) = g_cCmdBuf st.
Proof. unfold backspace. by destruct (index st =? 0). Qed.

Lemma last_cons_default (c c0 : Z) (l : list Z) :
  default c (last (c0 :: l)) = default c0 (last l).
Proof.
  revert c c0. induction l as [|c1 l IH]; intros c c0; [reflexivity|].
  change (last (c0 :: c1 :: l)) with (last (c1 :: l)).
  by rewrite !IH.
Qed.

(** One turn of the loop on a byte that is no terminator. *)
Lemma scan_step (n : nat) (st : CommandLine) (ch b : Z) (rx : list Z)
    (tr : list event) :
  is_terminator st b = false ->
  0 <= index st ->
  index st + Z.of_nat (S n) <= CMD_BUF_SIZE - 1 ->
  Z.of_nat (length (g_cCmdBuf st)) = CMD_BUF_SIZE ->
  exists st1,
    scan (S n) st ch (b :: rx) tr
    = scan n st1 (Z.land b 127) rx (tr ++ echo st (Z.land b 127))
    /\ pending st1 = edit st (pending st) b
    /\ same_config st st1
    /\ 0 <= index st1 /\ index st1 + Z.of_nat n <= CMD_BUF_SIZE - 1
    /\ Z.of_nat (length (g_cCmdBuf st1)) = CMD_BUF_SIZE.
Proof.
  unfold CMD_BUF_SIZE. intros Ht Hi Hn Hlen.
  cbn [scan]. unfold edit. rewrite Ht. unfold is_terminator in Ht. rewrite Ht.
  destruct (Z.land b 127 =? CHAR_BS).
  - exists (backspace st).
    destruct (backspace_spec st) as (Hp & Hi1 & _); [lia|lia|].
    rewrite backspace_buffer.
    split; [reflexivity|]. split; [exact Hp|]. split; [apply backspace_config|]. lia.
  - destruct (Z.land b 127 =? LF).
    + exists st. split; [reflexivity|]. split; [reflexivity|].
      split; [apply same_config_refl|]. lia.
    + exists (store_char st (Z.land b 127)).
      destruct (store_char_spec st (Z.land b 127)) as (Hi1 & Hp & Hl); [lia|lia|].
      split; [reflexivity|]. split; [exact Hp|].
      split; [apply store_char_config|]. lia.
Qed.

(** The turn of the loop on a terminator. *)
Lemma scan_stop (n : nat) (st : CommandLine) (ch b : Z) (rx : list Z)
    (tr : list event) :
  is_terminator st b = true ->
  0 <= index st ->
  index st + Z.of_nat (S n) <= CMD_BUF_SIZE - 1 ->
  Z.of_nat (length (g_cCmdBuf st)) = CMD_BUF_SIZE ->
  exists st1,
    scan (S n) st ch (b :: rx) tr
    = LoopEnd st1 (Z.land b 127) rx (tr ++ echo st (Z.land b 127))
    /\ pending st1 = edit st (pending st) b
    /\ same_config st st1
    /\ 0 <= index st1 <= CMD_BUF_SIZE - 1
    /\ Z.of_nat (length (g_cCmdBuf st1)) = CMD_BUF_SIZE.
Proof.
  unfold CMD_BUF_SIZE. intros Ht Hi Hn Hlen.
  cbn [scan]. unfold edit. rewrite Ht. unfold is_terminator in Ht. rewrite Ht.
  destruct (is_crlf (Z.land b 127)); cbn [negb].
  - exists st. split; [reflexivity|]. split; [reflexivity|].
    split; [apply same_config_refl|]. lia.
  - exists (store_char st (Z.land b 127)).
    destruct (store_char_spec st (Z.land b 127)) as (Hi1 & Hp & Hl); [lia|lia|].
    split; [reflexivity|]. split; [exact Hp|].
    split; [apply store_char_config|]. lia.
Qed.

(** A run of bytes without a terminator, within the reach of the counter. *)
Lemma scan_edits (body : list Z) :
  forall (n : nat) (st : CommandLine) (ch : Z) (rx : list Z) (tr : list event),
    existsb (is_terminator st) body = false ->
    0 <= index st ->
    index st + Z.of_nat (length body + n) <= CMD_BUF_SIZE - 1 ->
    Z.of_nat (length (g_cCmdBuf st)) = CMD_BUF_SIZE ->
    exists st',
      scan (length body + n) st ch (body ++ rx) tr
      = scan n st' (default ch (last (map (fun b => Z.land b 127) body))) rx
             (tr ++ echoes st body)
      /\ pending st' = assembled st (pending st) body
      /\ same_config st st'
      /\ 0 <= index st' /\ index st' + Z.of_nat n <= CMD_BUF_SIZE - 1
      /\ Z.of_nat (length (g_cCmdBuf st')) = CMD_BUF_SIZE.
Proof.
  induction body as [|b body IH]; intros n st ch rx tr Hnt Hi Hn Hlen.
  - exists st. cbn. rewrite app_nil_r.
    split; [reflexivity|]. split; [reflexivity|].
    split; [apply same_config_refl|]. cbn in Hn. lia.
  - cbn [existsb] in Hnt. apply orb_false_elim in Hnt. destruct Hnt as [Hb Hnt].
    cbn [length Nat.add app].
    destruct (scan_step (length body + n) st ch b (body ++ rx) tr Hb Hi)
      as (st1 & Hscan & Hp1 & Hc1 & Hi1 & Hn1 & Hl1);
      [cbn [length Nat.add] in Hn; lia|exact Hlen|].
    destruct (IH n st1 (Z.land b 127) rx (tr ++ echo st (Z.land b 127)))
      as (st' & Hscan' & Hp' & Hc' & Hi' & Hn' & Hl');
      [by rewrite (no_terminator_config st st1 body Hc1)|exact Hi1|exact Hn1|exact Hl1|].
    exists st'. rewrite Hscan, Hscan'.
    split.
    + cbn [map]. rewrite last_cons_default.
      rewrite (echoes_config st st1 body Hc1). unfold echoes. cbn [flat_map].
      by rewrite <- app_assoc.
    + split; [|split; [exact (same_config_trans _ _ _ Hc1 Hc')|auto]].
      rewrite Hp', Hp1. by rewrite (assembled_config st st1 body Hc1).
Qed.

(** Any run of the loop: what it has read, written back and assembled. *)
Lemma scan_assembled (n : nat) :
  forall (st : CommandLine) (ch : Z) (rx : list Z) (tr : list event),
    0 <= index st ->
    index st + Z.of_nat n <= CMD_BUF_SIZE - 1 ->
    Z.of_nat (length (g_cCmdBuf st)) = CMD_BUF_SIZE ->
    match scan n st ch rx tr with
    | NoData st' tr' =>
        tr' = tr ++ echoes st rx
        /\ pending st' = assembled st (pending st) rx
        /\ same_config st st'
    | LoopEnd st' ch' rx' tr' =>
        exists consumed,
          rx = consumed ++ rx'
          /\ tr' = tr ++ echoes st consumed
          /\ ch' = default ch (last (map (fun b => Z.land b 127) consumed))
          /\ pending st' = assembled st (pending st) consumed
          /\ same_config st st'
    end.
Proof.
  induction n as [|n IH]; intros st ch rx tr Hi Hn Hlen.
  - cbn [scan]. exists []. rewrite app_nil_r.
    repeat split; try reflexivity; apply same_config_refl.
  - destruct rx as [|b rx].
    + cbn [scan]. rewrite app_nil_r.
      repeat split; try reflexivity; apply same_config_refl.
    + destruct (is_terminator st b) eqn:Hb.
      * destruct (scan_stop n st ch b rx tr Hb Hi Hn Hlen)
          as (st1 & Hscan & Hp1 & Hc1 & _).
        rewrite Hscan. exists [b]. cbn. rewrite app_nil_r. auto.
      * destruct (scan_step n st ch b rx tr Hb Hi Hn Hlen)
          as (st1 & Hscan & Hp1 & Hc1 & Hi1 & Hn1 & Hl1).
        rewrite Hscan.
        specialize (IH st1 (Z.land b 127) rx (tr ++ echo st (Z.land b 127))
                      Hi1 Hn1 Hl1).
        destruct (scan n st1 (Z.land b 127) rx (tr ++ echo st (Z.land b 127)))
          as [st' tr'|st' ch' rx' tr'].
        -- destruct IH as (Htr & Hp & Hc).
           split; [|split; [|exact (same_config_trans _ _ _ Hc1 Hc)]].
           ++ rewrite Htr, (echoes_config st st1 rx Hc1). unfold echoes.
              cbn [flat_map]. by rewrite <- app_assoc.
           ++ rewrite Hp, Hp1. by rewrite (assembled_config st st1 rx Hc1).
        -- destruct IH as (consumed & Hrx & Htr & Hch & Hp & Hc).
           exists (b :: consumed).
           split; [by rewrite Hrx|].
           split; [|split; [|split; [|exact (same_config_trans _ _ _ Hc1 Hc)]]].
           ++ rewrite Htr, (echoes_config st st1 consumed Hc1). unfold echoes.
              cbn [flat_map]. by rewrite <- app_assoc.
           ++ cbn [map]. by rewrite last_cons_default.
           ++ rewrite Hp, Hp1. by rewrite (assembled_config st st1 consumed Hc1).
Qed.

(** The tokenizing loop only writes NUL: a NUL of the buffer stays. *)
Lemma tok_loop_keeps_nul (d : Z) (n : nat) (k : nat) :
  forall (buf : list Z) (p : nat) (argc : Z) (bFindArg : bool) (av : list nat),
    buf !! k = Some NUL ->
    match tok_loop d n buf p argc bFindArg av with
    | TooManyArgs buf' _ | EndOfLine buf' _ _ => buf' !! k = Some NUL
    end.
Proof.
  induction n as [|n IH]; intros buf p argc bFindArg av Hk; cbn [tok_loop]; [exact Hk|].
  destruct (_ =? NUL); [exact Hk|].
  destruct (_ =? d).
  - apply IH. destruct (decide (p = k)) as [->|Hne].
    + apply list_lookup_insert_eq. by eapply lookup_lt_Some.
    + by rewrite list_lookup_insert_ne.
  - destruct bFindArg; [|by apply IH].
    destruct (argc <? CMDLINE_MAX_ARGS); [by apply IH|exact Hk].
Qed.

Section Assembled_lines.

Variable g_sCmdTable : list tCmdLineEntry.

(** The NUL stored at the cursor before the buffer is read is still there
    when the call returns. *)
Lemma finish_line_nul (st : CommandLine) (ch : Z) (rx : list Z) (tr : list event) :
  0 <= index st < Z.of_nat (length (g_cCmdBuf st)) ->
  g_cCmdBuf (obj (finish_line g_sCmdTable st ch rx tr)) !! Z.to_nat (index st)
  = Some NUL.
Proof.
  intros Hi. destruct (terminate_line_spec st Hi) as [Hnul _].
  unfold finish_line. destruct (_ >? 0); [|exact Hnul].
  unfold CmdLineProcess.
  pose proof (tok_loop_keeps_nul (delimiter (terminate_line st))
                (length (g_cCmdBuf (terminate_line st))) (Z.to_nat (index st))
                (g_cCmdBuf (terminate_line st)) 0 0 true (argv (terminate_line st))
                Hnul) as Hkeep.
  destruct tok_loop as [buf av|buf argc av].
  - exact Hkeep.
  - destruct dispatch as [status tr']. exact Hkeep.
Qed.

(** A call that receives bytes without a terminator, fewer than the counter
    has values left. *)
Lemma edited_partial (st : CommandLine) (body : list Z) :
  wf st ->
  existsb (is_terminator st) body = false ->
  body <> [] ->
  index st + Z.of_nat (length body) < CMD_BUF_SIZE - 1 ->
  let r := DoCmdLine g_sCmdTable st body in
  ret r = 0 /\ unread r = [] /\ trace r = echoes st body
  /\ pending (obj r) = assembled st (pending st) body
  /\ 0 <= index (obj r) <= CMD_BUF_SIZE - 2
  /\ Z.of_nat (length (g_cCmdBuf (obj r))) = CMD_BUF_SIZE
  /\ same_config st (obj r).
Proof.
  unfold wf, CMD_BUF_SIZE. intros (Hi & Hlen & Hav) Hnt Hne Hfit. cbv zeta.
  rewrite DoCmdLine_scan by exact Hne. unfold CMD_BUF_SIZE.
  replace (Z.to_nat (80 - 1 - index st))
    with (length body + S (Z.to_nat (78 - index st) - length body))%nat by lia.
  destruct (scan_edits body (S (Z.to_nat (78 - index st) - length body)) st NUL
              [] [] Hnt)
    as (st' & Hscan & Hp & Hc & Hi' & Hn' & Hl');
    [lia|unfold CMD_BUF_SIZE; lia|exact Hlen|].
  rewrite app_nil_r in Hscan. rewrite Hscan. cbn [scan ret unread trace obj app].
  unfold CMD_BUF_SIZE in *.
  split; [reflexivity|]. split; [reflexivity|]. split; [reflexivity|].
  split; [exact Hp|]. split; [lia|]. split; [exact Hl'|exact Hc].
Qed.

(** The call that receives the rest of a line and its terminator. *)
Lemma edited_line_call (st : CommandLine) (body : list Z) (t : Z) (rx : list Z) :
  wf st ->
  existsb (is_terminator st) body = false ->
  is_terminator st t = true ->
  index st + Z.of_nat (length body) + 1 < CMD_BUF_SIZE ->
  let line := cstring (assembled st (pending st) (body ++ [t])) in
  let toks := split_collapse (delimiter st) line in
  let r := DoCmdLine g_sCmdTable st (body ++ t :: rx) in
  ret r = 1 /\ unread r = rx /\ index (obj r) = 0 /\ wf (obj r)
  /\ trace r = echoes st (body ++ [t]) ++ line_events g_sCmdTable st (Z.land t 127) line
  /\ (Z.of_nat (length toks) <= CMDLINE_MAX_ARGS ->
      arg_strings (g_cCmdBuf (obj r)) (Z.of_nat (length toks)) (argv (obj r)) = toks).
Proof.
  unfold wf, CMD_BUF_SIZE. intros (Hi & Hlen & Hav) Hnt Hterm Hfit. cbv zeta.
  rewrite DoCmdLine_scan by (destruct body; discriminate). unfold CMD_BUF_SIZE.
  replace (Z.to_nat (80 - 1 - index st))
    with (length body + S (Z.to_nat (78 - index st) - length body))%nat by lia.
  destruct (scan_edits body (S (Z.to_nat (78 - index st) - length body)) st NUL
              (t :: rx) [] Hnt)
    as (st1 & Hscan & Hp1 & Hc1 & Hi1 & Hn1 & Hl1);
    [lia|unfold CMD_BUF_SIZE; lia|exact Hlen|].
  rewrite Hscan.
  destruct (scan_stop (Z.to_nat (78 - index st) - length body) st1
              (default NUL (last (map (fun b => Z.land b 127) body))) t rx
              ([] ++ echoes st body))
    as (st2 & Hstop & Hp2 & Hc2 & Hi2 & Hl2);
    [by rewrite (is_terminator_config st st1 t Hc1)|exact Hi1|exact Hn1|exact Hl1|].
  rewrite Hstop.
  pose proof (same_config_trans _ _ _ Hc1 Hc2) as Hc.
  destruct (finish_line_spec g_sCmdTable st2 (Z.land t 127) rx
              (([] ++ echoes st body) ++ echo st1 (Z.land t 127)))
    as (Hret & Hun & Hidx & Hwf & Htr & Hargs).
  { unfold CMD_BUF_SIZE in *. lia. }
  { exact Hl2. }
  { destruct Hc as (_ & _ & _ & _ & _ & _ & _ & E8). by rewrite E8. }
  assert (Hline : pending st2 = assembled st (pending st) (body ++ [t])).
  { rewrite Hp2, Hp1, assembled_app. cbn. by rewrite (edit_config st st1 _ t Hc1). }
  rewrite Hline in Htr, Hargs.
  assert (Hd : delimiter st2 = delimiter st) by apply Hc.
  rewrite Hd in Hargs.
  split; [exact Hret|]. split; [exact Hun|]. split; [exact Hidx|].
  split; [exact Hwf|]. split; [|exact Hargs].
  rewrite Htr, (line_events_config _ st st2 _ _ Hc), (echo_config st st1 _ Hc1).
  unfold echoes. rewrite flat_map_app. cbn. by rewrite app_nil_r.
Qed.

(** Any call that returns 1: what it has read, and the string it has found
    in the buffer. *)
Lemma DoCmdLine_reads_string (st : CommandLine) (rx : list Z) :
  wf st ->
  let r := DoCmdLine g_sCmdTable st rx in
  ret r = 1 ->
  exists consumed,
    rx = consumed ++ unread r
    /\ let line := assembled st (pending st) consumed in
       Z.of_nat (length line) <= CMD_BUF_SIZE - 1
       /\ g_cCmdBuf (obj r) !! length line = Some NUL
       /\ Z.of_nat (length (g_cCmdBuf (obj r))) = CMD_BUF_SIZE
       /\ trace r
          = echoes st consumed
            ++ line_events g_sCmdTable st
                 (default NUL (last (map (fun b => Z.land b 127) consumed)))
                 (cstring line).
Proof.
  intros Hwf. pose proof Hwf as (Hi & Hlen & Hav). unfold CMD_BUF_SIZE in *. cbv zeta.
  destruct rx as [|b rx]; [discriminate|].
  rewrite DoCmdLine_scan by discriminate. unfold CMD_BUF_SIZE.
  pose proof (scan_assembled (Z.to_nat (80 - 1 - index st)) st NUL (b :: rx) []) as Ha.
  pose proof (scan_bounds (Z.to_nat (80 - 1 - index st)) st NUL (b :: rx) []) as Hb.
  unfold CMD_BUF_SIZE in Ha, Hb.
  destruct scan as [st' tr|st' ch rx' tr]; [discriminate|].
  intros _.
  destruct Ha as (consumed & Hrx & Htr & Hch & Hp & Hc); [lia|lia|lia|].
  destruct Hb as (Hi' & Hl' & Ha'); [lia|lia|lia|].
  destruct (finish_line_spec g_sCmdTable st' ch rx' tr)
    as (_ & Hun & _ & Hwf' & Htr' & _);
    [unfold CMD_BUF_SIZE; lia|unfold CMD_BUF_SIZE; lia|by rewrite Ha'|].
  pose proof (finish_line_nul st' ch rx' tr) as Hnul.
  pose proof (pending_length st') as Hpl.
  exists consumed. rewrite Hun. split; [exact Hrx|].
  rewrite <- Hp. split; [lia|]. split.
  - replace (length (pending st')) with (Z.to_nat (index st')) by lia.
    apply Hnul. lia.
  - split; [apply Hwf'|].
    rewrite Htr', Htr, (line_events_config _ st st' _ _ Hc), Hch. reflexivity.
Qed.

End Assembled_lines.

(** ** Lines and backspaces through [DoCmdLine] *)

Section Assembled_claims.

Variable g_sCmdTable : list tCmdLineEntry.

(** C1, amended.  For a line that ends with a terminator and holds no other,
    that with its terminator is within the reach of the loop counter, so
    shorter than the buffer, whether it arrives in one call or its beginning
    was assembled by earlier calls, and whose delimiter-split has at most
    [CMDLINE_MAX_ARGS] tokens: the call that receives the terminator completes
    the line, [argv] holds exactly the tokens of the split (no empty token,
    consecutive delimiters collapsed), and the dispatch receives them with
    their count.  The line is the string the buffer holds: the bytes masked
    to 7 bits, line feeds dropped and backspaces applied, a terminator other
    than CR and LF kept as the last character, up to the first NUL. *)
Theorem line_tokens_are_split (st : CommandLine) (body : list Z) (t : Z)
    (rx : list Z) :
  wf st ->
  existsb (is_terminator st) body = false ->
  is_terminator st t = true ->
  index st + Z.of_nat (length body) + 1 < CMD_BUF_SIZE ->
  Z.of_nat (length (split_collapse (delimiter st)
                      (cstring (assembled st (pending st) (body ++ [t])))))
    <= CMDLINE_MAX_ARGS ->
  tokenizes_as_split g_sCmdTable st body t rx.
Proof.
  intros Hwf Hnt Hterm Hfit Hfew.
  destruct (edited_line_call g_sCmdTable st body t rx Hwf Hnt Hterm Hfit)
    as (Hret & Hun & _ & _ & Htr & Hargs).
  unfold tokenizes_as_split.
  split; [exact Hret|]. split; [exact Hun|]. split; [exact (Hargs Hfew)|].
  rewrite Htr. f_equal. unfold line_events, process_line.
  destruct (cstring (assembled st (pending st) (body ++ [t]))) as [|c line'] eqn:Eline;
    [reflexivity|].
  destruct (Z.ltb_spec CMDLINE_MAX_ARGS
              (Z.of_nat (length (split_collapse (delimiter st) (c :: line')))));
    [lia|reflexivity].
Qed.

(** C8, amended.  In an object as it is between calls, with backspace not
    configured as a terminator: a backspace byte takes exactly the last of
    the assembled characters off, and leaves the cursor at 0 when there is
    none, whether it is all the call receives, or comes among other bytes of
    a call that goes on assembling, or among the bytes of a line that the
    call completes; over any sequence of calls, whatever the bytes, the
    cursor stays within the buffer, at most [CMD_BUF_SIZE - 1]; and every
    call that reads the buffer as a string, that is every call that returns
    1, finds it terminated at the cursor: the string is made of the
    characters assembled by the bytes read, the NUL behind them is within the
    buffer and still there when the call returns. *)
Theorem backspace_and_cursor_bounds (st : CommandLine) :
  wf st ->
  (forall b : Z,
      Z.land b 127 = CHAR_BS -> is_terminator st b = false ->
      index st < CMD_BUF_SIZE - 2 ->
      takes_one_off g_sCmdTable st b)
  /\ (forall (pre : list Z) (b : Z) (post : list Z),
         Z.land b 127 = CHAR_BS ->
         existsb (is_terminator st) (pre ++ b :: post) = false ->
         index st + Z.of_nat (length (pre ++ b :: post)) < CMD_BUF_SIZE - 1 ->
         let r := DoCmdLine g_sCmdTable st (pre ++ b :: post) in
         ret r = 0
         /\ pending (obj r)
            = assembled st (removelast (assembled st (pending st) pre)) post)
  /\ (forall (pre : list Z) (b : Z) (post : list Z) (t : Z) (rx : list Z),
         Z.land b 127 = CHAR_BS ->
         existsb (is_terminator st) (pre ++ b :: post) = false ->
         is_terminator st t = true ->
         index st + Z.of_nat (length (pre ++ b :: post)) + 1 < CMD_BUF_SIZE ->
         let r := DoCmdLine g_sCmdTable st ((pre ++ b :: post) ++ t :: rx) in
         ret r = 1 /\ unread r = rx
         /\ trace r
            = echoes st ((pre ++ b :: post) ++ [t])
              ++ line_events g_sCmdTable st (Z.land t 127)
                   (cstring (assembled st
                               (removelast (assembled st (pending st) pre))
                               (post ++ [t]))))
  /\ (forall (stream : list Z) (polls : list (list Z)),
         0 <= index (run g_sCmdTable st stream polls) <= CMD_BUF_SIZE - 1)
  /\ (forall rx : list Z,
         let r := DoCmdLine g_sCmdTable st rx in
         ret r = 1 ->
         exists consumed,
           rx = consumed ++ unread r
           /\ let line := assembled st (pending st) consumed in
              Z.of_nat (length line) <= CMD_BUF_SIZE - 1
              /\ g_cCmdBuf (obj r) !! length line = Some NUL
              /\ Z.of_nat (length (g_cCmdBuf (obj r))) = CMD_BUF_SIZE
              /\ trace r
                 = echoes st consumed
                   ++ line_events g_sCmdTable st
                        (default NUL (last (map (fun b => Z.land b 127) consumed)))
                        (cstring line)).
Proof.
  intros Hwf.
  assert (Hedit : forall (pre : list Z) (b : Z) (post : list Z),
             Z.land b 127 = CHAR_BS ->
             is_terminator st b = false ->
             assembled st (pending st) (pre ++ b :: post)
             = assembled st (removelast (assembled st (pending st) pre)) post).
  { intros pre b post Hb Hnt.
    rewrite assembled_app. unfold assembled at 1. cbn [fold_left].
    unfold edit at 2. by rewrite Hnt, Hb. }
  assert (Hmid : forall (pre : list Z) (b : Z) (post : list Z),
             existsb (is_terminator st) (pre ++ b :: post) = false ->
             is_terminator st b = false).
  { intros pre b post Hnt. rewrite existsb_app in Hnt.
    apply orb_false_elim in Hnt. destruct Hnt as [_ Hnt].
    cbn [existsb] in Hnt. apply orb_false_elim in Hnt. tauto. }
  split; [|split; [|split; [|split]]].
  - intros b Hb Hnt Hroom. unfold takes_one_off.
    remember (DoCmdLine g_sCmdTable st [b]) as r eqn:Hr.
    destruct (edited_partial g_sCmdTable st [b] Hwf)
      as (Hret & _ & _ & Hp & Hi' & Hl' & _);
      [cbn; by rewrite Hnt|discriminate|cbn [length]; unfold CMD_BUF_SIZE in *; lia|].
    rewrite <- Hr in Hret, Hp, Hi', Hl'.
    pose proof (Hedit [] b [] Hb Hnt) as He.
    change (assembled st (pending st) [b] = removelast (pending st)) in He.
    rewrite He in Hp.
    split; [exact Hret|]. split; [exact Hp|].
    pose proof (pending_length (obj r)) as Hpl.
    rewrite Hp in Hpl. destruct Hwf as (Hi & Hlen & _).
    pose proof (pending_length st) as Hpl0.
    assert (Hrl : length (removelast (pending st)) = (length (pending st) - 1)%nat).
    { destruct (pending st) as [|c l _] using rev_ind; [reflexivity|].
      rewrite removelast_last, length_app. cbn. lia. }
    unfold CMD_BUF_SIZE in *. lia.
  - intros pre b post Hb Hnt Hfit. cbv zeta.
    destruct (edited_partial g_sCmdTable st (pre ++ b :: post) Hwf Hnt)
      as (Hret & _ & _ & Hp & _); [by destruct pre|exact Hfit|].
    split; [exact Hret|]. rewrite Hp. apply (Hedit pre b post Hb (Hmid pre b post Hnt)).
  - intros pre b post t rx Hb Hnt Hterm Hfit. cbv zeta.
    destruct (edited_line_call g_sCmdTable st (pre ++ b :: post) t rx Hwf Hnt Hterm Hfit)
      as (Hret & Hun & _ & _ & Htr & _).
    split; [exact Hret|]. split; [exact Hun|].
    rewrite Htr. do 3 f_equal.
    rewrite <- app_assoc. cbn [app].
    apply (Hedit pre b (post ++ [t]) Hb (Hmid pre b post Hnt)).
  - intros stream polls. destruct (run_wf g_sCmdTable polls st stream Hwf) as (Hr & _).
    unfold CMD_BUF_SIZE in *. lia.
  - intros rx. apply (DoCmdLine_reads_string g_sCmdTable st rx Hwf).
Qed.

End Assembled_claims.

(** The bytes [add 1 2] and a carriage return, received with the default
    settings: three tokens, and the handler of [add] is called with them.
    And a line that comes with a line feed in front and a backspace in it. *)
Lemma line_tokens_are_split_witness :
  let r := DoCmdLine demo_table default_CommandLine (cstr "add 1 2" ++ [CR]) in
  let r' := DoCmdLine demo_table default_CommandLine
              ((LF :: cstr "lisx" ++ CHAR_BS :: cstr "t") ++ [CR]) in
  arg_strings (g_cCmdBuf (obj r)) 3 (argv (obj r)) = [cstr "add"; cstr "1"; cstr "2"]
  /\ handler_calls (trace r) = [Invoke 0 3 [cstr "add"; cstr "1"; cstr "2"]]
  /\ handler_calls (trace r') = [Invoke 1 1 [cstr "list"]].
Proof.
  cbv zeta.
  destruct (line_tokens_are_split demo_table default_CommandLine (cstr "add 1 2")
              CR []) as (_ & _ & Hargs & Htr).
  - apply wf_default.
  - reflexivity.
  - reflexivity.
  - vm_compute. reflexivity.
  - vm_compute. discriminate.
  - destruct (line_tokens_are_split demo_table default_CommandLine
                (LF :: cstr "lisx" ++ CHAR_BS :: cstr "t") CR [])
      as (_ & _ & _ & Htr').
    + apply wf_default.
    + reflexivity.
    + reflexivity.
    + vm_compute. reflexivity.
    + vm_compute. discriminate.
    + split; [exact Hargs|]. split.
      * transitivity (handler_calls (trace (DoCmdLine demo_table default_CommandLine
                                              (cstr "add 1 2" ++ [CR]))));
          [reflexivity|]. rewrite Htr. reflexivity.
      * rewrite Htr'. reflexivity.
Defined.

(** C1 as stated fails on a line of eleven tokens, twenty-one characters. *)
Lemma line_tokens_are_split_counterexample :
  let st := default_CommandLine in
  wf st /\ pending st = []
  /\ existsb (is_terminator st) eleven_tokens = false
  /\ is_terminator st CR = true
  /\ index st + Z.of_nat (length eleven_tokens) + 1 < CMD_BUF_SIZE
  /\ split_collapse (delimiter st)
       (cstring (assembled st (pending st) (eleven_tokens ++ [CR])))
     = map (fun c => [c]) (cstr "abcdefghijk")
  /\ fst (fst (CmdLineProcess demo_table (holding st eleven_tokens)))
     = CMDLINE_TOO_MANY_ARGS
  /\ handler_calls (trace (DoCmdLine demo_table st (eleven_tokens ++ [CR]))) = []
  /\ ~ tokenizes_as_split demo_table st eleven_tokens CR [].
Proof.
  cbv zeta. split; [apply wf_default|].
  split; [reflexivity|]. split; [reflexivity|]. split; [reflexivity|].
  split; [reflexivity|]. split; [reflexivity|]. split; [reflexivity|].
  split; [reflexivity|].
  unfold tokenizes_as_split. intros (_ & _ & Hargs & _).
  vm_compute in Hargs. discriminate.
Qed.

(** Two characters assembled, then a backspace: the [b] is taken off.  A
    backspace at cursor 0 leaves the cursor at 0.  A line with a backspace
    in it is processed without the character in front of the backspace.  The
    cursor stays within the buffer over three calls. *)
Lemma backspace_and_cursor_bounds_witness :
  let st := holding default_CommandLine (cstr "ab") in
  pending (obj (DoCmdLine demo_table st [CHAR_BS])) = cstr "a"
  /\ index (obj (DoCmdLine demo_table default_CommandLine [CHAR_BS])) = 0
  /\ handler_calls
       (trace (DoCmdLine demo_table default_CommandLine
                 ((cstr "lisx" ++ CHAR_BS :: cstr "t") ++ [CR])))
     = [Invoke 1 1 [cstr "list"]]
  /\ 0 <= index (run demo_table st [] [[8; 8; 8; 8]; cstr "list"; [13]])
     <= CMD_BUF_SIZE - 1.
Proof.
  cbv zeta.
  destruct (backspace_and_cursor_bounds demo_table
              (holding default_CommandLine (cstr "ab")))
    as (Hone & _ & _ & Hrun & _).
  - apply wf_holding. vm_compute. discriminate.
  - destruct (backspace_and_cursor_bounds demo_table default_CommandLine)
      as (Hzero & _ & Hline & _).
    + apply wf_default.
    + destruct (Hone CHAR_BS) as (_ & Hp & _);
        [reflexivity|reflexivity|vm_compute; reflexivity|].
      destruct (Hzero CHAR_BS) as (_ & _ & Hi);
        [reflexivity|reflexivity|vm_compute; reflexivity|].
      destruct (Hline (cstr "lisx") CHAR_BS (cstr "t") CR [])
        as (_ & _ & Htr);
        [reflexivity|reflexivity|reflexivity|vm_compute; reflexivity|].
      split; [rewrite Hp; reflexivity|]. split; [rewrite Hi; reflexivity|].
      split; [|apply Hrun].
      transitivity (handler_calls
                      (trace (DoCmdLine demo_table default_CommandLine
                                ((cstr "lisx" ++ CHAR_BS :: cstr "t") ++ CR :: []))));
        [reflexivity|]. rewrite Htr. reflexivity.
Defined.

(** C8 as stated fails once backspace is configured as a terminator: with
    [ab] assembled, the backspace byte is stored behind them and ends the
    line; the default handler is called with the three characters. *)
Lemma backspace_and_cursor_bounds_counterexample :
  let st := SetDefaultHandler (Some (answer 0))
              (Terminators [CHAR_BS] (holding default_CommandLine (cstr "ab"))) in
  let r := DoCmdLine demo_table st [CHAR_BS] in
  wf st /\ pending st = cstr "ab" /\ index st < CMD_BUF_SIZE - 2
  /\ is_terminator st CHAR_BS = true
  /\ ret r = 1
  /\ handler_calls (trace r) = [InvokeDefault 1 [cstr "ab" ++ [CHAR_BS]]]
  /\ ~ takes_one_off demo_table st CHAR_BS.
Proof.
  cbv zeta.
  split; [unfold wf; vm_compute; repeat split; try discriminate; lia|].
  split; [reflexivity|]. split; [reflexivity|]. split; [reflexivity|].
  split; [reflexivity|]. split; [reflexivity|].
  unfold takes_one_off. intros (Hret & _). vm_compute in Hret. discriminate.
Qed.
